(** * Calendário Inteligente: event aggregation and feed synchronisation

    A shallow embedding of the engine of [app.py]: the date helpers
    ([to_date_str], [from_date_str], [dt_to_local_date_time]), the feed
    client ([ICSClient.add_source], [ICSClient.fetch_all]), the routine
    expander ([SmartCalendarApp.expand_routines_for_month]) and the month
    index ([SmartCalendarApp.events_map_for_month]).

    Conventions.
    - Python [int] is [Z]; Python [str] is [string].  A [string] is a
      sequence of bytes: the helpers of [str] that depend on the character
      class ([strip], [lower], the [\S] and [\d] of [re]) are modelled on
      the ASCII range, bytes above 127 being neither space, digit nor
      upper-case letter.
    - A JSON object is a record; a key read with [.get] or inside [try] is
      an [option] field.
    - Comparison of strings is comparison of their bytes, which for UTF-8
      text is the comparison of code points that Python makes.
    - Code that can raise returns a [result]; [try/except] is a [match] on
      it.
    - A [dict] is a [gmap].
    - What the C library decides is modelled as on the platform the
      program was run on (CPython on Linux with glibc): [strftime] writes
      a year below 1000 without leading zeros, and an argument of
      [dt.date] beyond the [int] of C raises [OverflowError]. *)

From Stdlib Require Import ZArith Lia Ascii String List.
From stdpp Require Import base option gmap strings list fin_maps sorting pretty.

Local Open Scope Z_scope.

(** ** Exceptions *)

Inductive exn : Type :=
| ValueError
| TypeError
| KeyError
| AttributeError
| OverflowError
| Exhausted.

Inductive result (A : Type) : Type :=
| Ok (a : A)
| Raise (e : exn).
Arguments Ok {A} a.
Arguments Raise {A} e.

Global Instance result_ret : MRet result := λ A a, Ok a.
Global Instance result_bind : MBind result := λ A B f r,
  match r with
  | Ok a => f a
  | Raise e => Raise e
  end.

(** [try: r except: d] with a handler that produces [d] whatever was raised. *)
Definition try_except {A} (r : result A) (d : A) : A :=
  match r with
  | Ok a => a
  | Raise _ => d
  end.

Definition is_ok {A} (r : result A) : bool :=
  match r with
  | Ok _ => true
  | Raise _ => false
  end.

(** ** Python strings *)

Module Py.

(** [str.isspace] of one character. *)
Definition isspace (c : ascii) : bool :=
  let n := Z.of_N (N_of_ascii c) in
  ((9 <=? n) && (n <=? 13)) || ((28 <=? n) && (n <=? 32)).

Fixpoint lstrip (s : string) : string :=
  match s with
  | EmptyString => EmptyString
  | String c s' => if isspace c then lstrip s' else s
  end.

Fixpoint rstrip (s : string) : string :=
  match s with
  | EmptyString => EmptyString
  | String c s' =>
      match rstrip s' with
      | EmptyString => if isspace c then EmptyString else String c EmptyString
      | String _ _ as r => String c r
      end
  end.

Definition strip (s : string) : string := rstrip (lstrip s).

Definition lower_char (c : ascii) : ascii :=
  let n := N_of_ascii c in
  if ((65 <=? n) && (n <=? 90))%N then ascii_of_N (n + 32) else c.

Fixpoint lower (s : string) : string :=
  match s with
  | EmptyString => EmptyString
  | String c s' => String (lower_char c) (lower s')
  end.

(** [s.startswith(p)] *)
Definition startswith (s p : string) : bool := String.prefix p s.

(** Truth value of a string: empty is false. *)
Definition truthy (s : string) : bool :=
  match s with
  | EmptyString => false
  | String _ _ => true
  end.

(** [x or d] where [x] is a string or [None]. *)
Definition or_else (x : option string) (d : string) : string :=
  match x with
  | Some s => if truthy s then s else d
  | None => d
  end.

(** [x < y] on strings: code points, lexicographically. *)
Definition str_lt (x y : string) : bool := String.ltb x y.

(** Value of a decimal digit, [None] for any other character. *)
Definition digit_val (c : ascii) : option Z :=
  let n := Z.of_N (N_of_ascii c) in
  if (48 <=? n) && (n <=? 57) then Some (n - 48) else None.

(** The character of a digit [0..9]. *)
Definition digit_char (n : Z) : ascii := ascii_of_N (Z.to_N (48 + n)).

(** [f"{n:02d}"] and [f"{n:04d}"] for [0 <= n < 100], [0 <= n < 10000]. *)
Definition pad2 (n : Z) : string :=
  String (digit_char (n / 10)) (String (digit_char (n mod 10)) EmptyString).

Definition pad4 (n : Z) : string :=
  String (digit_char (n / 1000))
    (String (digit_char (n / 100 mod 10))
       (String (digit_char (n / 10 mod 10))
          (String (digit_char (n mod 10)) EmptyString))).

(** [str(n)] for [0 <= n < 10000], the range of the year of a date: the
    digits without leading zeros. *)
Definition decimal (n : Z) : string :=
  if n <? 10 then String (digit_char n) EmptyString
  else if n <? 100 then pad2 n
  else if n <? 1000 then String (digit_char (n / 100)) (pad2 (n mod 100))
  else pad4 n.

End Py.

(** ** [datetime.date] *)

Record date : Type := Date { year : Z; month : Z; day : Z }.

Global Instance date_eq_dec : EqDecision date.
Proof. solve_decision. Defined.

Definition MINYEAR : Z := 1.
Definition MAXYEAR : Z := 9999.

Definition is_leap (y : Z) : bool :=
  (y mod 4 =? 0) && (negb (y mod 100 =? 0) || (y mod 400 =? 0)).

(** [_DAYS_IN_MONTH] with the leap day of February. *)
Definition days_in_month (y m : Z) : Z :=
  match m with
  | 2 => if is_leap y then 29 else 28
  | 4 | 6 | 9 | 11 => 30
  | _ => 31
  end.

Definition valid_month (y m : Z) : Prop :=
  MINYEAR <= y <= MAXYEAR ∧ 1 <= m <= 12.

Definition valid_monthb (y m : Z) : bool :=
  (MINYEAR <=? y) && (y <=? MAXYEAR) && (1 <=? m) && (m <=? 12).

Definition valid_date (d : date) : Prop :=
  valid_month (year d) (month d) ∧ 1 <= day d <= days_in_month (year d) (month d).

Definition valid_dateb (d : date) : bool :=
  valid_monthb (year d) (month d) && (1 <=? day d)
  && (day d <=? days_in_month (year d) (month d)).

(** An integer that fits the [int] of C, which the constructor of
    [dt.date] converts its arguments to. *)
Definition c_int (n : Z) : bool := (- 2 ^ 31 <=? n) && (n <=? 2 ^ 31 - 1).

(** [dt.date(y, m, d)]: [OverflowError] when an argument does not fit the
    [int] of C, [ValueError] outside the calendar. *)
Definition date_new (y m d : Z) : result date :=
  if c_int y && c_int m && c_int d
  then if valid_dateb (Date y m d) then Ok (Date y m d) else Raise ValueError
  else Raise OverflowError.

(** [calendar.monthrange(y, m)[1]] *)
Definition monthrange_days (y m : Z) : Z := days_in_month y m.

Definition days_before_year (y : Z) : Z :=
  let p := y - 1 in p * 365 + p / 4 - p / 100 + p / 400.

Definition days_before_month (y m : Z) : Z :=
  match m with
  | 1 => 0 | 2 => 31 | 3 => 59 | 4 => 90 | 5 => 120 | 6 => 151
  | 7 => 181 | 8 => 212 | 9 => 243 | 10 => 273 | 11 => 304 | _ => 334
  end + (if (2 <? m) && is_leap y then 1 else 0).

Definition toordinal (d : date) : Z :=
  days_before_year (year d) + days_before_month (year d) (month d) + day d.

(** [d.weekday()]: Monday is 0. *)
Definition weekday (d : date) : Z := (toordinal d + 6) mod 7.

(** [a <= b]: the triples compare lexicographically. *)
Definition date_leb (a b : date) : bool :=
  (year a <? year b)
  || ((year a =? year b)
      && ((month a <? month b)
          || ((month a =? month b) && (day a <=? day b)))).

Definition date_le (a b : date) : Prop := date_leb a b = true.

(** [d + dt.timedelta(days=1)]: the day after, [OverflowError] after
    9999-12-31. *)
Definition add_one_day (d : date) : result date :=
  if day d <? days_in_month (year d) (month d)
  then Ok (Date (year d) (month d) (day d + 1))
  else if month d <? 12
  then Ok (Date (year d) (month d + 1) 1)
  else if year d <? MAXYEAR
  then Ok (Date (year d + 1) 1 1)
  else Raise OverflowError.

(** [to_date_str]: [d.strftime("%Y-%m-%d")].  The [%Y] of the C library
    the program runs on (glibc) writes the year without leading zeros:
    the year 999 reads [999-01-07].  From the year 1000 on the text has
    the four digits of the year on every platform. *)
Definition to_date_str (d : date) : string :=
  Py.decimal (year d) +:+ "-" +:+ Py.pad2 (month d) +:+ "-" +:+ Py.pad2 (day d).

(** The date written [YYYY-MM-DD], the year on four digits: the text of
    the data model, which [from_date_str] reads back. *)
Definition iso_date_str (d : date) : string :=
  Py.pad4 (year d) +:+ "-" +:+ Py.pad2 (month d) +:+ "-" +:+ Py.pad2 (day d).

(** *** [from_date_str]: [datetime.strptime(s, "%Y-%m-%d").date()]

    [strptime] matches the regular expression of the format,
    [(\d\d\d\d)-(1[0-2]|0[1-9]|[1-9])-(3[0-1]|[1-2]\d|0[1-9]|[1-9]| [1-9])],
    at the start of the text, alternatives tried in order with
    backtracking, then refuses a match that leaves text over, then builds
    the date.  Each piece below takes the continuation of the match. *)

Section strptime.
Context {A : Type}.

Definition digit_in (lo hi : Z) (c : ascii) : option Z :=
  match Py.digit_val c with
  | Some v => if (lo <=? v) && (v <=? hi) then Some v else None
  | None => None
  end.

Definition orelse (x y : option A) : option A :=
  match x with
  | Some a => Some a
  | None => y
  end.

(** one digit in a range *)
Definition re_digit (lo hi : Z) (k : Z → string → option A) (s : string)
  : option A :=
  match s with
  | String c r =>
      match digit_in lo hi c with
      | Some v => k v r
      | None => None
      end
  | EmptyString => None
  end.

(** a literal character *)
Definition re_char (c : ascii) (k : string → option A) (s : string)
  : option A :=
  match s with
  | String c' r => if decide (c' = c) then k r else None
  | EmptyString => None
  end.

(** [\d\d\d\d] *)
Definition re_Y (k : Z → string → option A) : string → option A :=
  re_digit 0 9 (λ a, re_digit 0 9 (λ b, re_digit 0 9 (λ c, re_digit 0 9
    (λ d, k (1000 * a + 100 * b + 10 * c + d))))).

(** [1[0-2]|0[1-9]|[1-9]] *)
Definition re_m (k : Z → string → option A) (s : string) : option A :=
  orelse (re_digit 1 1 (λ a, re_digit 0 2 (λ b, k (10 * a + b))) s)
    (orelse (re_digit 0 0 (λ _, re_digit 1 9 k) s)
       (re_digit 1 9 k s)).

(** [3[0-1]|[1-2]\d|0[1-9]|[1-9]| [1-9]] *)
Definition re_d (k : Z → string → option A) (s : string) : option A :=
  orelse (re_digit 3 3 (λ a, re_digit 0 1 (λ b, k (10 * a + b))) s)
    (orelse (re_digit 1 2 (λ a, re_digit 0 9 (λ b, k (10 * a + b))) s)
       (orelse (re_digit 0 0 (λ _, re_digit 1 9 k) s)
          (orelse (re_digit 1 9 k s)
             (re_char " " (re_digit 1 9 k) s)))).
End strptime.

(** The match of the whole format: the three fields and what is left. *)
Definition strptime_match (s : string) : option (Z * Z * Z * string) :=
  re_Y (λ y, re_char "-" (re_m (λ m, re_char "-" (re_d (λ d rest,
    Some (y, m, d, rest)))))) s.

Definition strptime_ymd (s : string) : result date :=
  match strptime_match s with
  | Some (y, m, d, EmptyString) => date_new y m d
  | Some (_, _, _, String _ _) => Raise ValueError
  | None => Raise ValueError
  end.

(** The argument is whatever the record holds under the key: [None] makes
    [strptime] raise [TypeError]. *)
Definition from_date_str (s : option string) : result date :=
  match s with
  | Some s => strptime_ymd s
  | None => Raise TypeError
  end.

(** ** Occurrences and routines *)

(** The [source] and [color] tags: ["user"], ["ics"], ["routine"]. *)
Inductive source : Type := SrcUser | SrcIcs | SrcRoutine.

Global Instance source_eq_dec : EqDecision source.
Proof. solve_decision. Defined.

Record meta : Type := Meta { link : option string; feed : option string }.

Global Instance meta_eq_dec : EqDecision meta.
Proof. solve_decision. Defined.

(** An event dictionary.  [ev_date] and [ev_title] are read with a
    fallback by the month index, so a stored record may lack them;
    [ev_time] is [None] for an all-day event and [(hour, minute)]
    otherwise. *)
Record event : Type := Event {
  ev_id : string;
  ev_title : option string;
  ev_date : option string;
  ev_time : option (Z * Z);
  ev_source : source;
  ev_meta : meta;
  ev_color : source;
}.

Global Instance event_eq_dec : EqDecision event.
Proof. solve_decision. Defined.

(** A routine dictionary as stored in [routines.json]; every key is read
    with [.get]. *)
Record routine : Type := Routine {
  r_id : option string;
  r_title : option string;
  r_type : option string;
  r_days_of_week : list Z;
  r_time : option (Z * Z);
  r_start_date : option string;
  r_end_date : option string;
}.

(** [f"{x}"] of a value that is a string or [None]. *)
Definition fmt_opt (x : option string) : string :=
  match x with
  | Some s => s
  | None => "None"
  end.

(** ** [SmartCalendarApp.expand_routines_for_month] *)

(** The dictionary appended for the day [cur]. *)
Definition routine_occurrence (r : routine) (cur : date) : event :=
  {| ev_id := "routine:" +:+ fmt_opt (r_id r) +:+ ":" +:+ to_date_str cur;
     ev_title := Some (default "Rotina"%string (r_title r));
     ev_date := Some (to_date_str cur);
     ev_time := r_time r;
     ev_source := SrcRoutine;
     ev_meta := Meta None None;
     ev_color := SrcRoutine |}.

(** The two nested tests of the loop body. *)
Definition occurs_on (r : routine) (start : date) (end_ : option date)
    (cur : date) : bool :=
  bool_decide (weekday cur ∈ r_days_of_week r)
  && (date_leb start cur
      && match end_ with
         | None => true
         | Some e => date_leb cur e
         end).

Definition visit_day (r : routine) (start : date) (end_ : option date)
    (cur : date) (results : list event) : list event :=
  if occurs_on r start end_ cur
  then results ++ [routine_occurrence r cur]
  else results.

(** [while cur <= last: ...; cur += dt.timedelta(days=1)].  The fuel
    bounds the number of tests of the loop condition; running out of it is
    reported as [Exhausted], which [expand_never_exhausted] excludes. *)
Fixpoint month_loop (fuel : nat) (r : routine) (start : date)
    (end_ : option date) (last cur : date) (results : list event)
    : result (list event) :=
  match fuel with
  | O => Raise Exhausted
  | S fuel' =>
      if date_leb cur last
      then
        let results' := visit_day r start end_ cur results in
        cur' ← add_one_day cur;
        month_loop fuel' r start end_ last cur' results'
      else Ok results
  end.

(** [end = r.get("end_date"); end = from_date_str(end) if end else None] *)
Definition routine_end (r : routine) : result (option date) :=
  match r_end_date r with
  | Some s =>
      if Py.truthy s
      then d ← from_date_str (Some s); Ok (Some d)
      else Ok None
  | None => Ok None
  end.

Definition loop_fuel : nat := 32.

(** The body of [for r in self.routines]. *)
Definition expand_routine (first last : date) (r : routine)
    (results : list event) : result (list event) :=
  if bool_decide (r_type r ≠ Some "weekly"%string) then Ok results
  else
    match from_date_str (r_start_date r) with
    | Raise _ => Ok results
    | Ok start =>
        end_ ← routine_end r;
        month_loop loop_fuel r start end_ last first results
    end.

Fixpoint expand_routines_from (first last : date) (routines : list routine)
    (results : list event) : result (list event) :=
  match routines with
  | [] => Ok results
  | r :: rest =>
      results' ← expand_routine first last r results;
      expand_routines_from first last rest results'
  end.

Definition expand_routines_for_month (routines : list routine) (y m : Z)
    : result (list event) :=
  first ← date_new y m 1;
  let last_day := monthrange_days y m in
  last ← date_new y m last_day;
  expand_routines_from first last routines [].

(** The scenario of the specification: Mondays of January 2024. *)
Definition gym : routine :=
  {| r_id := Some "routine:1704067200000"%string;
     r_title := Some "Gym"%string;
     r_type := Some "weekly"%string;
     r_days_of_week := [0];
     r_time := Some (7, 0);
     r_start_date := Some "2024-01-01"%string;
     r_end_date := None |}.

(** The same routine, ending on 20 January 2024. *)
Definition gym_until_20 : routine :=
  {| r_id := Some "routine:1704067200000"%string;
     r_title := Some "Gym"%string;
     r_type := Some "weekly"%string;
     r_days_of_week := [0];
     r_time := Some (7, 0);
     r_start_date := Some "2024-01-01"%string;
     r_end_date := Some "2024-01-20"%string |}.

(** A routine of every day of the week, from the year 900 on. *)
Definition matins : routine :=
  {| r_id := Some "routine:1704067200001"%string;
     r_title := Some "Matinas"%string;
     r_type := Some "weekly"%string;
     r_days_of_week := [0; 1; 2; 3; 4; 5; 6];
     r_time := Some (5, 0);
     r_start_date := Some "0900-01-01"%string;
     r_end_date := None |}.

(** ** The month index: [SmartCalendarApp.events_map_for_month] *)

(** The fields of the application the engine reads. *)
Record smart_calendar_app : Type := App {
  user_events : list event;
  ics_events_cache : list event;
  routines : list routine;
}.

(** [e["date"]]: [KeyError] when the key is missing. *)
Definition getitem_date (e : event) : result string :=
  match ev_date e with
  | Some s => Ok s
  | None => Raise KeyError
  end.

(** The body of the two scans,
    [try: d = from_date_str(e["date"]); if d.year == year and
    d.month == month: events.append(e) except Exception: pass]. *)
Definition scan_event (y m : Z) (events : list event) (e : event)
    : list event :=
  try_except
    (s ← getitem_date e;
     d ← from_date_str (Some s);
     Ok (if (year d =? y) && (month d =? m) then events ++ [e] else events))
    events.

(** [m.setdefault(ds, []).append(e)], skipped when [e.get("date")] is
    falsy. *)
Definition group_event (m : gmap string (list event)) (e : event)
    : gmap string (list event) :=
  match ev_date e with
  | Some ds =>
      if Py.truthy ds then <[ds := default [] (m !! ds) ++ [e]]> m else m
  | None => m
  end.

(** The sort key,
    [(999 if ev.get("time") is None else ev["time"][0]*60 + ev["time"][1],
      ev.get("title",""))]. *)
Definition sort_key (ev : event) : Z * string :=
  (match ev_time ev with
   | None => 999
   | Some (h, mi) => h * 60 + mi
   end,
   default ""%string (ev_title ev)).

(** [a < b] on the key tuples: the first components that differ decide. *)
Definition key_lt (a b : Z * string) : bool :=
  if a.1 =? b.1 then Py.str_lt a.2 b.2 else a.1 <? b.1.

(** [lst.sort(key=...)] is a stable sort; a stable sort has one possible
    result, computed here by insertion from the right: an element goes
    before the first element of the sorted tail that is not smaller. *)
Fixpoint insert_by_key (x : event) (l : list event) : list event :=
  match l with
  | [] => [x]
  | y :: l' =>
      if key_lt (sort_key y) (sort_key x)
      then y :: insert_by_key x l'
      else x :: l
  end.

Definition sort_by_key (l : list event) : list event :=
  foldr insert_by_key [] l.

Definition events_map_for_month (self : smart_calendar_app) (y m : Z)
    : result (gmap string (list event)) :=
  let events := foldl (scan_event y m) [] (user_events self) in
  let events := foldl (scan_event y m) events (ics_events_cache self) in
  expanded ← expand_routines_for_month (routines self) y m;
  let events := events ++ expanded in
  let idx := foldl group_event ∅ events in
  Ok (sort_by_key <$> idx).

(** [events_for_date]: [m.get(ds, [])] in the index of the date's month. *)
Definition events_for_date (self : smart_calendar_app) (d : date) : result (list event) :=
  idx ← events_map_for_month self (year d) (month d);
  Ok (default [] (idx !! to_date_str d)).

(** ** The feed client: [ICSClient] *)

(** A calendar property value as [icalendar] decodes it. *)
Record datetime : Type := Datetime {
  dt_date : date;
  dt_hour : Z;
  dt_minute : Z;
  dt_tzinfo : option Z;   (* offset from UTC in minutes, [None] if naive *)
}.

(** What [dtstart.dt] can be: a [datetime], a [date], or another decoded
    value (a duration, a time of day, a period). *)
Inductive dt_value : Type :=
| VDatetime (v : datetime)
| VDate (d : date)
| VOther.

(** What [comp.get("dtstart")] can be when present: one property, or the
    list the parser builds when the line is repeated, which has no [.dt]. *)
Inductive dtstart_prop : Type :=
| DtProp (v : dt_value)
| DtList.

Record component : Type := Component {
  c_uid : option string;
  c_summary : option string;
  c_dtstart : option dtstart_prop;
  c_url : option string;
  c_description : option string;
}.

(** The outcome of [requests.get], [raise_for_status] and
    [ICalendar.from_ical] followed by [walk("vevent")]. *)
Inductive response : Type :=
| ConnectionFailed
| HttpStatusError
| Unparsable
| Calendar (comps : list component).

(** What a fetch cycle reads from outside the program: the network (one
    request per position of the list), the local time zone and the
    clock.  [astimezone] is the conversion of an aware [datetime] to
    local time, which raises [OverflowError] when the local time falls
    outside the years 1 to 9999. *)
Record env : Type := Env {
  http_get : nat → string → response;
  astimezone : datetime → result datetime;
  today : date;
}.

(** [dt_to_local_date_time] *)
Definition dt_to_local_date_time (w : env) (dtv : dt_value)
    : result (date * option (Z * Z)) :=
  match dtv with
  | VDatetime v =>
      local_dt ← match dt_tzinfo v with
                 | Some _ => astimezone w v
                 | None => Ok v
                 end;
      Ok (dt_date local_dt, Some (dt_hour local_dt, dt_minute local_dt))
  | VDate d => Ok (d, None)
  | VOther => Ok (today w, None)
  end.

(** [URL_RE = re.compile(r"https?://\S+")] *)
Fixpoint take_nonspace (s : string) : string :=
  match s with
  | EmptyString => EmptyString
  | String c r => if Py.isspace c then EmptyString else String c (take_nonspace r)
  end.

Fixpoint drop_prefix (p s : string) : option string :=
  match p, s with
  | EmptyString, _ => Some s
  | String a p', String b s' => if decide (a = b) then drop_prefix p' s' else None
  | String _ _, EmptyString => None
  end.

(** A match of the pattern at the start of [s]: the scheme, then the
    longest run of non-space characters, of which there must be one. *)
Definition url_re_match (s : string) : option string :=
  let after (scheme : string) : option string :=
    match drop_prefix scheme s with
    | Some r =>
        let run := take_nonspace r in
        if Py.truthy run then Some (scheme +:+ run) else None
    | None => None
    end in
  orelse (after "https://"%string) (after "http://"%string).

(** [URL_RE.search(s)]: the match at the leftmost position that has one. *)
Fixpoint url_re_search (s : string) : option string :=
  match s with
  | EmptyString => None
  | String _ r => orelse (url_re_match s) (url_re_search r)
  end.

Definition component_link (comp : component) : option string :=
  match c_url comp with
  | Some u =>
      if Py.truthy u then Some u
      else match c_description comp with
           | Some desc => if Py.truthy desc then url_re_search desc else None
           | None => None
           end
  | None =>
      match c_description comp with
      | Some desc => if Py.truthy desc then url_re_search desc else None
      | None => None
      end
  end.

(** [dtstart.dt] *)
Definition dtstart_dt (p : dtstart_prop) : result dt_value :=
  match p with
  | DtProp v => Ok v
  | DtList => Raise AttributeError
  end.

(** The body of [for comp in cal.walk("vevent")]: [Ok None] is the
    [continue], [Ok (Some ev)] the appended dictionary. *)
Definition component_event (w : env) (i : nat) (url : string) (total : nat)
    (comp : component) : result (option event) :=
  let uid := Py.or_else (c_uid comp) ("u" +:+ pretty i +:+ "-" +:+ pretty total) in
  let summary := Py.or_else (c_summary comp) "Evento" in
  match c_dtstart comp with
  | None => Ok None
  | Some dtstart =>
      dtv ← dtstart_dt dtstart;
      '(d, tm) ← dt_to_local_date_time w dtv;
      let link := component_link comp in
      Ok (Some {| ev_id := "ics:" +:+ pretty i +:+ ":" +:+ uid;
                  ev_title := Some summary;
                  ev_date := Some (to_date_str d);
                  ev_time := tm;
                  ev_source := SrcIcs;
                  ev_meta := Meta link (Some url);
                  ev_color := SrcIcs |})
  end.

(** The counters and the list a cycle accumulates. *)
Record cycle : Type := Cycle {
  all_events : list event;
  total : nat;
  errors : nat;
}.

(** The component loop of one feed.  An exception leaves the loop for the
    [except] clause of the feed, which counts one error; what was appended
    before stays. *)
Fixpoint walk_components (w : env) (i : nat) (url : string)
    (comps : list component) (c : cycle) : cycle :=
  match comps with
  | [] => c
  | comp :: rest =>
      match component_event w i url (total c) comp with
      | Raise _ => Cycle (all_events c) (total c) (S (errors c))
      | Ok None => walk_components w i url rest c
      | Ok (Some ev) =>
          walk_components w i url rest
            (Cycle (all_events c ++ [ev]) (S (total c)) (errors c))
      end
  end.

(** The body of [for i, url in enumerate(urls)]. *)
Definition fetch_one (w : env) (i : nat) (url : string) (c : cycle) : cycle :=
  match http_get w i url with
  | Calendar comps => walk_components w i url comps c
  | ConnectionFailed | HttpStatusError | Unparsable =>
      Cycle (all_events c) (total c) (S (errors c))
  end.

Fixpoint fetch_from (w : env) (i : nat) (urls : list string) (c : cycle)
    : cycle :=
  match urls with
  | [] => c
  | url :: rest => fetch_from w (S i) rest (fetch_one w i url c)
  end.

(** The client.  [stored_urls] is the content of the sources file:
    [None] when it is missing or unreadable. *)
Record ics_client : Type := IcsClient {
  stored_urls : option (list string);
  urls : list string;
  events : list event;
  status : string;
}.

(** [safe_load_json(self.sources_file, [])] *)
Definition load_sources (self : ics_client) : list string :=
  default [] (stored_urls self).

Definition status_no_sources : string := "ICS: sem fontes".
Definition status_all_failed : string := "ICS: erro ao carregar fontes".
Definition status_partial (total errors : nat) : string :=
  "ICS: " +:+ pretty total +:+ " eventos, " +:+ pretty errors +:+ " falhas".
Definition status_clean (total : nat) : string :=
  "ICS: " +:+ pretty total +:+ " eventos".

Definition cycle_status (c : cycle) : string :=
  if negb (Nat.eqb (errors c) 0) && negb (Nat.eqb (total c) 0)
  then status_partial (total c) (errors c)
  else if negb (Nat.eqb (errors c) 0) && Nat.eqb (total c) 0
  then status_all_failed
  else status_clean (total c).

(** [ICSClient.__init__] *)
Definition ics_client_init (stored : option (list string)) : ics_client :=
  IcsClient stored (default [] stored) [] status_no_sources.

(** [ICSClient.add_source]: the pair returned and the client after. *)
Definition add_source (self : ics_client) (url : option string)
    : (bool * string) * ics_client :=
  let url := Py.strip (Py.or_else url "") in
  if negb (Py.startswith (Py.lower url) "http")
  then ((false, "URL inválida"%string), self)
  else
    let loaded := load_sources self in
    if bool_decide (url ∉ loaded)
    then
      let appended := loaded ++ [url] in
      ((true, "Fonte ICS adicionada"%string),
       IcsClient (Some appended) appended (events self) (status self))
    else
      ((true, "Fonte ICS adicionada"%string),
       IcsClient (stored_urls self) loaded (events self) (status self)).

(** [ICSClient.fetch_all] *)
Definition fetch_all (w : env) (self : ics_client) : ics_client :=
  let loaded := load_sources self in
  match loaded with
  | [] => IcsClient (stored_urls self) (urls self) [] status_no_sources
  | _ :: _ =>
      let c := fetch_from w 0 loaded (Cycle [] 0 0) in
      IcsClient (stored_urls self) (urls self) (all_events c) (cycle_status c)
  end.

(** [ICSClient.get_events] *)
Definition get_events (self : ics_client) : list event := events self.

(** ** Vocabulary of the statements *)

(** The days [k], [k+1], ... of a month, [n] of them. *)
Fixpoint days_from (y m k : Z) (n : nat) : list date :=
  match n with
  | O => []
  | S n' => Date y m k :: days_from y m (k + 1) n'
  end.

(** The days of the month [(y, m)], in order. *)
Definition month_days (y m : Z) : list date :=
  days_from y m 1 (Z.to_nat (days_in_month y m)).

(** The occurrences a routine contributes on a list of days. *)
Definition selected (r : routine) (start : date) (end_ : option date)
    (ds : list date) : list event :=
  routine_occurrence r <$> filter (λ d, occurs_on r start end_ d = true) ds.

(** A date of the month [(y, m)]. *)
Definition date_in_month (y m : Z) (d : date) : Prop :=
  valid_date d ∧ year d = y ∧ month d = m.

(** The condition of the specification for a weekly routine to include a
    day. *)
Definition qualifies (r : routine) (start : date) (end_ : option date)
    (d : date) : Prop :=
  weekday d ∈ r_days_of_week r
  ∧ date_le start d
  ∧ match end_ with
    | None => True
    | Some e => date_le d e
    end.

Global Instance qualifies_dec r start end_ d :
  Decision (qualifies r start end_ d).
Proof. unfold qualifies, date_le. destruct end_; apply _. Defined.

(** The end of a routine as the data model has it: none when the stored
    field is missing, null or the empty text, the date that the text
    reads as otherwise. *)
Definition stored_end (r : routine) (end_ : option date) : Prop :=
  match r_end_date r with
  | None => end_ = None
  | Some s =>
      if decide (s = ""%string) then end_ = None
      else ∃ e, end_ = Some e ∧ from_date_str (Some s) = Ok e
  end.

(** The one month whose last day has no successor in [datetime.date]. *)
Definition last_month (y m : Z) : Prop := y = MAXYEAR ∧ m = 12.

(** How the loop body treats a routine: [Ok None] when it is passed over
    (not weekly, or a start date that does not parse), the bounds of the
    expansion otherwise; a malformed end date raises. *)
Definition routine_window (r : routine) : result (option (date * option date)) :=
  if bool_decide (r_type r ≠ Some "weekly"%string) then Ok None
  else
    match from_date_str (r_start_date r) with
    | Raise _ => Ok None
    | Ok start => end_ ← routine_end r; Ok (Some (start, end_))
    end.

(** The occurrences of one routine in the month [(y, m)]. *)
Definition routine_part (y m : Z) (r : routine) : list event :=
  match routine_window r with
  | Ok (Some (start, end_)) => selected r start end_ (month_days y m)
  | _ => []
  end.

(** The identifier that the sentence "id = routine.id + ":" + d" of the
    specification describes. *)
Definition spec_routine_id (r : routine) (d : date) : string :=
  fmt_opt (r_id r) +:+ ":" +:+ to_date_str d.

(** The occurrences of a list that fall on the date text [ds]. *)
Definition on_date (ds : string) (l : list event) : list event :=
  filter (λ e, ev_date e = Some ds) l.

(** The test of the two scans of the month index: the date text is
    present, parses, and falls in the month. *)
Definition event_in_month (y m : Z) (e : event) : bool :=
  match from_date_str (ev_date e) with
  | Ok d => (year d =? y) && (month d =? m)
  | Raise _ => false
  end.

(** A record whose date field is present and parses. *)
Definition well_dated (e : event) : bool := is_ok (from_date_str (ev_date e)).

(** A date text that reads as a day of the month [(y, m)]. *)
Definition month_key (y m : Z) (ds : string) : Prop :=
  ∃ d, from_date_str (Some ds) = Ok d ∧ year d = y ∧ month d = m.

(** A date text of the month [(y, m)]: it reads as a day of the month, or
    it is what [to_date_str] writes for one. *)
Definition key_in_month (y m : Z) (ds : string) : Prop :=
  ∃ d, date_in_month y m d
       ∧ (from_date_str (Some ds) = Ok d ∨ ds = to_date_str d).

(** The list [events] of [events_map_for_month] before grouping. *)
Definition month_events (self : smart_calendar_app) (y m : Z) : list event :=
  filter (λ e, event_in_month y m e = true) (user_events self)
  ++ filter (λ e, event_in_month y m e = true) (ics_events_cache self)
  ++ routines self ≫= routine_part y m.


(** The order of the sort keys induced by [key_lt]: first components, then
    titles. *)
Definition key_le (a b : Z * string) : Prop :=
  a.1 < b.1 ∨ (a.1 = b.1 ∧ (a.2 ≤ b.2)%string).

Definition by_key (a b : event) : Prop := key_le (sort_key a) (sort_key b).

(** The order of the specification within a date: timed occurrences by
    time of day, all-day occurrences after every timed one, ties by
    title. *)
Definition minutes (t : Z * Z) : Z := t.1 * 60 + t.2.

Definition title_of (e : event) : string := default ""%string (ev_title e).

Definition spec_before (a b : event) : Prop :=
  match ev_time a, ev_time b with
  | Some ta, Some tb =>
      minutes ta < minutes tb
      ∨ (minutes ta = minutes tb ∧ (title_of a ≤ title_of b)%string)
  | Some _, None => True
  | None, Some _ => False
  | None, None => (title_of a ≤ title_of b)%string
  end.

Definition spec_sorted (l : list event) : Prop := StronglySorted spec_before l.

(** A time of day that the data model allows. *)
Definition valid_time (t : Z * Z) : Prop := 0 <= t.1 <= 23 ∧ 0 <= t.2 <= 59.

(** The occurrence at position [i] of the entry of [ds]. *)
Definition occurrence_at (idx : gmap string (list event)) (ds : string)
    (i : nat) (e : event) : Prop :=
  ∃ l, idx !! ds = Some l ∧ l !! i = Some e.

(** No two occurrences of an index share an id. *)
Definition ids_pairwise_distinct (idx : gmap string (list event)) : Prop :=
  ∀ ds1 i1 e1 ds2 i2 e2,
    occurrence_at idx ds1 i1 e1 → occurrence_at idx ds2 i2 e2 →
    ev_id e1 = ev_id e2 → ds1 = ds2 ∧ i1 = i2.

(** The dictionary [add_user_event_wizard] stores. *)
Definition user_event (id title ds : string) (tm : option (Z * Z)) : event :=
  {| ev_id := id;
     ev_title := Some title;
     ev_date := Some ds;
     ev_time := tm;
     ev_source := SrcUser;
     ev_meta := Meta None None;
     ev_color := SrcUser |}.

(** The scenario of the specification: an event at 14:00 titled "B" and an
    all-day event titled "A" on the same date. *)
Definition afternoon_B : event :=
  user_event "user:1710000000001" "B" "2024-03-10" (Some (14, 0)).
Definition all_day_A : event :=
  user_event "user:1710000000002" "A" "2024-03-10" None.

(** The same with the timed event at 17:00. *)
Definition evening_B : event :=
  user_event "user:1710000000003" "B" "2024-03-10" (Some (17, 0)).

(** Applications used as concrete inputs. *)
Definition scenario_app : smart_calendar_app := App [afternoon_B; all_day_A] [] [].
Definition evening_app : smart_calendar_app := App [evening_B; all_day_A] [] [].

(** A stored record without a date, and one whose date does not parse. *)
Definition undated : event :=
  {| ev_id := "user:1710000000004"; ev_title := Some "sem data"%string;
     ev_date := None; ev_time := None; ev_source := SrcUser;
     ev_meta := Meta None None; ev_color := SrcUser |}.
Definition misdated : event :=
  user_event "user:1710000000005" "data errada" "10/03/2024" None.
Definition untidy_app : smart_calendar_app :=
  App [undated; afternoon_B; misdated] [all_day_A] [gym].

(** ** Vocabulary of the statements about the feed client *)

(** The reading of "has an http or https scheme" of the specification: the
    text begins, whatever the case of its letters, with ["http://"] or
    ["https://"]. *)
Definition has_http_scheme (url : string) : bool :=
  Py.startswith (Py.lower url) "http://"
  || Py.startswith (Py.lower url) "https://".

(** What [add_source] tests. *)
Definition begins_with_http (url : option string) : bool :=
  Py.startswith (Py.lower (Py.strip (Py.or_else url ""))) "http".

(** A component whose processing raises: its start is the list of a
    repeated line, or an aware [datetime] that the conversion to local
    time refuses. *)
Definition component_raises (w : env) (comp : component) : bool :=
  match c_dtstart comp with
  | Some DtList => true
  | Some (DtProp (VDatetime v)) =>
      match dt_tzinfo v with
      | Some _ => negb (is_ok (astimezone w v))
      | None => false
      end
  | _ => false
  end.




(** The occurrence that the feed [url] publishes for a component: the
    summary as title (["Evento"] without one), the local date and time of
    the start, the link of the component, the feed it came from. *)
Definition occurrence_of (w : env) (url : string) (comp : component)
    (ev : event) : Prop :=
  ∃ v d tm,
    c_dtstart comp = Some (DtProp v)
    ∧ dt_to_local_date_time w v = Ok (d, tm)
    ∧ ev_title ev = Some (Py.or_else (c_summary comp) "Evento")
    ∧ ev_date ev = Some (to_date_str d)
    ∧ ev_time ev = tm
    ∧ ev_source ev = SrcIcs
    ∧ ev_meta ev = Meta (component_link comp) (Some url).


(** A client with two sources, and networks where one of them fails. *)
Definition two_sources : ics_client :=
  ics_client_init (Some ["https://a.example/cal.ics"%string;
                         "https://b.example/cal.ics"%string]).

Definition meeting : component :=
  {| c_uid := Some "evt-1@b.example"%string;
     c_summary := Some "Reuniao"%string;
     c_dtstart := Some (DtProp (VDatetime (Datetime (Date 2024 1 15) 9 30 None)));
     c_url := None;
     c_description := Some "sala: https://meet.example/r/42 (link)"%string |}.

Definition holiday : component :=
  {| c_uid := None;
     c_summary := None;
     c_dtstart := Some (DtProp (VDate (Date 2024 1 25)));
     c_url := Some "https://b.example/feriado"%string;
     c_description := None |}.

(** A component whose start decodes to a duration. *)
Definition odd_start : component :=
  {| c_uid := Some "evt-2@b.example"%string;
     c_summary := Some "Duracao"%string;
     c_dtstart := Some (DtProp VOther);
     c_url := None;
     c_description := None |}.

(** A component whose start line is repeated. *)
Definition repeated_start : component :=
  {| c_uid := Some "evt-3@b.example"%string;
     c_summary := Some "Duas datas"%string;
     c_dtstart := Some DtList;
     c_url := None;
     c_description := None |}.

(** A component that starts in the last hour of the calendar, five hours
    west of Greenwich. *)
Definition last_hour : component :=
  {| c_uid := Some "evt-4@b.example"%string;
     c_summary := Some "Fim"%string;
     c_dtstart :=
       Some (DtProp (VDatetime (Datetime (Date 9999 12 31) 23 0 (Some (-300)))));
     c_url := None;
     c_description := None |}.

(** The first source is unreachable, the second serves [comps]. *)
Definition second_only (comps : list component) (day : date) : env :=
  {| http_get := λ i _, match i with 1%nat => Calendar comps | _ => ConnectionFailed end;
     astimezone := λ v, Ok v;
     today := day |}.

(** One source serving twice the same UID. *)
Definition one_source : ics_client :=
  ics_client_init (Some ["https://b.example/cal.ics"%string]).

Definition rescheduled : component :=
  {| c_uid := Some "evt-1@b.example"%string;
     c_summary := Some "Reuniao (nova data)"%string;
     c_dtstart := Some (DtProp (VDatetime (Datetime (Date 2024 1 16) 9 30 None)));
     c_url := None;
     c_description := None |}.

Definition serving (comps : list component) (day : date) : env :=
  {| http_get := λ _ _, Calendar comps;
     astimezone := λ v, Ok v;
     today := day |}.

(** A feed served to a machine east of its time zone: the local time of
    the last day of the calendar falls outside it. *)
Definition serving_east (comps : list component) (day : date) : env :=
  {| http_get := λ _ _, Calendar comps;
     astimezone := λ v,
       if bool_decide (dt_date v = Date 9999 12 31) then Raise OverflowError
       else Ok v;
     today := day |}.


(** The text of a routine's id as the occurrence ids carry it. *)
Definition routine_id_text (r : routine) : string := fmt_opt (r_id r).

(** A cache filled by a feed that serves one UID twice. *)
Definition twice_served : smart_calendar_app :=
  App []
      (get_events
         (fetch_all (serving [meeting; rescheduled] (Date 2024 1 10)) one_source))
      [].

(** ** Proof automation *)

(** Linear arithmetic with division and remainder by constants. *)
Ltac divlia := Z.to_euclidean_division_equations; lia.

(** Case analysis on the comparisons of the goal. *)
Ltac case_ltb :=
  repeat match goal with
         | |- context [?a <? ?b] => destruct (Z.ltb_spec0 a b)
         end.

(** Case analysis on an integer that the context bounds. *)
Ltac small_Z d :=
  destruct d as [|d|d]; try lia; repeat (destruct d as [d|d|]; try lia).

(** * The rest of the program

    The helpers at the top of [app.py] that the engine does not call, the
    wizards that fill the stores, the selection and navigation of the
    window, and the grid of the month. *)

(** ** More of Python *)

(** [s.split(c)] for a separator of one character: the pieces between
    the occurrences of [c], empty pieces included. *)
Fixpoint split_on (c : ascii) (s : string) : list string :=
  match s with
  | EmptyString => [EmptyString]
  | String a r =>
      if decide (a = c) then EmptyString :: split_on c r
      else match split_on c r with
           | piece :: rest => String a piece :: rest
           | [] => [String a EmptyString]
           end
  end.

(** The white space of the C locale, which [int] skips around an ASCII
    text: tab, line feed, vertical tab, form feed, carriage return and
    space. *)
Definition c_isspace (c : ascii) : bool :=
  let n := Z.of_N (N_of_ascii c) in
  ((9 <=? n) && (n <=? 13)) || (n =? 32).

Fixpoint skip_c_space (s : string) : string :=
  match s with
  | EmptyString => EmptyString
  | String c r => if c_isspace c then skip_c_space r else s
  end.

(** The run of digits and underscores that [int] reads in base 10: the
    value, the number of digits, whether the last character read was an
    underscore, and the text after the run.  [None] when two underscores
    follow each other. *)
Fixpoint scan_digits (prev_underscore : bool) (value : Z) (digits : nat)
    (s : string) : option (Z * nat * bool * string) :=
  match s with
  | EmptyString => Some (value, digits, prev_underscore, EmptyString)
  | String c r =>
      if decide (c = "_"%char)
      then if prev_underscore then None
           else scan_digits true value digits r
      else match Py.digit_val c with
           | Some d => scan_digits false (10 * value + d) (S digits) r
           | None => Some (value, digits, prev_underscore, s)
           end
  end.

(** Below this number of digits [int] does not consult the limit of the
    interpreter. *)
Definition max_str_digits_threshold : nat := 640.

(** [int(s)] in base 10.  [max_str_digits] is the limit of the interpreter
    on the number of digits ([sys.get_int_max_str_digits()], 4300 unless
    changed, 0 for none; interpreters before the limit behave as with
    0). *)
Definition py_int (max_str_digits : nat) (s : string) : result Z :=
  let s := skip_c_space s in
  let '(negative, s) :=
    match s with
    | String "+" r => (false, r)
    | String "-" r => (true, r)
    | _ => (false, s)
    end in
  match s with
  | String "_" _ => Raise ValueError
  | _ =>
      match scan_digits false 0 0 s with
      | None => Raise ValueError
      | Some (value, digits, last_underscore, rest) =>
          if last_underscore then Raise ValueError
          else if Nat.eqb digits 0 then Raise ValueError
          else if Py.truthy (skip_c_space rest) then Raise ValueError
          else if (max_str_digits_threshold <? digits)%nat
                  && (0 <? max_str_digits)%nat
                  && (max_str_digits <? digits)%nat
               then Raise ValueError
          else Ok (if negative then - value else value)
      end
  end.

(** [f"{n:02d}"]: at least two characters, the sign counted. *)
Definition fmt_02d (n : Z) : string :=
  if (0 <=? n) && (n <? 10) then "0" +:+ pretty n else pretty n.

(** ** The helpers *)

(** [parse_time_hhmm] *)
Definition parse_time_hhmm (max_str_digits : nat) (s : option string)
    : option (Z * Z) :=
  match s with
  | None => None
  | Some s =>
      if negb (Py.truthy s) then None
      else
        match split_on ":" (Py.strip s) with
        | [a; b] =>
            match py_int max_str_digits a with
            | Raise _ => None
            | Ok h =>
                match py_int max_str_digits b with
                | Raise _ => None
                | Ok m =>
                    if (0 <=? h) && (h <=? 23) && (0 <=? m) && (m <=? 59)
                    then Some (h, m)
                    else None
                end
            end
        | _ => None
        end
  end.

(** [to_time_str] *)
Definition to_time_str (hm : option (Z * Z)) : string :=
  match hm with
  | None => EmptyString
  | Some (h, m) => fmt_02d h +:+ ":" +:+ fmt_02d m
  end.

(** [clamp] *)
Definition clamp (n lo hi : Z) : Z := Z.max lo (Z.min hi n).

(** [join_nonempty] *)
Definition join_nonempty (items : list string) : string :=
  String.concat " - " (filter (λ x, Py.truthy x = true) items).

(** The dictionary of [parse_weekdays]. *)
Definition weekday_mapping : gmap string Z :=
  list_to_map
    [ ("seg", 0); ("segunda", 0);
      ("ter", 1); ("terça", 1); ("terca", 1);
      ("qua", 2); ("quarta", 2);
      ("qui", 3); ("quinta", 3);
      ("sex", 4); ("sexta", 4);
      ("sab", 5); ("sábado", 5); ("sabado", 5);
      ("dom", 6); ("domingo", 6) ]%string.

(** The loop of [parse_weekdays] over the parts. *)
Fixpoint weekday_indices (parts : list string) (out : list Z)
    : option (list Z) :=
  match parts with
  | [] => Some out
  | p :: rest =>
      match weekday_mapping !! p with
      | None => None
      | Some idx =>
          weekday_indices rest
            (if bool_decide (idx ∉ out) then out ++ [idx] else out)
      end
  end.

(** [parse_weekdays]; [sorted] on integers is any sort. *)
Definition parse_weekdays (s : option string) : option (list Z) :=
  let s := Py.lower (Py.strip (Py.or_else s "")) in
  if decide (s = "todos"%string) then Some [0; 1; 2; 3; 4; 5; 6]
  else
    let parts :=
      Py.strip <$> filter (λ p, Py.truthy (Py.strip p) = true) (split_on "," s) in
    out ← weekday_indices parts [];
    Some (merge_sort Z.le out).

(** The number of occurrences of a character in a text. *)
Fixpoint count_char (c : ascii) (s : string) : nat :=
  match s with
  | EmptyString => 0
  | String a r => ((if decide (a = c) then 1 else 0) + count_char c r)%nat
  end.

(** The names that [parse_weekdays] looks up, when the answer is not
    ["todos"]. *)
Definition weekday_parts (s : option string) : list string :=
  Py.strip <$>
    filter (λ p, Py.truthy (Py.strip p) = true)
      (split_on "," (Py.lower (Py.strip (Py.or_else s "")))).

(** The answer, trimmed and in lower case, is the word for every day. *)
Definition is_todos (s : option string) : Prop :=
  Py.lower (Py.strip (Py.or_else s "")) = "todos"%string.

(** ** The wizards

    A wizard asks its questions one after the other; an answer is [None]
    when the prompt was left with Esc.  A wizard returns the application
    and the message it showed with [self.info], if any. *)

Record event_answers : Type := EventAnswers {
  ea_title : option string;
  ea_date : option string;
  ea_time : option string;
}.

(** Blank: [not s.strip()]. *)
Definition blank (s : string) : bool := negb (Py.truthy (Py.strip s)).

(** [add_user_event_wizard]; [now_ms] is [int(time.time()*1000)]. *)
Definition add_user_event_wizard (max_str_digits : nat) (now_ms : Z)
    (self : smart_calendar_app) (a : event_answers)
    : smart_calendar_app * option string :=
  match ea_title a with
  | None => (self, None)
  | Some title =>
      if blank title then (self, None)
      else
        match ea_date a with
        | None => (self, None)
        | Some date_str =>
            match from_date_str (Some date_str) with
            | Raise _ => (self, Some "Data inválida."%string)
            | Ok d =>
                match ea_time a with
                | None => (self, None)
                | Some time_str =>
                    let tm :=
                      if negb (blank time_str)
                      then parse_time_hhmm max_str_digits (Some time_str)
                      else None in
                    let eid := "user:" +:+ pretty now_ms in
                    let ev := user_event eid (Py.strip title) (to_date_str d) tm in
                    (App (user_events self ++ [ev]) (ics_events_cache self)
                       (routines self),
                     None)
                end
            end
        end
  end.

Record routine_answers : Type := RoutineAnswers {
  ra_title : option string;
  ra_days : option string;
  ra_time : option string;
  ra_start : option string;
  ra_end : option string;
}.

(** The end date of the routine wizard: [Ok None] when the answer is
    missing or blank, the date of the trimmed answer otherwise. *)
Definition wizard_end (end_str : option string) : result (option date) :=
  match end_str with
  | Some s =>
      if Py.truthy s && Py.truthy (Py.strip s)
      then d ← from_date_str (Some (Py.strip s)); Ok (Some d)
      else Ok None
  | None => Ok None
  end.

(** [add_routine_wizard] *)
Definition add_routine_wizard (max_str_digits : nat) (now_ms : Z)
    (self : smart_calendar_app) (a : routine_answers)
    : smart_calendar_app * option string :=
  match ra_title a with
  | None => (self, None)
  | Some title =>
      if blank title then (self, None)
      else
        match ra_days a with
        | None => (self, None)
        | Some days_str =>
            match parse_weekdays (Some days_str) with
            | None | Some [] => (self, Some "Dias inválidos."%string)
            | Some days_idx =>
                match parse_time_hhmm max_str_digits
                        (Some (Py.or_else (ra_time a) "")) with
                | None => (self, Some "Hora inválida."%string)
                | Some tm =>
                    match ra_start a with
                    | None => (self, None)
                    | Some start_str =>
                        match from_date_str (Some start_str) with
                        | Raise _ => (self, Some "Data inicial inválida."%string)
                        | Ok start_date =>
                            match wizard_end (ra_end a) with
                            | Raise _ => (self, Some "Data final inválida."%string)
                            | Ok end_date =>
                                let rid := "routine:" +:+ pretty now_ms in
                                let r :=
                                  {| r_id := Some rid;
                                     r_title := Some (Py.strip title);
                                     r_type := Some "weekly"%string;
                                     r_days_of_week := days_idx;
                                     r_time := Some tm;
                                     r_start_date := Some (to_date_str start_date);
                                     r_end_date := to_date_str <$> end_date |} in
                                (App (user_events self) (ics_events_cache self)
                                   (routines self ++ [r]),
                                 None)
                            end
                        end
                    end
                end
            end
        end
  end.



(** A stored routine that stops the month index: it is weekly, its start
    date parses, and its end date is a text that is not empty and does
    not parse. *)
Definition end_does_not_parse (r : routine) : Prop :=
  r_type r = Some "weekly"%string
  ∧ is_ok (from_date_str (r_start_date r)) = true
  ∧ ∃ s, r_end_date r = Some s ∧ s ≠ ""%string
         ∧ is_ok (from_date_str (Some s)) = false.


(** ** The window

    The fields of [SmartCalendarApp] that the keys and the mouse change,
    around the stores. *)

(** What the code of the window can raise: [IndexError], or what the
    engine raises. *)
Inductive failure : Type :=
| IndexError
| Engine (e : exn).

Inductive outcome (A : Type) : Type :=
| Done (a : A)
| Fail (f : failure).
Arguments Done {A} a.
Arguments Fail {A} f.

Record window : Type := Window {
  data : smart_calendar_app;
  view_year : Z;
  view_month : Z;
  selected_date : date;
  events_for_selected : list event;
  selected_event_index : Z;
}.

(** [l[i]]: a negative index counts from the end. *)
Definition getitem {A} (l : list A) (i : Z) : outcome A :=
  let n := Z.of_nat (length l) in
  let j := if i <? 0 then i + n else i in
  if (0 <=? j) && (j <? n)
  then match l !! Z.to_nat j with
       | Some x => Done x
       | None => Fail IndexError
       end
  else Fail IndexError.

Definition with_index (w : window) (i : Z) : window :=
  Window (data w) (view_year w) (view_month w) (selected_date w)
    (events_for_selected w) i.

(** [max(0, len(self.events_for_selected) - 1)] *)
Definition last_index (w : window) : Z :=
  Z.max 0 (Z.of_nat (length (events_for_selected w)) - 1).

(** The keys PageUp and PageDown and the wheel of the mouse, in [run]. *)
Definition key_pageup (w : window) : window :=
  with_index w (Z.max 0 (selected_event_index w - 5)).

Definition key_pagedown (w : window) : window :=
  with_index w (Z.min (last_index w) (selected_event_index w + 5)).

Definition wheel_up (w : window) : window :=
  with_index w (Z.max 0 (selected_event_index w - 1)).

Definition wheel_down (w : window) : window :=
  with_index w (Z.min (last_index w) (selected_event_index w + 1)).

(** The branch of [handle_click] for a click in the panel; [hit] is what
    [event_index_at_position] returned. *)
Definition click_panel (w : window) (hit : option Z) : window :=
  match hit with
  | Some idx =>
      if (0 <=? idx) && (idx <? Z.of_nat (length (events_for_selected w)))
      then with_index w idx
      else w
  | None => w
  end.

(** The end of [draw_calendar]: the list of the selected date is read
    again and the index is clamped. *)
Definition refresh_selection (w : window) : outcome window :=
  match events_for_date (data w) (selected_date w) with
  | Raise e => Fail (Engine e)
  | Ok l =>
      Done (Window (data w) (view_year w) (view_month w) (selected_date w) l
              (clamp (selected_event_index w) 0
                 (Z.max 0 (Z.of_nat (length l) - 1))))
  end.

(** [delete_selected_if_user_event]: the window after and the message
    shown, if any. *)
Definition delete_selected_if_user_event (w : window)
    : outcome (window * option string) :=
  match events_for_selected w with
  | [] => Done (w, None)
  | _ :: _ =>
      match getitem (events_for_selected w) (selected_event_index w) with
      | Fail f => Fail f
      | Done ev =>
          if bool_decide (ev_source ev ≠ SrcUser)
          then Done (w, Some "Apenas eventos manuais podem ser excluídos."%string)
          else
            let eid := ev_id ev in
            let kept := filter (λ e, ev_id e ≠ eid) (user_events (data w)) in
            Done (Window (App kept (ics_events_cache (data w)) (routines (data w)))
                    (view_year w) (view_month w) (selected_date w)
                    (events_for_selected w) (selected_event_index w),
                  Some "Evento excluído."%string)
      end
  end.

(** [open_selected_link]: the link handed to the browser, if any. *)
Definition open_selected_link (w : window) : outcome (option string) :=
  match events_for_selected w with
  | [] => Done None
  | _ :: _ =>
      match getitem (events_for_selected w) (selected_event_index w) with
      | Fail f => Fail f
      | Done ev =>
          match link (ev_meta ev) with
          | Some l => Done (if Py.truthy l then Some l else None)
          | None => Done None
          end
      end
  end.

(** The index of the selection is within the list, or 0 when the list is
    empty. *)
Definition selection_in_range (w : window) : Prop :=
  0 <= selected_event_index w <= last_index w.

(** A window on the scenario of the specification, the all-day event
    selected. *)
Definition scenario_window : window :=
  Window scenario_app 2024 3 (Date 2024 3 10) [afternoon_B; all_day_A] 1.

(** ** Navigation between months *)

(** [while m < 1: m += 12; y -= 1].  The fuel bounds the number of tests
    of the condition; [change_month] gives enough of it. *)
Fixpoint wrap_up (fuel : nat) (m y : Z) : result (Z * Z) :=
  match fuel with
  | O => Raise Exhausted
  | S fuel' => if m <? 1 then wrap_up fuel' (m + 12) (y - 1) else Ok (m, y)
  end.

(** [while m > 12: m -= 12; y += 1] *)
Fixpoint wrap_down (fuel : nat) (m y : Z) : result (Z * Z) :=
  match fuel with
  | O => Raise Exhausted
  | S fuel' => if 12 <? m then wrap_down fuel' (m - 12) (y + 1) else Ok (m, y)
  end.

Definition with_view (w : window) (y m : Z) : window :=
  Window (data w) y m (selected_date w) (events_for_selected w)
    (selected_event_index w).

(** [change_month] *)
Definition change_month (delta : Z) (w : window) : result window :=
  let m := view_month w + delta in
  let y := view_year w in
  let fuel := (Z.to_nat (Z.abs m) + 2)%nat in
  '(m, y) ← wrap_up fuel m y;
  '(m, y) ← wrap_down fuel m y;
  Ok (with_view w y m).

(** [change_year] *)
Definition change_year (delta : Z) (w : window) : window :=
  with_view w (view_year w + delta) (view_month w).

(** [go_today]; [day] is [dt.date.today()]. *)
Definition go_today (day : date) (w : window) : window :=
  Window (data w) (year day) (month day) day (events_for_selected w)
    (selected_event_index w).

(** ** The grid of the month *)

(** [calendar.weekday(y, m, 1)]: outside the years of [datetime.date] the
    year is taken in the cycle of 400 years. *)
Definition calendar_weekday (y m d : Z) : Z :=
  let y := if (MINYEAR <=? y) && (y <=? MAXYEAR) then y else 2000 + y mod 400 in
  weekday (Date y m d).

Definition prevmonth (y m : Z) : Z * Z :=
  if m =? 1 then (y - 1, 12) else (y, m - 1).

Definition nextmonth (y m : Z) : Z * Z :=
  if m =? 12 then (y + 1, 1) else (y, m + 1).

(** The days a week of the grid shows before the first of the month and
    after its last day, for weeks that begin on Monday. *)
Definition days_before (y m : Z) : Z := (calendar_weekday y m 1 - 0) mod 7.

Definition days_after (y m : Z) : Z :=
  (0 - calendar_weekday y m 1 - days_in_month y m) mod 7.

(** [Calendar(firstweekday=0).itermonthdays3(y, m)], for a month between 1
    and 12. *)
Definition itermonthdays3 (y m : Z) : list (Z * Z * Z) :=
  let '(py, pm) := prevmonth y m in
  let end_ := days_in_month py pm + 1 in
  let '(ny, nm) := nextmonth y m in
  ((λ d, (py, pm, d)) <$> seqZ (end_ - days_before y m) (days_before y m))
  ++ ((λ d, (y, m, d)) <$> seqZ 1 (days_in_month y m))
  ++ ((λ d, (ny, nm, d)) <$> seqZ 1 (days_after y m)).

(** [datetime.date] of each triple, in order. *)
Fixpoint dates_of (triples : list (Z * Z * Z)) : result (list date) :=
  match triples with
  | [] => Ok []
  | (y, m, d) :: rest =>
      x ← date_new y m d;
      xs ← dates_of rest;
      Ok (x :: xs)
  end.

(** [list(Calendar(firstweekday=0).itermonthdates(y, m))]: the dates of
    the weeks of the month, only the weeks the month needs.  A month
    outside 1..12 is refused ([IllegalMonthError], a [ValueError]). *)
Definition itermonthdates (y m : Z) : result (list date) :=
  if (1 <=? m) && (m <=? 12) then dates_of (itermonthdays3 y m)
  else Raise ValueError.

(** [pygame.Rect(x, y, w, h)] *)
Record rect : Type := Rect { rx : Z; ry : Z; rw : Z; rh : Z }.

Global Instance rect_eq_dec : EqDecision rect.
Proof. solve_decision. Defined.

(** [r.collidepoint(p)]: the right and bottom edges are outside. *)
Definition collidepoint (r : rect) (p : Z * Z) : bool :=
  (rx r <=? p.1) && (p.1 <? rx r + rw r)
  && (ry r <=? p.2) && (p.2 <? ry r + rh r).

(** A cell of the grid: its rectangle, its row and column, and its date
    when the date is of the month shown. *)
Record cell : Type := Cell {
  cell_rect : rect;
  cell_pos : Z * Z;
  cell_date : option date;
}.

Global Instance cell_eq_dec : EqDecision cell.
Proof. solve_decision. Defined.

(** The body of the two nested loops of [calendar_grid], for the row [r]
    and column [c], [idx] being [7 * r + c]. *)
Definition grid_cell (area : rect) (day_w day_h : Z) (shown_month : Z)
    (month_dates : list date) (r c : Z) : outcome cell :=
  let padding := 20 in
  let header_h := 100 in
  let row_y := ry area + header_h in
  let x := rx area + padding + c * day_w in
  let y := row_y + (r + 1) * day_h in
  let crect := Rect x y (day_w - 6) (day_h - 6) in
  match getitem month_dates (7 * r + c) with
  | Fail f => Fail f
  | Done d =>
      Done (Cell crect (r, c)
              (if month d =? shown_month then Some d else None))
  end.

Fixpoint grid_cells (area : rect) (day_w day_h : Z) (shown_month : Z)
    (month_dates : list date) (positions : list (Z * Z))
    : outcome (list cell) :=
  match positions with
  | [] => Done []
  | (r, c) :: rest =>
      match grid_cell area day_w day_h shown_month month_dates r c with
      | Fail f => Fail f
      | Done x =>
          match grid_cells area day_w day_h shown_month month_dates rest with
          | Fail f => Fail f
          | Done xs => Done (x :: xs)
          end
      end
  end.

(** [for r in range(6): for c in range(7)] *)
Definition grid_positions : list (Z * Z) :=
  r ← seqZ 0 6; c ← seqZ 0 7; [(r, c)].

(** [calendar_grid]: the rectangle of the heading, the width and height
    of a day, and the 42 cells. *)
Definition calendar_grid (w : window) (area : rect)
    : outcome (rect * Z * Z * list cell) :=
  let padding := 20 in
  let header_h := 100 in
  let week_h := (rh area - header_h - padding * 2) / 7 in
  let day_h := week_h in
  let day_w := (rw area - padding * 2) / 7 in
  let head_rect :=
    Rect (rx area + padding) (ry area + padding) (rw area - 2 * padding)
      (header_h - padding) in
  match itermonthdates (view_year w) (view_month w) with
  | Raise e => Fail (Engine e)
  | Ok month_dates =>
      match grid_cells area day_w day_h (view_month w) month_dates
              grid_positions with
      | Fail f => Fail f
      | Done cells => Done (head_rect, day_w, day_h, cells)
      end
  end.

(** The loop of [day_at_position] over the cells. *)
Fixpoint first_day_at (cells : list cell) (shown_month : Z) (p : Z * Z)
    : option Z :=
  match cells with
  | [] => None
  | x :: rest =>
      match cell_date x with
      | Some d =>
          if collidepoint (cell_rect x) p && (month d =? shown_month)
          then Some (day d)
          else first_day_at rest shown_month p
      | None => first_day_at rest shown_month p
      end
  end.

(** [day_at_position] *)
Definition day_at_position (w : window) (p : Z * Z) (area : rect)
    : outcome (option Z) :=
  match calendar_grid w area with
  | Fail f => Fail f
  | Done (_, _, _, cells) => Done (first_day_at cells (view_month w) p)
  end.

(** The branch of [handle_click] for a click in the calendar. *)
Definition click_calendar (w : window) (p : Z * Z) (area : rect)
    : outcome window :=
  match day_at_position w p area with
  | Fail f => Fail f
  | Done None => Done w
  | Done (Some day) =>
      if day =? 0 then Done w
      else
        match date_new (view_year w) (view_month w) day with
        | Raise e => Fail (Engine e)
        | Ok d =>
            Done (Window (data w) (view_year w) (view_month w) d
                    (events_for_selected w) 0)
        end
  end.

(** A month whose weeks, begun on Monday, are six. *)
Definition six_weeks (y m : Z) : Prop :=
  35 < weekday (Date y m 1) + days_in_month y m.

(** The window of the scenario turned to November 2026, a month of six
    weeks, and to January 2024, a month of five; the area of the calendar
    in a window of 1200 by 800. *)
Definition november_window : window := with_view scenario_window 2026 11.

Definition january_window : window := with_view scenario_window 2024 1.

Definition calendar_area : rect := Rect 0 0 840 800.

(** The cells of a built grid. *)
Definition grid_cells_of (g : outcome (rect * Z * Z * list cell)) : list cell :=
  match g with
  | Done (_, _, _, cells) => cells
  | Fail _ => []
  end.

(** ** The rows of the panel *)

(** [r.bottom] *)
Definition rect_bottom (r : rect) : Z := ry r + rh r.

(** The rectangle of the list, in [draw_panel] and in
    [event_index_at_position]. *)
Definition list_rect (panel : rect) : rect :=
  let y := ry panel + 100 in
  Rect (rx panel + 10) y (rw panel - 20) (rh panel - y - 10).

(** The loop of [event_index_at_position] from the row at height [y2],
    the [i]-th. *)
Fixpoint hit_rows (lr : rect) (y2 i : Z) (evs : list event) (p : Z * Z)
    : option Z :=
  match evs with
  | [] => None
  | _ :: rest =>
      let inner_pad := 10 in
      let row_rect := Rect (rx lr + inner_pad) y2 (rw lr - 2 * inner_pad) 70 in
      if collidepoint row_rect p then Some i
      else
        let y2 := y2 + (rh row_rect + 8) in
        if rect_bottom lr - inner_pad <? y2 then None
        else hit_rows lr y2 (i + 1) rest p
  end.

(** [event_index_at_position] *)
Definition event_index_at_position (w : window) (p : Z * Z) (panel : rect)
    : option Z :=
  let lr := list_rect panel in
  hit_rows lr (ry lr + 10) 0 (events_for_selected w) p.

(** The rectangles of the rows that the loop of [draw_panel] fills, in
    order. *)
Fixpoint drawn_rows (lr : rect) (y2 : Z) (evs : list event) : list rect :=
  match evs with
  | [] => []
  | _ :: rest =>
      let inner_pad := 10 in
      let row_rect := Rect (rx lr + inner_pad) y2 (rw lr - 2 * inner_pad) 70 in
      let y2 := y2 + (rh row_rect + 8) in
      row_rect
      :: (if rect_bottom lr - inner_pad <? y2 then []
          else drawn_rows lr y2 rest)
  end.

Definition panel_rows (w : window) (panel : rect) : list rect :=
  let lr := list_rect panel in
  drawn_rows lr (ry lr + 10) (events_for_selected w).

(** [handle_click], given the two rectangles of [layout_rects]. *)
Definition handle_click (w : window) (p : Z * Z) (cal_rect panel_rect : rect)
    : outcome window :=
  if collidepoint cal_rect p then click_calendar w p cal_rect
  else if collidepoint panel_rect p
  then Done (click_panel w (event_index_at_position w p panel_rect))
  else Done w.

(** The panel of a window of 1200 by 800. *)
Definition panel_area : rect := Rect 840 0 360 800.

(** ** Statements about the feed client *)

(** A text without white space. *)
Definition no_white_space (s : string) : bool :=
  forallb (λ c, negb (Py.isspace c)) (list_ascii_of_string s).

(** The text [l] stands in [s], between [a] and [b], and runs to the end
    of [s] or to a white space. *)
Definition run_in (s a l b : string) : Prop :=
  s = (a +:+ l +:+ b)%string
  ∧ (b = EmptyString ∨ ∃ c b', b = String c b' ∧ Py.isspace c = true).

(** The occurrence of [meeting] served by the only source. *)
Definition meeting_occurrence : event :=
  {| ev_id := "ics:0:evt-1@b.example";
     ev_title := Some "Reuniao"%string;
     ev_date := Some "2024-01-15"%string;
     ev_time := Some (9, 30);
     ev_source := SrcIcs;
     ev_meta := Meta (Some "https://meet.example/r/42"%string)
                  (Some "https://b.example/cal.ics"%string);
     ev_color := SrcIcs |}.

(** A stored record whose date is written without the zeros. *)
Definition short_dated : event :=
  user_event "user:1710000000006" "sem zeros" "2024-3-10" None.

Definition short_dated_app : smart_calendar_app :=
  App [short_dated; afternoon_B] [] [].

(** Two stored records with the same time and title, and a third
    between them in the order of the keys. *)
Definition class_second : event :=
  user_event "user:1710000000008" "Aula" "2024-03-10" (Some (9, 0)).
Definition class_first : event :=
  user_event "user:1710000000007" "Aula" "2024-03-10" (Some (9, 0)).
Definition tied_app : smart_calendar_app :=
  App [class_second; all_day_A; class_first] [] [].

(** The exception of [dt.date(year, month, 1)] for a year or month
    outside [datetime.date]. *)
Definition month_exn (y m : Z) : exn :=
  if c_int y && c_int m then ValueError else OverflowError.

Example from_date_str_plain :
  from_date_str (Some "2024-01-15"%string) = Ok (Date 2024 1 15).
Proof. reflexivity. Qed.

Example from_date_str_short_fields :
  from_date_str (Some "2024-1-5"%string) = Ok (Date 2024 1 5).
Proof. reflexivity. Qed.

Example from_date_str_bad :
  from_date_str (Some "2024-02-30"%string) = Raise ValueError
  ∧ from_date_str (Some "2024-13-01"%string) = Raise ValueError
  ∧ from_date_str (Some "2024-01-011"%string) = Raise ValueError
  ∧ from_date_str (Some "amanha"%string) = Raise ValueError.
Proof. repeat split; reflexivity. Qed.

Example to_date_str_pads :
  to_date_str (Date 2024 1 5) = "2024-01-05"%string.
Proof. reflexivity. Qed.

Example to_date_str_before_1000 :
  to_date_str (Date 999 1 7) = "999-01-07"%string
  ∧ to_date_str (Date 5 12 25) = "5-12-25"%string
  ∧ to_date_str (Date 1000 1 7) = "1000-01-07"%string
  ∧ from_date_str (Some "999-01-07"%string) = Raise ValueError
  ∧ from_date_str (Some "0999-01-07"%string) = Ok (Date 999 1 7).
Proof. repeat split; reflexivity. Qed.

Example date_new_errors :
  date_new 2024 13 1 = Raise ValueError
  ∧ date_new 0 1 1 = Raise ValueError
  ∧ date_new (2 ^ 31 - 1) 1 1 = Raise ValueError
  ∧ date_new (2 ^ 31) 1 1 = Raise OverflowError
  ∧ date_new 1 1 (2 ^ 31) = Raise OverflowError
  ∧ date_new (- 2 ^ 31 - 1) 1 1 = Raise OverflowError.
Proof. repeat split; reflexivity. Qed.

Example weekday_known :
  weekday (Date 2024 1 1) = 0 ∧ weekday (Date 2024 2 29) = 3
  ∧ weekday (Date 1 1 1) = 0 ∧ weekday (Date 9999 12 31) = 4.
Proof. repeat split; reflexivity. Qed.

Example gym_january_2024 :
  (λ o, (ev_date o, ev_time o)) <$>
    try_except (expand_routines_for_month [gym] 2024 1) [] =
  [ (Some "2024-01-01"%string, Some (7, 0));
    (Some "2024-01-08"%string, Some (7, 0));
    (Some "2024-01-15"%string, Some (7, 0));
    (Some "2024-01-22"%string, Some (7, 0));
    (Some "2024-01-29"%string, Some (7, 0)) ].
Proof. vm_compute. reflexivity. Qed.

Example december_9999_overflows :
  expand_routines_for_month [gym] 9999 12 = Raise OverflowError.
Proof. vm_compute. reflexivity. Qed.

Example month_13_is_refused :
  expand_routines_for_month [gym] 2024 13 = Raise ValueError.
Proof. vm_compute. reflexivity. Qed.

(** * Properties *)

(** ** Dates and their text *)

Lemma digit_val_digit_char (k : Z) :
  0 <= k <= 9 → Py.digit_val (Py.digit_char k) = Some k.
Proof.
  intros Hk.
  assert (Hc : k = 0 ∨ k = 1 ∨ k = 2 ∨ k = 3 ∨ k = 4 ∨ k = 5 ∨ k = 6
               ∨ k = 7 ∨ k = 8 ∨ k = 9) by lia.
  repeat (destruct Hc as [-> | Hc]; [reflexivity |]).
  subst k. reflexivity.
Qed.

Lemma re_digit_digit_char {A} lo hi (k : Z → string → option A) v rest :
  0 <= v <= 9 → lo <= v <= hi →
  re_digit lo hi k (String (Py.digit_char v) rest) = k v rest.
Proof.
  intros Hv Hr. unfold re_digit, digit_in.
  rewrite digit_val_digit_char by done.
  replace ((lo <=? v) && (v <=? hi)) with true; [done |].
  symmetry. apply andb_true_iff. split; apply Z.leb_le; lia.
Qed.

Lemma re_Y_pad4 {A} (k : Z → string → option A) y rest :
  0 <= y <= 9999 → re_Y k (Py.pad4 y +:+ rest) = k y rest.
Proof.
  intros Hy. unfold re_Y, Py.pad4. cbv [String.append].
  rewrite !re_digit_digit_char by divlia.
  f_equal. divlia.
Qed.

Lemma re_m_pad2 {A} (k : Z → string → option A) m rest v :
  1 <= m <= 12 → k m rest = Some v → re_m k (Py.pad2 m +:+ rest) = Some v.
Proof.
  intros Hm Hk.
  assert (Hc : m = 1 ∨ m = 2 ∨ m = 3 ∨ m = 4 ∨ m = 5 ∨ m = 6 ∨ m = 7
               ∨ m = 8 ∨ m = 9 ∨ m = 10 ∨ m = 11 ∨ m = 12) by lia.
  repeat (destruct Hc as [-> | Hc]; [vm_compute in Hk |- *; by rewrite Hk |]).
  subst m. vm_compute in Hk |- *. by rewrite Hk.
Qed.

Lemma re_d_pad2 {A} (k : Z → string → option A) d rest v :
  1 <= d <= 31 → k d rest = Some v → re_d k (Py.pad2 d +:+ rest) = Some v.
Proof.
  intros Hd Hk. small_Z d; vm_compute in Hk |- *; by rewrite Hk.
Qed.

Lemma days_in_month_bounds y m : 28 <= days_in_month y m <= 31.
Proof.
  unfold days_in_month.
  repeat match goal with
         | |- context [match ?x with _ => _ end] => destruct x
         end; lia.
Qed.

Lemma valid_dateb_spec d : valid_dateb d = true ↔ valid_date d.
Proof.
  unfold valid_dateb, valid_monthb, valid_date, valid_month.
  rewrite !andb_true_iff, !Z.leb_le. tauto.
Qed.

Lemma c_int_spec n : c_int n = true ↔ - 2 ^ 31 <= n <= 2 ^ 31 - 1.
Proof. unfold c_int. rewrite andb_true_iff, !Z.leb_le. done. Qed.

Lemma valid_date_c_int y m d :
  valid_date (Date y m d) → c_int y && c_int m && c_int d = true.
Proof.
  intros [[Hy Hm] Hd]. simpl in *. unfold MINYEAR, MAXYEAR in Hy.
  pose proof (days_in_month_bounds y m).
  rewrite !andb_true_iff, !c_int_spec. lia.
Qed.

Lemma date_new_valid y m d :
  valid_date (Date y m d) → date_new y m d = Ok (Date y m d).
Proof.
  intros H. unfold date_new. rewrite valid_date_c_int by done.
  by apply valid_dateb_spec in H as ->.
Qed.

Lemma date_new_inv y m d x :
  date_new y m d = Ok x → x = Date y m d ∧ valid_date x.
Proof.
  unfold date_new. destruct (c_int y && c_int m && c_int d); [| done].
  destruct (valid_dateb _) eqn:E; [| done].
  intros [= <-]. split; [done |]. by apply valid_dateb_spec.
Qed.

(** What the constructor raises: [OverflowError] exactly when an argument
    does not fit, [ValueError] otherwise. *)
Lemma date_new_raise y m d e :
  date_new y m d = Raise e →
  e = if c_int y && c_int m && c_int d then ValueError else OverflowError.
Proof.
  unfold date_new. destruct (c_int y && c_int m && c_int d).
  - destruct (valid_dateb _); [done |]. by intros [= <-].
  - by intros [= <-].
Qed.

Lemma date_new_invalid y m d :
  ¬ valid_date (Date y m d) →
  date_new y m d
  = Raise (if c_int y && c_int m && c_int d then ValueError else OverflowError).
Proof.
  intros H. unfold date_new. destruct (c_int y && c_int m && c_int d); [| done].
  destruct (valid_dateb _) eqn:E; [| done]. by apply valid_dateb_spec in E.
Qed.

Lemma strptime_match_iso_date_str d :
  valid_date d →
  strptime_match (iso_date_str d) = Some (year d, month d, day d, EmptyString).
Proof.
  intros [[Hy Hm] Hd]. unfold MINYEAR, MAXYEAR in Hy.
  pose proof (days_in_month_bounds (year d) (month d)).
  unfold strptime_match, iso_date_str.
  rewrite re_Y_pad4 by lia. cbv [String.append re_char].
  rewrite decide_True by done.
  apply re_m_pad2; [done |]. cbv [String.append].
  rewrite decide_True by done.
  apply re_d_pad2; [lia | done].
Qed.

(** The text of the data model reads back as the date. *)
Lemma from_date_str_iso_date_str d :
  valid_date d → from_date_str (Some (iso_date_str d)) = Ok d.
Proof.
  intros Hd. simpl. unfold strptime_ymd.
  rewrite strptime_match_iso_date_str by done.
  destruct d as [y m dd]. by apply date_new_valid.
Qed.

Lemma decimal_pad4 y : 1000 <= y → Py.decimal y = Py.pad4 y.
Proof. intros Hy. unfold Py.decimal. case_ltb; done || lia. Qed.

(** From the year 1000 on [to_date_str] writes the text of the data
    model. *)
Lemma to_date_str_iso d : 1000 <= year d → to_date_str d = iso_date_str d.
Proof. intros Hy. unfold to_date_str, iso_date_str. by rewrite decimal_pad4. Qed.

(** Reading back what [to_date_str] wrote gives the date, from the year
    1000 on. *)
Lemma from_date_str_to_date_str d :
  valid_date d → 1000 <= year d → from_date_str (Some (to_date_str d)) = Ok d.
Proof.
  intros Hd Hy. rewrite to_date_str_iso by done.
  by apply from_date_str_iso_date_str.
Qed.

Lemma re_digit_dash {A} lo hi (k : Z → string → option A) rest :
  re_digit lo hi k (String "-" rest) = None.
Proof. reflexivity. Qed.

(** Before the year 1000 the text that [to_date_str] writes is refused by
    [from_date_str]: the year has fewer than four digits. *)
Lemma from_date_str_to_date_str_below d :
  valid_date d → year d < 1000 →
  from_date_str (Some (to_date_str d)) = Raise ValueError.
Proof.
  intros [[Hy Hm] Hd] Hlt. unfold MINYEAR, MAXYEAR in Hy.
  simpl. unfold strptime_ymd.
  assert (strptime_match (to_date_str d) = None) as ->; [| done].
  unfold strptime_match, to_date_str, Py.decimal, re_Y.
  case_ltb; try lia;
    unfold Py.pad2; cbv [String.append];
    rewrite ?re_digit_digit_char by divlia;
    apply re_digit_dash.
Qed.

Lemma digit_char_inj a b :
  0 <= a <= 9 → 0 <= b <= 9 → Py.digit_char a = Py.digit_char b → a = b.
Proof.
  intros Ha Hb E. apply (f_equal Py.digit_val) in E.
  rewrite !digit_val_digit_char in E by done. congruence.
Qed.

Lemma pad2_inj a b :
  0 <= a <= 99 → 0 <= b <= 99 → Py.pad2 a = Py.pad2 b → a = b.
Proof.
  intros Ha Hb E. unfold Py.pad2 in E. injection E as E1 E2.
  apply digit_char_inj in E1, E2; try divlia.
Qed.

Lemma decimal_length y :
  0 <= y <= 9999 →
  String.length (Py.decimal y)
  = if y <? 10 then 1%nat else if y <? 100 then 2%nat
    else if y <? 1000 then 3%nat else 4%nat.
Proof.
  intros Hy. unfold Py.decimal. case_ltb; done.
Qed.

Lemma decimal_inj a b :
  0 <= a <= 9999 → 0 <= b <= 9999 →
  String.length (Py.decimal a) = String.length (Py.decimal b) →
  Py.decimal a = Py.decimal b → a = b.
Proof.
  intros Ha Hb Hl. rewrite !decimal_length in Hl by done.
  unfold Py.decimal.
  destruct (Z.ltb_spec0 a 10); [| destruct (Z.ltb_spec0 a 100);
    [| destruct (Z.ltb_spec0 a 1000)]];
  (destruct (Z.ltb_spec0 b 10); [| destruct (Z.ltb_spec0 b 100);
    [| destruct (Z.ltb_spec0 b 1000)]]); try done;
  unfold Py.pad4, Py.pad2; intros E; simplify_eq;
  repeat match goal with
         | H : Py.digit_char _ = Py.digit_char _ |- _ =>
             apply digit_char_inj in H; [| divlia | divlia]
         end; divlia.
Qed.

Lemma string_length_app (a b : string) :
  String.length (a +:+ b) = (String.length a + String.length b)%nat.
Proof.
  induction a as [| c a IH]; [done |].
  change (String c a +:+ b) with (String c (a +:+ b)).
  cbn [String.length]. by rewrite IH.
Qed.

Lemma string_append_inj_l (a b c d : string) :
  String.length a = String.length b → a +:+ c = b +:+ d → a = b ∧ c = d.
Proof.
  revert b. induction a as [| x a IH]; intros [| y b] Hl E; try done.
  cbn in E. simplify_eq/=. destruct (IH b) as [-> ->]; [lia | done | done].
Qed.

Lemma string_cons_inj c (a b : string) : String c a = String c b → a = b.
Proof. by intros [= ->]. Qed.

(** The length of the text depends on the year only. *)
Lemma to_date_str_length d :
  String.length (to_date_str d)
  = (String.length (Py.decimal (year d)) + 6)%nat.
Proof. unfold to_date_str. by rewrite string_length_app. Qed.

Lemma to_date_str_inj d1 d2 :
  valid_date d1 → valid_date d2 → to_date_str d1 = to_date_str d2 → d1 = d2.
Proof.
  intros [[Hy1 Hm1] Hd1] [[Hy2 Hm2] Hd2] E. unfold MINYEAR, MAXYEAR in *.
  pose proof (days_in_month_bounds (year d1) (month d1)).
  pose proof (days_in_month_bounds (year d2) (month d2)).
  assert (Hl : String.length (Py.decimal (year d1))
               = String.length (Py.decimal (year d2))).
  { apply (f_equal String.length) in E. rewrite !to_date_str_length in E. lia. }
  unfold to_date_str in E.
  apply string_append_inj_l in E as [Ey E]; [| done].
  apply decimal_inj in Ey; [| lia | lia | done].
  cbn [String.append] in E. apply string_cons_inj in E.
  apply string_append_inj_l in E as [Em E]; [| done].
  apply pad2_inj in Em; [| lia | lia].
  cbn [String.append] in E. apply string_cons_inj in E.
  apply pad2_inj in E; [| lia | lia].
  destruct d1, d2; simpl in *; congruence.
Qed.

Lemma to_date_str_truthy d : Py.truthy (to_date_str d) = true.
Proof.
  unfold to_date_str, Py.decimal. case_ltb; done.
Qed.

(** What [from_date_str] returns is a date of the calendar. *)
Lemma from_date_str_valid s d : from_date_str s = Ok d → valid_date d.
Proof.
  destruct s as [s |]; [| done]. simpl. unfold strptime_ymd.
  destruct (strptime_match s) as [[[[y m] dd] [| ? ?]] |]; try done.
  intros H. by apply date_new_inv in H as [_ ?].
Qed.

Lemma date_leb_refl d : date_leb d d = true.
Proof.
  unfold date_leb. rewrite !Z.eqb_refl, Z.leb_refl.
  by rewrite !orb_true_r.
Qed.

Lemma date_leb_same_month y m a b :
  date_leb (Date y m a) (Date y m b) = (a <=? b).
Proof.
  unfold date_leb. simpl. rewrite !Z.eqb_refl, !Z.ltb_irrefl. done.
Qed.

(** ** The routine expander *)

Lemma visit_day_selected r start end_ cur acc :
  visit_day r start end_ cur acc = acc ++ selected r start end_ [cur].
Proof.
  unfold visit_day, selected. rewrite filter_cons, filter_nil.
  destruct (occurs_on r start end_ cur) eqn:E.
  - by rewrite decide_True.
  - rewrite decide_False by congruence. by rewrite app_nil_r.
Qed.

Lemma selected_cons r start end_ d ds :
  selected r start end_ (d :: ds)
  = selected r start end_ [d] ++ selected r start end_ ds.
Proof.
  unfold selected. rewrite <- fmap_app. f_equal.
  change (d :: ds) with ([d] ++ ds). by rewrite filter_app.
Qed.

Lemma qualifies_occurs_on r start end_ d :
  occurs_on r start end_ d = true ↔ qualifies r start end_ d.
Proof.
  unfold occurs_on, qualifies, date_le.
  rewrite !andb_true_iff, bool_decide_eq_true.
  destruct end_; intuition.
Qed.

(** After the last day of the month the loop stops, or the step past
    9999-12-31 raises. *)
Lemma month_loop_last_day r start end_ y m fuel acc :
  valid_month y m →
  month_loop (S (S fuel)) r start end_
    (Date y m (days_in_month y m)) (Date y m (days_in_month y m)) acc
  = if decide (last_month y m) then Raise OverflowError
    else Ok (visit_day r start end_ (Date y m (days_in_month y m)) acc).
Proof.
  intros [Hy Hm]. unfold MINYEAR in Hy.
  cbn [month_loop]. rewrite date_leb_refl.
  unfold add_one_day. cbn [year month day].
  rewrite Z.ltb_irrefl.
  destruct (m <? 12) eqn:E12.
  - apply Z.ltb_lt in E12. cbn [mbind result_bind month_loop].
    replace (date_leb _ _) with false.
    + rewrite decide_False; [done |]. unfold last_month. lia.
    + symmetry. unfold date_leb. cbn [year month day].
      rewrite Z.ltb_irrefl, Z.eqb_refl.
      replace (m + 1 <? m) with false by (symmetry; apply Z.ltb_ge; lia).
      replace (m + 1 =? m) with false by (symmetry; apply Z.eqb_neq; lia).
      done.
  - apply Z.ltb_ge in E12.
    destruct (y <? MAXYEAR) eqn:EY.
    + apply Z.ltb_lt in EY. cbn [mbind result_bind month_loop].
      replace (date_leb _ _) with false.
      * rewrite decide_False; [done |]. unfold last_month. lia.
      * symmetry. unfold date_leb. cbn [year month day].
        replace (y + 1 <? y) with false by (symmetry; apply Z.ltb_ge; lia).
        replace (y + 1 =? y) with false by (symmetry; apply Z.eqb_neq; lia).
        done.
    + apply Z.ltb_ge in EY. cbn [mbind result_bind].
      rewrite decide_True; [done |]. unfold last_month. lia.
Qed.

(** From day [k] on, the loop visits every remaining day of the month. *)
Lemma month_loop_run r start end_ y m :
  valid_month y m →
  ∀ (n : nat) (k : Z) (fuel : nat) (acc : list event),
    1 <= k → k + Z.of_nat n = days_in_month y m → (n + 2 ≤ fuel)%nat →
    month_loop fuel r start end_ (Date y m (days_in_month y m)) (Date y m k) acc
    = if decide (last_month y m) then Raise OverflowError
      else Ok (acc ++ selected r start end_ (days_from y m k (S n))).
Proof.
  intros Hv n. induction n as [| n IH]; intros k fuel acc Hk Hn Hf.
  - destruct fuel as [| [| fuel]]; [lia | lia |].
    replace k with (days_in_month y m) by lia.
    rewrite month_loop_last_day by done.
    by rewrite visit_day_selected.
  - destruct fuel as [| fuel]; [lia |].
    cbn [month_loop]. rewrite date_leb_same_month.
    replace (k <=? days_in_month y m) with true
      by (symmetry; apply Z.leb_le; lia).
    unfold add_one_day. cbn [year month day].
    replace (k <? days_in_month y m) with true
      by (symmetry; apply Z.ltb_lt; lia).
    cbn [mbind result_bind].
    rewrite IH by lia.
    destruct (decide (last_month y m)); [done |].
    rewrite visit_day_selected, <- app_assoc.
    change (days_from y m k (S (S n)))
      with (Date y m k :: days_from y m (k + 1) (S n)).
    by rewrite (selected_cons _ _ _ (Date y m k) (days_from _ _ _ _)).
Qed.

Lemma elem_of_days_from y m k n d :
  d ∈ days_from y m k n ↔
  year d = y ∧ month d = m ∧ k <= day d < k + Z.of_nat n.
Proof.
  revert k. induction n as [| n IH]; intros k; cbn [days_from].
  - rewrite elem_of_nil. lia.
  - rewrite elem_of_cons, IH. destruct d as [y' m' d']. cbn [year month day].
    split.
    + intros [[= -> -> ->] | (-> & -> & ?)]; lia.
    + intros (-> & -> & ?).
      destruct (decide (d' = k)) as [-> |]; [by left | right; lia].
Qed.

Lemma elem_of_month_days y m d :
  valid_month y m → d ∈ month_days y m ↔ date_in_month y m d.
Proof.
  intros Hv. unfold month_days, date_in_month, valid_date.
  pose proof (days_in_month_bounds y m).
  rewrite elem_of_days_from, Z2Nat.id by lia.
  split.
  - intros (<- & <- & ?). repeat split; try done; try apply Hv; lia.
  - intros ((_ & ?) & <- & <-). repeat split; lia.
Qed.

Lemma NoDup_days_from y m k n : NoDup (days_from y m k n).
Proof.
  revert k. induction n as [| n IH]; intros k; cbn [days_from].
  - constructor.
  - constructor; [| apply IH].
    rewrite elem_of_days_from. cbn [day]. lia.
Qed.

Lemma expand_routine_spec y m r acc :
  valid_month y m →
  expand_routine (Date y m 1) (Date y m (days_in_month y m)) r acc
  = w ← routine_window r;
    match w with
    | None => Ok acc
    | Some (start, end_) =>
        if decide (last_month y m) then Raise OverflowError
        else Ok (acc ++ selected r start end_ (month_days y m))
    end.
Proof.
  intros Hv. unfold expand_routine, routine_window.
  destruct (bool_decide _); [done |].
  destruct (from_date_str (r_start_date r)) as [start |]; [| done].
  destruct (routine_end r) as [end_ |]; [| done].
  cbn [mbind result_bind]. unfold month_days.
  pose proof (days_in_month_bounds y m).
  destruct (Z.to_nat (days_in_month y m)) as [| n] eqn:En; [lia |].
  apply month_loop_run; [done | lia | lia |].
  unfold loop_fuel. lia.
Qed.

(** A result of the expansion is the concatenation of the parts of the
    routines, in the order of the list. *)
Lemma expand_routines_from_ok y m rs : ∀ acc occs,
  valid_month y m →
  expand_routines_from (Date y m 1) (Date y m (days_in_month y m)) rs acc
    = Ok occs →
  occs = acc ++ rs ≫= routine_part y m.
Proof.
  induction rs as [| r rs IH]; intros acc occs Hv; cbn [expand_routines_from].
  - intros [= <-]. by rewrite app_nil_r.
  - rewrite expand_routine_spec by done.
    rewrite bind_cons. unfold routine_part at 1.
    destruct (routine_window r) as [[[start end_] |] |]; cbn [mbind result_bind].
    + destruct (decide (last_month y m)); [done |].
      cbn [mbind result_bind]. intros H. apply IH in H; [| done].
      by rewrite H, app_assoc.
    + intros H. by apply IH in H.
    + done.
Qed.

Lemma expand_routines_for_month_ok rs y m occs :
  expand_routines_for_month rs y m = Ok occs →
  valid_month y m ∧ occs = rs ≫= routine_part y m.
Proof.
  unfold expand_routines_for_month.
  destruct (date_new y m 1) as [first |] eqn:E1; [| done].
  apply date_new_inv in E1 as [-> [Hv _]]. cbn [year month] in Hv.
  cbn [mbind result_bind]. unfold monthrange_days.
  destruct (date_new y m (days_in_month y m)) as [last |] eqn:E2; [| done].
  apply date_new_inv in E2 as [-> _]. cbn [mbind result_bind].
  intros H. apply expand_routines_from_ok in H; done.
Qed.

Lemma date_new_not_exhausted y m d : date_new y m d ≠ Raise Exhausted.
Proof. intros H%date_new_raise. by destruct (_ && _). Qed.

Lemma from_date_str_not_exhausted s : from_date_str s ≠ Raise Exhausted.
Proof.
  destruct s as [s |]; [| done]. simpl. unfold strptime_ymd.
  repeat case_match; try done. apply date_new_not_exhausted.
Qed.

Lemma routine_window_not_exhausted r : routine_window r ≠ Raise Exhausted.
Proof.
  unfold routine_window, routine_end.
  destruct (bool_decide _); [done |].
  destruct (from_date_str (r_start_date r)); [| done].
  destruct (r_end_date r) as [s |]; [| done].
  destruct (Py.truthy s); [| done].
  pose proof (from_date_str_not_exhausted (Some s)).
  destruct (from_date_str (Some s)); [done | cbn [mbind result_bind]; congruence].
Qed.

(** The loop never runs out of fuel. *)
Lemma expand_never_exhausted rs y m :
  expand_routines_for_month rs y m ≠ Raise Exhausted.
Proof.
  unfold expand_routines_for_month.
  destruct (date_new y m 1) as [first |] eqn:E1;
    [| intros [= ->]; by apply date_new_not_exhausted in E1].
  apply date_new_inv in E1 as [-> [Hv _]]. cbn [year month] in Hv.
  cbn [mbind result_bind]. unfold monthrange_days.
  destruct (date_new y m (days_in_month y m)) as [last |] eqn:E2;
    [| intros [= ->]; by apply date_new_not_exhausted in E2].
  apply date_new_inv in E2 as [-> _]. cbn [mbind result_bind].
  generalize (@nil event). induction rs as [| r rs IH]; intros acc.
  - done.
  - cbn [expand_routines_from]. rewrite expand_routine_spec by done.
    pose proof (routine_window_not_exhausted r) as Hw.
    destruct (routine_window r) as [[[start end_] |] |];
      cbn [mbind result_bind]; [| apply IH | congruence].
    destruct (decide _); [done | apply IH].
Qed.

Lemma expand_single_weekly r y m start end_ :
  r_type r = Some "weekly"%string →
  from_date_str (r_start_date r) = Ok start →
  routine_end r = Ok end_ →
  valid_month y m → ¬ last_month y m →
  expand_routines_for_month [r] y m
  = Ok (selected r start end_ (month_days y m)).
Proof.
  intros Ht Hs He Hv Hl. unfold expand_routines_for_month, monthrange_days.
  pose proof (days_in_month_bounds y m).
  rewrite !date_new_valid by (split; [done | cbn [day year month]; lia]).
  cbn [mbind result_bind expand_routines_from].
  rewrite expand_routine_spec by done. unfold routine_window.
  rewrite bool_decide_eq_false_2 by (intros ?; done).
  rewrite Hs, He. cbn [mbind result_bind].
  by rewrite decide_False.
Qed.

Lemma elem_of_selected r start end_ ds o :
  o ∈ selected r start end_ ds ↔
  ∃ d, d ∈ ds ∧ qualifies r start end_ d ∧ o = routine_occurrence r d.
Proof.
  unfold selected. rewrite list_elem_of_fmap.
  setoid_rewrite list_elem_of_filter.
  setoid_rewrite qualifies_occurs_on.
  split; [intros (d & -> & Hq & Hd) | intros (d & Hd & Hq & ->)];
    exists d; auto.
Qed.

Lemma stored_end_routine_end r end_ :
  stored_end r end_ → routine_end r = Ok end_.
Proof.
  unfold stored_end, routine_end.
  destruct (r_end_date r) as [s |]; [| by intros ->].
  destruct (decide (s = ""%string)) as [-> | Hs]; [by intros -> |].
  intros (e & -> & ->). by destruct s.
Qed.

(** X29.  In every month of [datetime.date] but December 9999, a weekly
    routine whose start date parses, and whose end date is missing, null,
    empty or parses, includes a day of the month exactly when the day's
    weekday is one of the routine's, the day is not before the start
    date, and there is no end date or the day is not after it; no such
    day is left out, and every occurrence is on a day of the month. *)
Theorem expand_weekly_includes_iff r y m start end_ :
  r_type r = Some "weekly"%string →
  from_date_str (r_start_date r) = Ok start →
  stored_end r end_ →
  valid_month y m → ¬ last_month y m →
  ∃ occs, expand_routines_for_month [r] y m = Ok occs
    ∧ (∀ o, o ∈ occs →
         ∃ d, date_in_month y m d ∧ ev_date o = Some (to_date_str d))
    ∧ (∀ d, date_in_month y m d →
         (∃ o, o ∈ occs ∧ ev_date o = Some (to_date_str d))
         ↔ qualifies r start end_ d).
Proof.
  intros Ht Hs He%stored_end_routine_end Hv Hl.
  eexists. split; [by apply expand_single_weekly |].
  split.
  - intros o (d & Hd & _ & ->)%elem_of_selected.
    exists d. split; [by apply elem_of_month_days | done].
  - intros d Hd. split.
    + intros (o & (d' & Hd' & Hq & ->)%elem_of_selected & Heq).
      cbn [routine_occurrence ev_date] in Heq.
      apply elem_of_month_days in Hd'; [| done].
      assert (d' = d) as ->; [| done].
      apply to_date_str_inj; [apply Hd' | apply Hd | congruence].
    + intros Hq. exists (routine_occurrence r d). split; [| done].
      apply elem_of_selected. exists d.
      split; [by apply elem_of_month_days | done].
Qed.

Lemma expand_weekly_includes_iff_witness :
  ∃ occs, expand_routines_for_month [gym_until_20] 2024 1 = Ok occs
    ∧ (∀ o, o ∈ occs →
         ∃ d, date_in_month 2024 1 d ∧ ev_date o = Some (to_date_str d))
    ∧ (∀ d, date_in_month 2024 1 d →
         (∃ o, o ∈ occs ∧ ev_date o = Some (to_date_str d))
         ↔ qualifies gym_until_20 (Date 2024 1 1) (Some (Date 2024 1 20)) d).
Proof.
  apply (expand_weekly_includes_iff gym_until_20 2024 1 (Date 2024 1 1)
           (Some (Date 2024 1 20))).
  - reflexivity.
  - reflexivity.
  - simpl. exists (Date 2024 1 20). split; reflexivity.
  - unfold valid_month, MINYEAR, MAXYEAR. lia.
  - unfold last_month, MAXYEAR. lia.
Defined.

Example gym_until_20_in_january :
  ev_date <$> try_except (expand_routines_for_month [gym_until_20] 2024 1) []
  = [Some "2024-01-01"; Some "2024-01-08"; Some "2024-01-15"]%string
  ∧ ev_date <$> try_except (expand_routines_for_month [gym] 2024 1) []
    = [Some "2024-01-01"; Some "2024-01-08"; Some "2024-01-15";
       Some "2024-01-22"; Some "2024-01-29"]%string.
Proof. vm_compute. done. Qed.

(** In December 9999 the expansion of the first routine that the loop
    does not pass over raises: the step past the last day of the month
    has no date to go to. *)
Lemma expand_last_month_overflows r rs start end_ :
  routine_window r = Ok (Some (start, end_)) →
  expand_routines_for_month (r :: rs) 9999 12 = Raise OverflowError.
Proof.
  intros Hw. unfold expand_routines_for_month, monthrange_days.
  assert (Hv : valid_month 9999 12)
    by (unfold valid_month, MINYEAR, MAXYEAR; lia).
  pose proof (days_in_month_bounds 9999 12).
  rewrite !date_new_valid by (split; [done | cbn [day year month]; lia]).
  cbn [mbind result_bind expand_routines_from].
  rewrite expand_routine_spec by done. rewrite Hw.
  cbn [mbind result_bind]. by rewrite decide_True.
Qed.

(** C2 at an input where the code departs from it.  In December 9999 the
    loop of the expander visits 9999-12-31, steps to the day after it,
    which [datetime.date] does not have, and raises [OverflowError]: the
    expansion of a weekly routine returns no list, and neither does the
    month index, although days of the month qualify.  The routine [gym]
    is weekly on Mondays from 2024-01-01 without an end, and 9999-12-06
    is a Monday.  The same happens with every routine that the loop does
    not pass over. *)
Theorem weekly_routine_overflows_in_december_9999 :
  expand_routines_for_month [gym] 9999 12 = Raise OverflowError
  ∧ events_map_for_month (App [] [] [gym]) 9999 12 = Raise OverflowError
  ∧ r_type gym = Some "weekly"%string
  ∧ from_date_str (r_start_date gym) = Ok (Date 2024 1 1)
  ∧ stored_end gym None
  ∧ date_in_month 9999 12 (Date 9999 12 6)
  ∧ qualifies gym (Date 2024 1 1) None (Date 9999 12 6)
  ∧ ∀ r rs start end_,
      routine_window r = Ok (Some (start, end_)) →
      expand_routines_for_month (r :: rs) 9999 12 = Raise OverflowError.
Proof.
  split_and!.
  - by apply (expand_last_month_overflows gym [] (Date 2024 1 1) None).
  - unfold events_map_for_month. cbn [routines].
    by rewrite (expand_last_month_overflows gym [] (Date 2024 1 1) None).
  - reflexivity.
  - reflexivity.
  - reflexivity.
  - unfold date_in_month, valid_date, valid_month, MINYEAR, MAXYEAR.
    simpl. lia.
  - unfold qualifies. split_and!; [| reflexivity | done].
    apply (bool_decide_unpack _). vm_compute. exact I.
  - apply expand_last_month_overflows.
Qed.

Lemma on_date_occurrences r d l :
  NoDup l → Forall valid_date l → valid_date d →
  on_date (to_date_str d) (routine_occurrence r <$> l)
  = if decide (d ∈ l) then [routine_occurrence r d] else [].
Proof.
  intros Hnd Hl Hd. unfold on_date.
  induction l as [| a l IH]; [done |].
  apply NoDup_cons in Hnd as [Ha Hnd]. apply Forall_cons in Hl as [Hva Hl].
  rewrite fmap_cons, filter_cons. cbn [routine_occurrence ev_date].
  rewrite IH by done.
  destruct (decide (a = d)) as [-> | Hne].
  - rewrite decide_True by done. rewrite decide_False by done.
    rewrite decide_True by apply list_elem_of_here. done.
  - rewrite decide_False.
    + destruct (decide (d ∈ l)) as [Hin | Hin].
      * rewrite decide_True by (by apply list_elem_of_further). done.
      * rewrite decide_False; [done |].
        intros [-> | ?]%elem_of_cons; done.
    + intros E. apply Hne, to_date_str_inj; [done | done | congruence].
Qed.

Lemma NoDup_month_days y m : NoDup (month_days y m).
Proof. apply NoDup_days_from. Qed.

Lemma Forall_valid_month_days y m :
  valid_month y m → Forall valid_date (month_days y m).
Proof.
  intros Hv. apply Forall_forall. intros d Hd.
  by apply elem_of_month_days in Hd as [? _].
Qed.

(** On a date text, a routine's part holds its occurrence when the date
    qualifies, and nothing otherwise. *)
Lemma on_date_selected r start end_ y m d :
  valid_month y m → date_in_month y m d →
  on_date (to_date_str d) (selected r start end_ (month_days y m))
  = if decide (qualifies r start end_ d) then [routine_occurrence r d] else [].
Proof.
  intros Hv Hd. unfold selected.
  rewrite on_date_occurrences.
  - destruct (decide (qualifies r start end_ d)) as [Hq | Hq].
    + rewrite decide_True; [done |]. apply list_elem_of_filter.
      split; [by apply qualifies_occurs_on | by apply elem_of_month_days].
    + rewrite decide_False; [done |].
      intros [?%qualifies_occurs_on _]%list_elem_of_filter. done.
  - apply NoDup_filter, NoDup_month_days.
  - apply Forall_forall. intros x [_ Hx]%list_elem_of_filter.
    by apply elem_of_month_days in Hx as [? _].
  - apply Hd.
Qed.

(** C3, as the code has it.  For a weekly routine and a day it includes,
    the expansion holds exactly one occurrence on that day; its id is
    ["routine:"], the routine's id, [":"] and the date text; its title,
    date and time are the routine's title, the day and the routine's time;
    its source is the routine source. *)
Theorem expand_occurrence_fields r y m start end_ rid t d :
  r_type r = Some "weekly"%string →
  r_id r = Some rid → r_title r = Some t →
  from_date_str (r_start_date r) = Ok start →
  routine_end r = Ok end_ →
  valid_month y m → ¬ last_month y m →
  date_in_month y m d → qualifies r start end_ d →
  ∃ occs o, expand_routines_for_month [r] y m = Ok occs
    ∧ on_date (to_date_str d) occs = [o]
    ∧ ev_id o = ("routine:" +:+ rid +:+ ":" +:+ to_date_str d)%string
    ∧ ev_title o = Some t
    ∧ ev_date o = Some (to_date_str d)
    ∧ ev_time o = r_time r
    ∧ ev_source o = SrcRoutine.
Proof.
  intros Ht Hid Hti Hs He Hv Hl Hd Hq.
  exists (selected r start end_ (month_days y m)), (routine_occurrence r d).
  split; [by apply expand_single_weekly |].
  split; [by rewrite (on_date_selected _ _ _ y m), decide_True |].
  cbn [routine_occurrence ev_id ev_title ev_date ev_time ev_source].
  by rewrite Hid, Hti.
Qed.

Lemma expand_occurrence_fields_witness :
  ∃ occs o, expand_routines_for_month [gym] 2024 1 = Ok occs
    ∧ on_date (to_date_str (Date 2024 1 8)) occs = [o]
    ∧ ev_id o = ("routine:" +:+ "routine:1704067200000" +:+ ":"
                 +:+ to_date_str (Date 2024 1 8))%string
    ∧ ev_title o = Some "Gym"%string
    ∧ ev_date o = Some (to_date_str (Date 2024 1 8))
    ∧ ev_time o = r_time gym
    ∧ ev_source o = SrcRoutine.
Proof.
  apply (expand_occurrence_fields gym 2024 1 (Date 2024 1 1) None).
  - reflexivity.
  - reflexivity.
  - reflexivity.
  - reflexivity.
  - reflexivity.
  - unfold valid_month, MINYEAR, MAXYEAR. lia.
  - unfold last_month, MAXYEAR. lia.
  - unfold date_in_month, valid_date, valid_month, MINYEAR, MAXYEAR.
    simpl. lia.
  - unfold qualifies, date_le. split; [| split; [reflexivity | exact I]].
    apply list_elem_of_here.
Defined.

(** C3, as the specification words it, fails: the id of an occurrence is
    not the routine's id, [":"] and the date text. *)
Lemma expand_id_not_as_specified :
  ∃ occs, expand_routines_for_month [gym] 2024 1 = Ok occs
    ∧ ¬ (∀ o d, o ∈ occs → ev_date o = Some (to_date_str d) →
           ev_id o = spec_routine_id gym d).
Proof.
  exists (try_except (expand_routines_for_month [gym] 2024 1) []).
  split; [vm_compute; reflexivity |].
  intros H.
  specialize (H (routine_occurrence gym (Date 2024 1 1)) (Date 2024 1 1)).
  assert (Hin : routine_occurrence gym (Date 2024 1 1)
                ∈ try_except (expand_routines_for_month [gym] 2024 1) [])
    by (vm_compute; apply list_elem_of_here).
  specialize (H Hin eq_refl).
  vm_compute in H. discriminate H.
Qed.

(** ** The month index *)

Lemma scan_event_step y m acc e :
  scan_event y m acc e = if event_in_month y m e then acc ++ [e] else acc.
Proof.
  unfold scan_event, event_in_month, getitem_date.
  destruct (ev_date e) as [s |]; [| done]. cbn [mbind result_bind].
  destruct (from_date_str (Some s)) as [d |]; [| done].
  cbn [mbind result_bind try_except]. done.
Qed.

Lemma scan_events_filter y m l : ∀ acc,
  foldl (scan_event y m) acc l
  = acc ++ filter (λ e, event_in_month y m e = true) l.
Proof.
  induction l as [| e l IH]; intros acc; cbn [foldl].
  - by rewrite filter_nil, app_nil_r.
  - rewrite IH, scan_event_step, filter_cons.
    destruct (event_in_month y m e).
    + rewrite decide_True by done. by rewrite <- app_assoc.
    + by rewrite decide_False.
Qed.

Lemma event_in_month_key y m e :
  event_in_month y m e = true →
  ∃ ds, ev_date e = Some ds ∧ Py.truthy ds = true ∧ month_key y m ds.
Proof.
  unfold event_in_month.
  destruct (ev_date e) as [ds |] eqn:Ed; [| done].
  destruct (from_date_str (Some ds)) as [d |] eqn:Ep; [| done].
  intros [Hy Hm]%andb_true_iff. apply Z.eqb_eq in Hy, Hm.
  exists ds. split; [done |]. split.
  - by destruct ds.
  - by exists d.
Qed.


(** From the year 1000 on the occurrence of a routine passes the test of
    the scans; before, its date text does not read back. *)
Lemma routine_occurrence_in_month y m r d :
  date_in_month y m d → 1000 <= y →
  event_in_month y m (routine_occurrence r d) = true.
Proof.
  intros (Hv & Hy & Hm) Hk. unfold event_in_month.
  cbn [routine_occurrence ev_date].
  rewrite from_date_str_to_date_str by (done || lia).
  apply andb_true_iff. split; by apply Z.eqb_eq.
Qed.

Lemma routine_occurrence_ill_dated r d :
  valid_date d → year d < 1000 → well_dated (routine_occurrence r d) = false.
Proof.
  intros Hv Hy. unfold well_dated. cbn [routine_occurrence ev_date].
  by rewrite from_date_str_to_date_str_below.
Qed.

Lemma routine_part_days y m r e :
  valid_month y m → e ∈ routine_part y m r →
  ∃ d, date_in_month y m d ∧ e = routine_occurrence r d.
Proof.
  intros Hv. unfold routine_part.
  destruct (routine_window r) as [[[start end_] |] |]; try by intros ?%elem_of_nil.
  intros (d & Hd & _ & ->)%elem_of_selected.
  exists d. split; [by apply elem_of_month_days | done].
Qed.

Lemma routine_part_in_month y m r e :
  valid_month y m → 1000 <= y →
  e ∈ routine_part y m r → event_in_month y m e = true.
Proof.
  intros Hv Hk (d & Hd & ->)%routine_part_days; [| done].
  by apply routine_occurrence_in_month.
Qed.

(** The records that reach the grouping: the stored and cached records
    that pass the test of the scans, and the occurrences of the
    routines. *)
Lemma elem_of_month_events self y m e :
  e ∈ month_events self y m ↔
  (e ∈ user_events self ++ ics_events_cache self ∧ event_in_month y m e = true)
  ∨ ∃ r, r ∈ routines self ∧ e ∈ routine_part y m r.
Proof.
  unfold month_events.
  rewrite app_assoc, <- filter_app, elem_of_app, list_elem_of_filter,
    list_elem_of_bind.
  split; (intros [[? ?] | (r & ? & ?)]; [by left | right; by exists r]).
Qed.

(** From the year 1000 on every record that reaches the grouping passes
    the test of the scans. *)
Lemma month_events_in_month self y m e :
  valid_month y m → 1000 <= y →
  e ∈ month_events self y m → event_in_month y m e = true.
Proof.
  intros Hv Hk [[_ ?] | (r & _ & He)]%elem_of_month_events; [done |].
  by eapply routine_part_in_month.
Qed.

Lemma month_key_in_month y m ds : month_key y m ds → key_in_month y m ds.
Proof.
  intros (d & Hd & Hy & Hm). exists d. split; [| by left].
  split; [by eapply from_date_str_valid | done].
Qed.

(** Every record that reaches the grouping carries a date text of the
    month, which is not empty. *)
Lemma month_events_key self y m e :
  valid_month y m → e ∈ month_events self y m →
  ∃ ds, ev_date e = Some ds ∧ Py.truthy ds = true ∧ key_in_month y m ds.
Proof.
  intros Hv [[_ He] | (r & _ & He)]%elem_of_month_events.
  - apply event_in_month_key in He as (ds & ? & ? & ?).
    exists ds. split_and!; [done | done | by apply month_key_in_month].
  - apply routine_part_days in He as (d & Hd & ->); [| done].
    exists (to_date_str d). split_and!; [done | apply to_date_str_truthy |].
    exists d. split; [done | by right].
Qed.

(** *** Grouping *)

Lemma group_event_lookup (m : gmap string (list event)) e ds :
  group_event m e !! ds
  = if decide (ev_date e = Some ds ∧ Py.truthy ds = true)
    then Some (default [] (m !! ds) ++ [e])
    else m !! ds.
Proof.
  unfold group_event. destruct (ev_date e) as [ds' |].
  - destruct (Py.truthy ds') eqn:Et.
    + destruct (decide (ds' = ds)) as [-> | Hne].
      * rewrite lookup_insert_eq. by rewrite decide_True.
      * rewrite lookup_insert_ne by done.
        rewrite decide_False; [done |]. intros [[= ?] _]. done.
    + rewrite decide_False; [done |]. intros [[= ->] ?]. congruence.
  - rewrite decide_False; [done |]. intros [? _]. done.
Qed.

Lemma group_events_lookup l ds : ∀ m : gmap string (list event),
  Py.truthy ds = true →
  foldl group_event m l !! ds
  = match on_date ds l with
    | [] => m !! ds
    | _ :: _ => Some (default [] (m !! ds) ++ on_date ds l)
    end.
Proof.
  unfold on_date.
  induction l as [| e l IH]; intros m Ht; cbn [foldl]; [done |].
  rewrite IH by done. rewrite group_event_lookup, filter_cons.
  destruct (decide (ev_date e = Some ds)) as [He | He].
  - rewrite decide_True by done. cbn [default].
    destruct (filter _ l) as [| e' l'] eqn:El.
    + done.
    + unfold id. by rewrite <- app_assoc.
  - rewrite decide_False by (intros [? _]; done). done.
Qed.

Lemma group_events_lookup_falsy l : ∀ m : gmap string (list event),
  foldl group_event m l !! ""%string = m !! ""%string.
Proof.
  induction l as [| e l IH]; intros m; cbn [foldl]; [done |].
  rewrite IH, group_event_lookup.
  rewrite decide_False; [done |]. intros [_ ?]. done.
Qed.

(** The group of a date text is the sub-list of the records that carry
    it, in their order; a text that no record carries has no entry. *)
Lemma group_events_from_empty l ds :
  (foldl group_event ∅ l : gmap string (list event)) !! ds
  = match on_date ds l with
    | [] => None
    | _ :: _ => if Py.truthy ds then Some (on_date ds l) else None
    end.
Proof.
  destruct ds as [| c s].
  - rewrite group_events_lookup_falsy, lookup_empty. by destruct (on_date _ _).
  - rewrite group_events_lookup by done. rewrite lookup_empty.
    by destruct (on_date _ _).
Qed.

(** *** Sorting *)

Lemma str_lt_false_le a b : Py.str_lt b a = false → (a ≤ b)%string.
Proof.
  unfold Py.str_lt, String.ltb, String.le, String.leb.
  rewrite (String.compare_antisym b a).
  destruct (a ?= b)%string; simpl; done.
Qed.

Lemma str_lt_true_le a b : Py.str_lt a b = true → (a ≤ b)%string.
Proof.
  unfold Py.str_lt, String.ltb, String.le, String.leb.
  destruct (a ?= b)%string; simpl; done.
Qed.

Lemma key_lt_false_le a b : key_lt b a = false → key_le a b.
Proof.
  unfold key_lt, key_le. destruct (b.1 =? a.1) eqn:E.
  - apply Z.eqb_eq in E. intros H%str_lt_false_le. right. done.
  - apply Z.eqb_neq in E. intros H%Z.ltb_ge. left. lia.
Qed.

Lemma key_lt_true_le a b : key_lt a b = true → key_le a b.
Proof.
  unfold key_lt, key_le. destruct (a.1 =? b.1) eqn:E.
  - apply Z.eqb_eq in E. intros H%str_lt_true_le. right. done.
  - intros H%Z.ltb_lt. by left.
Qed.

Global Instance key_le_trans : Transitive key_le.
Proof.
  intros a b c [H1 | [H1 H1']] [H2 | [H2 H2']]; unfold key_le.
  - left. lia.
  - left. lia.
  - left. lia.
  - right. split; [lia | by etrans].
Qed.

Global Instance by_key_trans : Transitive by_key.
Proof. intros a b c. unfold by_key. apply key_le_trans. Qed.

Lemma insert_by_key_Permutation x l : insert_by_key x l ≡ₚ x :: l.
Proof.
  induction l as [| y l IH]; cbn [insert_by_key]; [done |].
  destruct (key_lt _ _); [| done].
  rewrite IH. apply Permutation_swap.
Qed.

(** Sorting keeps the records. *)
Lemma sort_by_key_Permutation l : sort_by_key l ≡ₚ l.
Proof.
  induction l as [| x l IH]; cbn [sort_by_key foldr]; [done |].
  rewrite insert_by_key_Permutation. by f_equiv.
Qed.

Lemma insert_by_key_sorted x l :
  StronglySorted by_key l → StronglySorted by_key (insert_by_key x l).
Proof.
  induction l as [| y l IH]; cbn [insert_by_key]; intros Hs.
  - repeat constructor.
  - apply StronglySorted_cons in Hs as [Hy Hs].
    destruct (key_lt (sort_key y) (sort_key x)) eqn:E.
    + apply StronglySorted_cons. split; [| by apply IH].
      rewrite insert_by_key_Permutation. constructor; [| done].
      by apply key_lt_true_le.
    + apply StronglySorted_cons. split; [| by apply StronglySorted_cons].
      assert (by_key x y) by (by apply key_lt_false_le).
      constructor; [done |].
      eapply Forall_impl; [exact Hy |]. intros z Hz. by etrans.
Qed.

(** The result of the sort is in the order of the keys. *)
Lemma sort_by_key_sorted l : StronglySorted by_key (sort_by_key l).
Proof.
  induction l as [| x l IH]; cbn [sort_by_key foldr].
  - constructor.
  - by apply insert_by_key_sorted.
Qed.

Lemma sort_by_key_nil_inv l : sort_by_key l = [] → l = [].
Proof.
  intros H. apply Permutation_nil_r. rewrite <- H.
  by rewrite sort_by_key_Permutation.
Qed.

(** *** The index *)

(** When the index is built, the entry of a date text is the sorted list
    of the records of the month that carry it, and there is no entry for a
    text that none carries. *)
Lemma events_map_for_month_ok self y m idx :
  events_map_for_month self y m = Ok idx →
  valid_month y m
  ∧ ∀ ds, idx !! ds
          = match on_date ds (month_events self y m) with
            | [] => None
            | _ :: _ => Some (sort_by_key (on_date ds (month_events self y m)))
            end.
Proof.
  unfold events_map_for_month.
  destruct (expand_routines_for_month (routines self) y m) as [occs |] eqn:Ex;
    [| done].
  apply expand_routines_for_month_ok in Ex as [Hv ->].
  cbn [mbind result_bind]. intros [= <-]. split; [done |]. intros ds.
  rewrite !scan_events_filter, app_nil_l, <- app_assoc.
  fold (month_events self y m).
  rewrite lookup_fmap, group_events_from_empty.
  destruct (on_date ds (month_events self y m)) as [| e l] eqn:El; [done |].
  assert (He : e ∈ on_date ds (month_events self y m))
    by (rewrite El; apply list_elem_of_here).
  apply list_elem_of_filter in He as [Hds He].
  apply month_events_key in He as (ds' & Hds' & Ht & _); [| done].
  assert (ds' = ds) as -> by congruence.
  by rewrite Ht.
Qed.

(** The index is built whenever the expansion of the routines returns. *)
Lemma events_map_for_month_returns self y m occs :
  expand_routines_for_month (routines self) y m = Ok occs →
  ∃ idx, events_map_for_month self y m = Ok idx.
Proof. intros H. unfold events_map_for_month. rewrite H. by eexists. Qed.

Lemma occurrence_at_inv self y m idx ds i e :
  events_map_for_month self y m = Ok idx →
  occurrence_at idx ds i e →
  e ∈ month_events self y m ∧ ev_date e = Some ds.
Proof.
  intros [Hv Hidx]%events_map_for_month_ok (l & Hl & Hi).
  rewrite Hidx in Hl.
  destruct (on_date ds (month_events self y m)) as [| e' l'] eqn:El; [done |].
  rewrite <- El in Hl. injection Hl as <-.
  apply list_elem_of_lookup_2 in Hi.
  rewrite sort_by_key_Permutation in Hi.
  apply list_elem_of_filter in Hi as [? ?]. done.
Qed.

Lemma expand_routines_from_total y m rs : ∀ acc,
  valid_month y m → ¬ last_month y m →
  Forall (λ r, is_ok (routine_window r) = true) rs →
  ∃ occs,
    expand_routines_from (Date y m 1) (Date y m (days_in_month y m)) rs acc
    = Ok occs.
Proof.
  induction rs as [| r rs IH]; intros acc Hv Hl Hrs; cbn [expand_routines_from].
  - by eexists.
  - apply Forall_cons in Hrs as [Hr Hrs].
    rewrite expand_routine_spec by done.
    destruct (routine_window r) as [[[start end_] |] |]; [| | done];
      cbn [mbind result_bind].
    + rewrite decide_False by done. cbn [mbind result_bind]. by apply IH.
    + by apply IH.
Qed.

(** The index is built for every month but the last, provided no routine
    has an end date that does not parse. *)
Lemma events_map_for_month_total self y m :
  valid_month y m → ¬ last_month y m →
  Forall (λ r, is_ok (routine_window r) = true) (routines self) →
  ∃ idx, events_map_for_month self y m = Ok idx.
Proof.
  intros Hv Hl Hrs.
  destruct (expand_routines_from_total y m (routines self) [] Hv Hl Hrs)
    as [occs Hoccs].
  apply (events_map_for_month_returns self y m occs).
  unfold expand_routines_for_month, monthrange_days.
  pose proof (days_in_month_bounds y m).
  rewrite !date_new_valid by (split; [done | cbn [day year month]; lia]).
  done.
Qed.

(** The entry of a key of the index holds a record of the month that
    carries the key. *)
Lemma index_entry_inhabited self y m idx ds l :
  events_map_for_month self y m = Ok idx →
  idx !! ds = Some l →
  l ≠ [] ∧ ∃ e, e ∈ month_events self y m ∧ ev_date e = Some ds.
Proof.
  intros [Hv Hlk]%events_map_for_month_ok Hl.
  rewrite Hlk in Hl.
  destruct (on_date ds (month_events self y m)) as [| e l'] eqn:El; [done |].
  rewrite <- El in Hl. injection Hl as <-.
  assert (He : e ∈ on_date ds (month_events self y m))
    by (rewrite El; apply list_elem_of_here).
  split.
  - intros Hnil%sort_by_key_nil_inv. rewrite Hnil in He.
    by apply elem_of_nil in He.
  - apply list_elem_of_filter in He as [Hds He]. by exists e.
Qed.

(** C8.  Every date key of a month index is the text of a day of the
    requested year and month: it reads as such a day, or it is what
    [to_date_str] writes for one (the key of a routine occurrence, which
    before the year 1000 lacks the leading zeros and does not read back);
    from the year 1000 on every key reads as a day of the month.  No key
    maps to an empty sequence. *)
Theorem month_index_keys_in_month self y m idx ds l :
  events_map_for_month self y m = Ok idx →
  idx !! ds = Some l →
  key_in_month y m ds ∧ (1000 <= y → month_key y m ds) ∧ l ≠ [].
Proof.
  intros Hidx Hl.
  pose proof Hidx as [Hv _]%events_map_for_month_ok.
  destruct (index_entry_inhabited self y m idx ds l Hidx Hl)
    as (Hne & e & He & Hds).
  split_and!; [| | done].
  - apply month_events_key in He as (ds' & Hds' & _ & Hk); [| done].
    by assert (ds' = ds) as -> by congruence.
  - intros Hk. apply month_events_in_month in He; [| done | done].
    apply event_in_month_key in He as (ds' & Hds' & _ & Hmk).
    by assert (ds' = ds) as -> by congruence.
Qed.

Lemma month_index_keys_in_month_witness :
  key_in_month 2024 3 "2024-03-11"
  ∧ (1000 <= 2024 → month_key 2024 3 "2024-03-11")
  ∧ [routine_occurrence gym (Date 2024 3 11)] ≠ [].
Proof.
  apply (month_index_keys_in_month untidy_app 2024 3
           (try_except (events_map_for_month untidy_app 2024 3) ∅)).
  - vm_compute. reflexivity.
  - vm_compute. reflexivity.
Defined.

(** Before the year 1000 the key of a routine occurrence is the text of
    its day without the leading zeros of the year, which [from_date_str]
    refuses. *)
Example routine_key_before_1000 :
  let idx := try_except (events_map_for_month (App [] [] [matins]) 999 1) ∅ in
  idx !! "999-01-07"%string = Some [routine_occurrence matins (Date 999 1 7)]
  ∧ idx !! "0999-01-07"%string = None
  ∧ size idx = 31%nat
  ∧ from_date_str (Some "999-01-07"%string) = Raise ValueError
  ∧ "999-01-07"%string = to_date_str (Date 999 1 7).
Proof. vm_compute. done. Qed.


Lemma occurrence_at_intro self y m idx e ds :
  events_map_for_month self y m = Ok idx →
  e ∈ month_events self y m → ev_date e = Some ds →
  ∃ i, occurrence_at idx ds i e.
Proof.
  intros [Hv Hidx]%events_map_for_month_ok He Hds.
  assert (Hin : e ∈ on_date ds (month_events self y m))
    by (by apply list_elem_of_filter).
  assert (Hs : e ∈ sort_by_key (on_date ds (month_events self y m)))
    by (by rewrite sort_by_key_Permutation).
  apply list_elem_of_lookup_1 in Hs as [i Hi].
  exists i, (sort_by_key (on_date ds (month_events self y m))).
  split; [| done]. rewrite Hidx.
  destruct (on_date ds (month_events self y m)); [| done].
  by apply elem_of_nil in Hin.
Qed.



Example untidy_index :
  let idx := try_except (events_map_for_month untidy_app 2024 3) ∅ in
  idx !! "2024-03-10"%string = Some [afternoon_B; all_day_A]
  ∧ idx !! "2024-03-11"%string = Some [routine_occurrence gym (Date 2024 3 11)]
  ∧ idx !! "10/03/2024"%string = None
  ∧ size idx = 5%nat.
Proof. vm_compute. done. Qed.

(** *** The order within a date *)

Lemma StronglySorted_impl_elem {A} (R Q : relation A) (l : list A) :
  (∀ x y, x ∈ l → y ∈ l → R x y → Q x y) →
  StronglySorted R l → StronglySorted Q l.
Proof.
  induction l as [| a l IH]; intros H Hs; [constructor |].
  apply StronglySorted_cons in Hs as [Ha Hs].
  apply StronglySorted_cons. split.
  - apply Forall_forall. intros y Hy.
    apply H; [apply list_elem_of_here | by apply list_elem_of_further |].
    by eapply Forall_forall in Ha.
  - apply IH; [| done]. intros x y Hx Hy.
    apply H; by apply list_elem_of_further.
Qed.

(** The key order is the order of the specification between records whose
    times, if any, are before 16:39. *)
Lemma by_key_spec_before a b :
  (∀ t, ev_time b = Some t → minutes t < 999) →
  by_key a b → spec_before a b.
Proof.
  unfold by_key, key_le, sort_key, spec_before, minutes, title_of.
  intros Hb. cbn [fst snd].
  destruct (ev_time a) as [[ha ma] |], (ev_time b) as [[hb mb] |];
    cbn [fst snd]; try done.
  - specialize (Hb _ eq_refl). cbn [fst snd] in Hb. lia.
  - intros [? | [_ ?]]; [lia | done].
Qed.

(** Where every time is before 16:39 the entry of a date is in the order
    of the specification. *)
Lemma sort_by_key_spec_sorted l :
  Forall (λ e, ∀ t, ev_time e = Some t → minutes t < 999) l →
  spec_sorted (sort_by_key l).
Proof.
  intros Hl. unfold spec_sorted.
  apply (StronglySorted_impl_elem by_key); [| apply sort_by_key_sorted].
  intros x y _ Hy. apply by_key_spec_before.
  rewrite sort_by_key_Permutation in Hy.
  by eapply Forall_forall in Hl.
Qed.

Example scenario_order :
  try_except (events_map_for_month scenario_app 2024 3) ∅ !! "2024-03-10"%string
  = Some [afternoon_B; all_day_A].
Proof. vm_compute. reflexivity. Qed.

(** C1 at an input where the code departs from it.  With an all-day event
    and an event at 17:00 on one date, the entry of the date has the
    all-day event first: the key of an all-day event is 999, the key of
    17:00 is 1020.  The entry is not in the order of the specification. *)
Theorem all_day_sorts_before_evening :
  ∃ idx, events_map_for_month evening_app 2024 3 = Ok idx
    ∧ idx !! "2024-03-10"%string = Some [all_day_A; evening_B]
    ∧ valid_time (17, 0)
    ∧ ¬ spec_sorted [all_day_A; evening_B].
Proof.
  exists (try_except (events_map_for_month evening_app 2024 3) ∅).
  split; [vm_compute; reflexivity |].
  split; [vm_compute; reflexivity |].
  split; [unfold valid_time; simpl; lia |].
  intros [H _]%StronglySorted_cons.
  apply Forall_cons in H as [H _]. exact H.
Qed.

(** ** The feed client *)

Example fetch_second_only :
  let after := fetch_all (second_only [meeting; holiday] (Date 2024 1 10))
                 two_sources in
  events after
  = [ {| ev_id := "ics:1:evt-1@b.example"; ev_title := Some "Reuniao"%string;
         ev_date := Some "2024-01-15"%string; ev_time := Some (9, 30);
         ev_source := SrcIcs;
         ev_meta := Meta (Some "https://meet.example/r/42"%string)
                      (Some "https://b.example/cal.ics"%string);
         ev_color := SrcIcs |};
      {| ev_id := "ics:1:u1-1"; ev_title := Some "Evento"%string;
         ev_date := Some "2024-01-25"%string; ev_time := None;
         ev_source := SrcIcs;
         ev_meta := Meta (Some "https://b.example/feriado"%string)
                      (Some "https://b.example/cal.ics"%string);
         ev_color := SrcIcs |} ]
  ∧ status after = "ICS: 2 eventos, 1 falhas"%string.
Proof. vm_compute. done. Qed.

Example add_source_twice :
  let c1 := (add_source (ics_client_init None) (Some "https://x/cal.ics"%string)).2 in
  let c2 := (add_source c1 (Some "  https://x/cal.ics "%string)).2 in
  stored_urls c2 = Some ["https://x/cal.ics"%string].
Proof. vm_compute. reflexivity. Qed.

Example add_source_not_a_url :
  add_source two_sources (Some "not-a-url"%string)
  = ((false, "URL inválida"%string), two_sources).
Proof. vm_compute. reflexivity. Qed.

(** *** [add_source] *)

Lemma rstrip_cons_nonspace c s :
  Py.isspace c = false → Py.rstrip (String c s) = String c (Py.rstrip s).
Proof.
  intros Hc. cbn [Py.rstrip]. destruct (Py.rstrip s); [by rewrite Hc | done].
Qed.

Lemma lower_char_nonspace c x :
  Py.lower_char c = x → Py.isspace x = false → Py.isspace c = false.
Proof.
  intros <-. destruct c as [[] [] [] [] [] [] [] []]; vm_compute; done.
Qed.

Lemma prefix_cons_inv a p s :
  String.prefix (String a p) s = true →
  ∃ s', s = String a s' ∧ String.prefix p s' = true.
Proof.
  destruct s as [| b s']; cbn [String.prefix]; [done |].
  destruct (ascii_dec a b) as [-> |]; [| done]. by exists s'.
Qed.

Lemma lower_cons_inv u a s :
  Py.lower u = String a s →
  ∃ c u', u = String c u' ∧ Py.lower_char c = a ∧ Py.lower u' = s.
Proof.
  destruct u as [| c u']; cbn [Py.lower]; [done |].
  intros [= <- <-]. by exists c, u'.
Qed.

Lemma begins_http_inv u :
  String.prefix "http" (Py.lower u) = true →
  ∃ c1 c2 c3 c4 rest,
    u = String c1 (String c2 (String c3 (String c4 rest)))
    ∧ Py.lower_char c1 = "h"%char ∧ Py.lower_char c2 = "t"%char
    ∧ Py.lower_char c3 = "t"%char ∧ Py.lower_char c4 = "p"%char.
Proof.
  intros (s1 & E1 & H)%prefix_cons_inv.
  apply prefix_cons_inv in H as (s2 & -> & H).
  apply prefix_cons_inv in H as (s3 & -> & H).
  apply prefix_cons_inv in H as (s4 & -> & _).
  apply lower_cons_inv in E1 as (c1 & u1 & -> & L1 & E1).
  apply lower_cons_inv in E1 as (c2 & u2 & -> & L2 & E1).
  apply lower_cons_inv in E1 as (c3 & u3 & -> & L3 & E1).
  apply lower_cons_inv in E1 as (c4 & u4 & -> & L4 & _).
  by exists c1, c2, c3, c4, u4.
Qed.

Lemma prefix_http_of_scheme s :
  String.prefix "http://" s = true ∨ String.prefix "https://" s = true →
  String.prefix "http" s = true.
Proof.
  intros [H | H];
    apply prefix_cons_inv in H as (s1 & -> & H);
    apply prefix_cons_inv in H as (s2 & -> & H);
    apply prefix_cons_inv in H as (s3 & -> & H);
    apply prefix_cons_inv in H as (s4 & -> & _);
    cbn [String.prefix]; repeat (destruct (ascii_dec _ _); [| done]);
    by destruct s4.
Qed.

(** A text with an http or https scheme passes the test of [add_source]. *)
Lemma has_http_scheme_begins_with_http url :
  has_http_scheme url = true → begins_with_http (Some url) = true.
Proof.
  unfold has_http_scheme, begins_with_http, Py.startswith.
  intros H%orb_true_iff%prefix_http_of_scheme.
  apply begins_http_inv in H as (c1 & c2 & c3 & c4 & rest & -> & L1 & L2 & L3 & L4).
  pose proof (lower_char_nonspace _ _ L1 eq_refl) as N1.
  pose proof (lower_char_nonspace _ _ L2 eq_refl) as N2.
  pose proof (lower_char_nonspace _ _ L3 eq_refl) as N3.
  pose proof (lower_char_nonspace _ _ L4 eq_refl) as N4.
  cbn [Py.or_else Py.truthy]. unfold Py.strip.
  cbn [Py.lstrip]. rewrite N1.
  rewrite !rstrip_cons_nonspace by done.
  cbn [Py.lower]. rewrite L1, L2, L3, L4.
  cbn [String.prefix]. repeat (destruct (ascii_dec _ _); [| done]).
  by destruct (Py.lower _).
Qed.

(** C4, as the code has it.  [add_source] succeeds exactly when the text,
    without surrounding white space and in lower case, begins with
    ["http"]; when it fails it returns the error message and the client is
    unchanged. *)
Theorem add_source_checks_prefix self url :
  ((add_source self url).1.1 = true ↔ begins_with_http url = true)
  ∧ ((add_source self url).1.1 = false →
     add_source self url = ((false, "URL inválida"%string), self)).
Proof.
  unfold add_source, begins_with_http.
  destruct (Py.startswith _ _); cbn [negb].
  - destruct (bool_decide _); cbn [fst snd]; split; done.
  - cbn [fst snd]. split; done.
Qed.

(** C4, as the specification words it, fails: a text that begins with
    ["http"] and has no scheme is accepted, and persisted. *)
Lemma add_source_accepts_other_text :
  ¬ ((add_source (ics_client_init None) (Some "httpfoo"%string)).1.1 = true
     ↔ has_http_scheme "httpfoo" = true)
  ∧ stored_urls (add_source (ics_client_init None) (Some "httpfoo"%string)).2
    = Some ["httpfoo"%string].
Proof.
  split; [| vm_compute; reflexivity].
  intros [H _]. specialize (H eq_refl). vm_compute in H. discriminate H.
Qed.

(** *** [fetch_all] *)

(** C5.  With no stored source, [fetch_all] returns the client with an
    empty occurrence list and the "no sources" status; nothing else of the
    client changes and nothing is raised. *)
Theorem fetch_all_without_sources w self :
  load_sources self = [] →
  fetch_all w self = IcsClient (stored_urls self) (urls self) [] status_no_sources
  ∧ events (fetch_all w self) = []
  ∧ status (fetch_all w self) = "ICS: sem fontes"%string.
Proof. intros H. unfold fetch_all. rewrite H. done. Qed.

Lemma fetch_all_without_sources_witness :
  let w := serving [meeting] (Date 2024 1 10) in
  let self := IcsClient None [] [all_day_A] "ICS: 1 eventos" in
  fetch_all w self = IcsClient (stored_urls self) (urls self) [] status_no_sources
  ∧ events (fetch_all w self) = []
  ∧ status (fetch_all w self) = "ICS: sem fontes"%string.
Proof.
  apply (fetch_all_without_sources (serving [meeting] (Date 2024 1 10))
           (IcsClient None [] [all_day_A] "ICS: 1 eventos")).
  reflexivity.
Defined.

(** The conversion of the start raises exactly for an aware [datetime]
    that [astimezone] refuses. *)
Lemma dt_to_local_date_time_raises w v comp :
  c_dtstart comp = Some (DtProp v) →
  component_raises w comp = negb (is_ok (dt_to_local_date_time w v)).
Proof.
  intros Hv. unfold component_raises. rewrite Hv.
  destruct v as [v | d |]; [| done | done]. cbn [dt_to_local_date_time].
  destruct (dt_tzinfo v); [| done].
  by destruct (astimezone w v).
Qed.

Lemma component_event_raises w i url t comp :
  component_raises w comp = true ↔
  ∃ e, component_event w i url t comp = Raise e.
Proof.
  unfold component_event.
  destruct (c_dtstart comp) as [[v |] |] eqn:Hv.
  - rewrite (dt_to_local_date_time_raises w v) by done.
    cbn [dtstart_dt mbind result_bind].
    destruct (dt_to_local_date_time w v) as [[d tm] | e];
      cbn [mbind result_bind is_ok negb].
    + split; [done | intros [? ?]; done].
    + split; [by eexists | done].
  - unfold component_raises. rewrite Hv. split; [by eexists | done].
  - unfold component_raises. rewrite Hv. split; [done | intros [? ?]; done].
Qed.

Lemma component_event_clean w i url t comp :
  component_raises w comp = false →
  ∃ o, component_event w i url t comp = Ok o.
Proof.
  intros H. destruct (component_event w i url t comp) as [o | e] eqn:E.
  - by exists o.
  - assert (component_raises w comp = true)
      by (apply (component_event_raises w i url t); by exists e).
    congruence.
Qed.

(** What the body of the loop does with a component that does not raise:
    nothing without a start, the occurrence of the component with one. *)
Lemma component_event_spec w i url t comp :
  component_raises w comp = false →
  match c_dtstart comp with
  | None => component_event w i url t comp = Ok None
  | Some _ =>
      ∃ ev, component_event w i url t comp = Ok (Some ev)
        ∧ occurrence_of w url comp ev
  end.
Proof.
  intros Hc. unfold component_event.
  destruct (c_dtstart comp) as [[v |] |] eqn:Hv; [| | done].
  - rewrite (dt_to_local_date_time_raises w v) in Hc by done.
    cbn [dtstart_dt mbind result_bind].
    destruct (dt_to_local_date_time w v) as [[d tm] | e] eqn:Hd; [| done].
    cbn [mbind result_bind]. eexists. split; [done |].
    exists v, d, tm. by rewrite Hv.
  - unfold component_raises in Hc. by rewrite Hv in Hc.
Qed.







Lemma list_ascii_of_string_app a b :
  list_ascii_of_string (a +:+ b)
  = list_ascii_of_string a ++ list_ascii_of_string b.
Proof.
  induction a as [| c a IH]; [done |].
  change (String c a +:+ b) with (String c (a +:+ b)).
  cbn [list_ascii_of_string]. by rewrite IH.
Qed.













(** A component whose conversion to local time overflows costs its feed
    one failure, like a repeated start line; what the feed published
    before it stays. *)
Example overflow_is_a_failure :
  let c := fetch_all (serving_east [meeting; last_hour; holiday] (Date 2024 1 10))
             one_source in
  ev_title <$> events c = [Some "Reuniao"%string]
  ∧ status c = "ICS: 1 eventos, 1 falhas"%string
  ∧ component_raises
      (serving_east [meeting; last_hour; holiday] (Date 2024 1 10)) last_hour
    = true.
Proof. vm_compute. done. Qed.

(** *** What a component leaves in the published list *)

Lemma walk_components_keeps w i url comps : ∀ c ev,
  ev ∈ all_events c → ev ∈ all_events (walk_components w i url comps c).
Proof.
  induction comps as [| comp comps IH]; intros c ev Hev;
    cbn [walk_components]; [done |].
  destruct (component_event w i url (total c) comp) as [[ev' |] |].
  - apply IH. cbn [all_events]. apply elem_of_app. by left.
  - by apply IH.
  - done.
Qed.

Lemma fetch_from_keeps w urls : ∀ i c ev,
  ev ∈ all_events c → ev ∈ all_events (fetch_from w i urls c).
Proof.
  induction urls as [| url urls IH]; intros i c ev Hev; cbn [fetch_from];
    [done |].
  apply IH. unfold fetch_one.
  destruct (http_get w i url); try done.
  by apply walk_components_keeps.
Qed.

(** A component with a start, reached without an exception, leaves its
    occurrence in the list. *)
Lemma walk_components_emits w i url pre comp post v : ∀ c,
  existsb (component_raises w) pre = false →
  c_dtstart comp = Some (DtProp v) →
  component_raises w comp = false →
  ∃ t ev, component_event w i url t comp = Ok (Some ev)
    ∧ ev ∈ all_events (walk_components w i url (pre ++ comp :: post) c).
Proof.
  induction pre as [| p pre IH]; intros c Hpre Hv Hc.
  - cbn [app walk_components].
    pose proof (component_event_spec w i url (total c) comp Hc) as Hs.
    rewrite Hv in Hs. destruct Hs as (ev & E & _). rewrite E.
    exists (total c), ev. split; [done |].
    apply walk_components_keeps. cbn [all_events].
    apply elem_of_app. right. apply list_elem_of_here.
  - cbn [existsb] in Hpre. apply orb_false_iff in Hpre as [Hp Hpre].
    cbn [app walk_components].
    destruct (component_event_clean w i url (total c) p Hp) as [[ev |] ->].
    + by apply IH.
    + by apply IH.
Qed.

Lemma fetch_from_emits w (R : event → Prop) urls : ∀ (i k : nat) c url comps,
  urls !! k = Some url →
  http_get w (i + k) url = Calendar comps →
  (∀ c', ∃ ev, R ev ∧ ev ∈ all_events (walk_components w (i + k) url comps c')) →
  ∃ ev, R ev ∧ ev ∈ all_events (fetch_from w i urls c).
Proof.
  induction urls as [| u urls IH]; intros i k c url comps Hk Hget Hw; [done |].
  cbn [fetch_from]. destruct k as [| k].
  - injection Hk as ->. rewrite Nat.add_0_r in Hget, Hw.
    destruct (Hw c) as (ev & HR & Hev). exists ev. split; [done |].
    apply fetch_from_keeps. unfold fetch_one. by rewrite Hget.
  - cbn in Hk. apply (IH (S i) k _ url comps); [done | |].
    + by replace (S i + k)%nat with (i + S k)%nat by lia.
    + by replace (S i + k)%nat with (i + S k)%nat by lia.
Qed.

(** An exception in a component ends the loop of its feed: nothing
    after it is appended. *)
Lemma walk_components_stops w i url pre comp post c :
  existsb (component_raises w) pre = false →
  component_raises w comp = true →
  all_events (walk_components w i url (pre ++ comp :: post) c)
  = all_events (walk_components w i url pre c).
Proof.
  revert c. induction pre as [| p pre IH]; intros c Hpre Hc.
  - cbn [app walk_components].
    apply (component_event_raises w i url (total c)) in Hc as [e ->]. done.
  - cbn [existsb] in Hpre. apply orb_false_iff in Hpre as [Hp Hpre].
    cbn [app walk_components].
    destruct (component_event_clean w i url (total c) p Hp) as [[ev |] ->];
      by apply IH.
Qed.

(** C9, for a component that the loop reaches.  A feed component whose
    start decodes to neither a [datetime] nor a [date], and before which
    no component of its feed raises, is not skipped: the published list
    holds its occurrence, dated with the current local date and without a
    time.  On another day the occurrence of the component is another. *)
Theorem start_of_other_type_dated_today w self (i : nat) url pre comp post :
  load_sources self !! i = Some url →
  http_get w i url = Calendar (pre ++ comp :: post) →
  existsb (component_raises w) pre = false →
  c_dtstart comp = Some (DtProp VOther) →
  ∃ t ev, component_event w i url t comp = Ok (Some ev)
    ∧ ev ∈ events (fetch_all w self)
    ∧ ev_date ev = Some (to_date_str (today w))
    ∧ ev_time ev = None
    ∧ ∀ day', valid_date (today w) → valid_date day' → day' ≠ today w →
        ∃ ev', component_event (Env (http_get w) (astimezone w) day') i url t comp
               = Ok (Some ev')
          ∧ ev_date ev' = Some (to_date_str day')
          ∧ ev' ≠ ev.
Proof.
  intros Hurl Hget Hpre Hv.
  assert (Hc : component_raises w comp = false)
    by (unfold component_raises; by rewrite Hv).
  set (R := λ ev, ∃ t, component_event w i url t comp = Ok (Some ev)).
  assert (Hex : ∃ ev, R ev ∧ ev ∈ events (fetch_all w self)).
  { unfold fetch_all.
    destruct (load_sources self) as [| u us] eqn:El; [done |].
    cbn [events].
    apply (fetch_from_emits w R (u :: us) 0 i _ url (pre ++ comp :: post));
      [done | done |].
    intros c'. cbn [Nat.add].
    destruct (walk_components_emits w i url pre comp post VOther c' Hpre Hv Hc)
      as (t & ev & He & Hin).
    exists ev. split; [by exists t | done]. }
  destruct Hex as (ev & [t He] & Hin).
  exists t, ev. split; [done |]. split; [done |].
  unfold component_event in He |- *. rewrite Hv in He |- *.
  cbn [dtstart_dt mbind result_bind dt_to_local_date_time today] in He |- *.
  injection He as <-. cbn [ev_date ev_time].
  split; [done |]. split; [done |].
  intros day' Hd Hd' Hne. eexists. split; [done |].
  cbn [ev_date]. split; [done |].
  intros E. apply Hne. apply to_date_str_inj; [done | done |].
  apply (f_equal ev_date) in E. cbn [ev_date] in E. congruence.
Qed.

Lemma start_of_other_type_dated_today_witness :
  let w := second_only [meeting; odd_start; holiday] (Date 2024 1 10) in
  ∃ t ev,
    component_event w 1 "https://b.example/cal.ics" t odd_start = Ok (Some ev)
    ∧ ev ∈ events (fetch_all w two_sources)
    ∧ ev_date ev = Some (to_date_str (today w))
    ∧ ev_time ev = None
    ∧ ∀ day', valid_date (today w) → valid_date day' → day' ≠ today w →
        ∃ ev', component_event (Env (http_get w) (astimezone w) day') 1
                 "https://b.example/cal.ics" t odd_start
               = Ok (Some ev')
          ∧ ev_date ev' = Some (to_date_str day')
          ∧ ev' ≠ ev.
Proof.
  apply (start_of_other_type_dated_today
           (second_only [meeting; odd_start; holiday] (Date 2024 1 10))
           two_sources 1 "https://b.example/cal.ics"%string
           [meeting] odd_start [holiday]).
  - reflexivity.
  - reflexivity.
  - reflexivity.
  - reflexivity.
Defined.

(** C9 as worded fails for a component that comes after one that raises:
    the exception ends the loop of the feed, and the component, whose
    start is neither a [datetime] nor a [date], is skipped.  Here the
    feed serves a component with a repeated start line, then such a
    component: nothing is published. *)
Lemma start_of_other_type_skipped_after_failure :
  let w := serving [repeated_start; odd_start] (Date 2024 1 10) in
  load_sources one_source !! 0%nat = Some "https://b.example/cal.ics"%string
  ∧ http_get w 0 "https://b.example/cal.ics" = Calendar [repeated_start; odd_start]
  ∧ c_dtstart odd_start = Some (DtProp VOther)
  ∧ events (fetch_all w one_source) = []
  ∧ status (fetch_all w one_source) = status_all_failed.
Proof. vm_compute. done. Qed.

Example fetch_on_two_days :
  ev_date <$> events (fetch_all (serving [odd_start] (Date 2024 1 10)) one_source)
  = [Some "2024-01-10"%string]
  ∧ ev_date <$> events (fetch_all (serving [odd_start] (Date 2024 1 11)) one_source)
    = [Some "2024-01-11"%string].
Proof. vm_compute. done. Qed.

(** ** Identifiers *)

Lemma string_app_inj_length a b x y :
  String.length x = String.length y → a +:+ x = b +:+ y → a = b ∧ x = y.
Proof.
  intros Hlen. revert b. induction a as [| c a IH]; intros [| c' b] H.
  - done.
  - change (x = String c' (b +:+ y)) in H.
    apply (f_equal String.length) in H.
    cbn [String.length] in H. rewrite string_length_app in H. lia.
  - change (String c (a +:+ x) = y) in H.
    apply (f_equal String.length) in H.
    cbn [String.length] in H. rewrite string_length_app in H. lia.
  - change (String c (a +:+ x) = String c' (b +:+ y)) in H.
    injection H as -> H. apply IH in H as [-> ->]. done.
Qed.

(** The ids of the occurrences of routines on days of one year tell the
    routine's id and the day. *)
Lemma routine_occurrence_id_inj r1 r2 d1 d2 :
  valid_date d1 → valid_date d2 → year d1 = year d2 →
  ev_id (routine_occurrence r1 d1) = ev_id (routine_occurrence r2 d2) →
  routine_id_text r1 = routine_id_text r2 ∧ d1 = d2.
Proof.
  intros Hd1 Hd2 Hy. cbn [routine_occurrence ev_id]. unfold routine_id_text.
  intros H. apply (inj (String.app "routine:")) in H.
  apply string_app_inj_length in H as [Hid H].
  - split; [done |]. apply (inj (String.app ":")) in H.
    by apply to_date_str_inj.
  - rewrite !string_length_app. by rewrite !to_date_str_length, Hy.
Qed.

Lemma routine_occurrence_id_prefix r d :
  Py.startswith (ev_id (routine_occurrence r d)) "routine:" = true.
Proof.
  cbn [routine_occurrence ev_id]. unfold Py.startswith.
  generalize (fmt_opt (r_id r) +:+ ":" +:+ to_date_str d). intros s.
  cbv [String.append]. cbn [String.prefix].
  repeat (destruct (ascii_dec _ _); [| done]). by destruct s.
Qed.

Lemma NoDup_routine_part_ids y m r :
  valid_month y m → NoDup (ev_id <$> routine_part y m r).
Proof.
  intros Hv. unfold routine_part.
  destruct (routine_window r) as [[[start end_] |] |]; try constructor.
  unfold selected. rewrite <- list_fmap_compose.
  apply NoDup_fmap_2_strong.
  - intros d1 d2 [_ H1]%list_elem_of_filter [_ H2]%list_elem_of_filter E.
    apply elem_of_month_days in H1 as (H1 & Hy1 & _), H2 as (H2 & Hy2 & _);
      try done.
    apply routine_occurrence_id_inj in E as [_ ?]; [done | done | done |].
    congruence.
  - apply NoDup_filter, NoDup_month_days.
Qed.

(** Routines with different ids give occurrences with different ids. *)
Lemma NoDup_routine_ids y m rs :
  valid_month y m →
  NoDup (routine_id_text <$> rs) →
  NoDup (ev_id <$> rs ≫= routine_part y m).
Proof.
  intros Hv. induction rs as [| r rs IH]; intros Hnd; [constructor |].
  rewrite fmap_cons in Hnd. apply NoDup_cons in Hnd as [Hr Hnd].
  rewrite bind_cons, fmap_app. apply NoDup_app.
  split; [by apply NoDup_routine_part_ids |]. split; [| by apply IH].
  intros id (e1 & -> & H1)%list_elem_of_fmap (e2 & E & H2)%list_elem_of_fmap.
  apply routine_part_days in H1 as (d1 & (Hd1 & Hy1 & _) & ->); [| done].
  apply list_elem_of_bind in H2 as (r' & H2 & Hr').
  apply routine_part_days in H2 as (d2 & (Hd2 & Hy2 & _) & ->); [| done].
  apply routine_occurrence_id_inj in E as [E _];
    [| done | done | congruence].
  apply Hr. rewrite E. apply list_elem_of_fmap. by exists r'.
Qed.

(** The records that reach the grouping have different ids when the stored
    and cached records have, none of them like a routine occurrence's, and
    the routines have different ids. *)
Lemma NoDup_month_events_ids self y m :
  valid_month y m →
  NoDup (ev_id <$> (user_events self ++ ics_events_cache self)) →
  (∀ e, e ∈ user_events self ++ ics_events_cache self →
        Py.startswith (ev_id e) "routine:" = false) →
  NoDup (routine_id_text <$> routines self) →
  NoDup (ev_id <$> month_events self y m).
Proof.
  intros Hv Hstored Hprefix Hrs. unfold month_events.
  rewrite app_assoc, <- filter_app, fmap_app. apply NoDup_app.
  split; [| split].
  - eapply sublist_NoDup; [exact Hstored |].
    apply fmap_sublist, sublist_filter.
  - intros id (e1 & -> & [_ H1]%list_elem_of_filter)%list_elem_of_fmap
             (e2 & E & H2)%list_elem_of_fmap.
    apply list_elem_of_bind in H2 as (r & H2 & _).
    apply routine_part_days in H2 as (d & _ & ->); [| done].
    apply Hprefix in H1. rewrite E, routine_occurrence_id_prefix in H1. done.
  - by apply NoDup_routine_ids.
Qed.

Lemma NoDup_fmap_elem {A B} (f : A → B) (l : list A) x y :
  NoDup (f <$> l) → x ∈ l → y ∈ l → f x = f y → x = y.
Proof.
  induction l as [| a l IH]; intros Hnd Hx Hy E; [by apply elem_of_nil in Hx |].
  rewrite fmap_cons in Hnd. apply NoDup_cons in Hnd as [Ha Hnd].
  apply elem_of_cons in Hx as [-> | Hx], Hy as [-> | Hy]; try done.
  - destruct Ha. rewrite E. apply list_elem_of_fmap. by exists y.
  - destruct Ha. rewrite <- E. apply list_elem_of_fmap. by exists x.
  - by apply IH.
Qed.

(** C7, as the code has it.  The ids of the occurrences of a month index
    are pairwise distinct when the ids of the stored user events and cached
    feed occurrences are pairwise distinct and none begins with
    ["routine:"], and the ids of the routines are pairwise distinct. *)
Theorem ids_distinct_when_inputs_are self y m idx :
  events_map_for_month self y m = Ok idx →
  NoDup (ev_id <$> (user_events self ++ ics_events_cache self)) →
  (∀ e, e ∈ user_events self ++ ics_events_cache self →
        Py.startswith (ev_id e) "routine:" = false) →
  NoDup (routine_id_text <$> routines self) →
  ids_pairwise_distinct idx.
Proof.
  intros Hidx Hstored Hprefix Hrs.
  pose proof Hidx as [Hv Hlk]%events_map_for_month_ok.
  pose proof (NoDup_month_events_ids self y m Hv Hstored Hprefix Hrs) as Hnd.
  intros ds1 i1 e1 ds2 i2 e2 H1 H2 E.
  pose proof (occurrence_at_inv self y m idx ds1 i1 e1 Hidx H1) as [Hin1 Hd1].
  pose proof (occurrence_at_inv self y m idx ds2 i2 e2 Hidx H2) as [Hin2 Hd2].
  assert (e1 = e2) as <- by (by eapply NoDup_fmap_elem).
  assert (ds1 = ds2) as <- by congruence.
  split; [done |].
  destruct H1 as (l1 & Hl1 & Hi1), H2 as (l2 & Hl2 & Hi2).
  assert (l1 = l2) as <- by congruence.
  apply (NoDup_lookup l1 i1 i2 e1); [| done | done].
  rewrite Hlk in Hl1.
  destruct (on_date ds1 (month_events self y m)) as [| e l] eqn:El; [done |].
  rewrite <- El in Hl1. injection Hl1 as <-.
  rewrite sort_by_key_Permutation. apply NoDup_filter.
  by apply NoDup_fmap_1 in Hnd.
Qed.

Lemma ids_distinct_when_inputs_are_witness :
  ids_pairwise_distinct (try_except (events_map_for_month untidy_app 2024 3) ∅).
Proof.
  apply (ids_distinct_when_inputs_are untidy_app 2024 3).
  - vm_compute. reflexivity.
  - apply (bool_decide_unpack _). vm_compute. exact I.
  - apply Forall_forall. apply (bool_decide_unpack _). vm_compute. exact I.
  - apply (bool_decide_unpack _). vm_compute. exact I.
Defined.

(** C7, as the specification words it, fails: a feed that serves one UID
    twice gives two occurrences with one id. *)
Lemma ids_not_distinct_in_feed :
  ∃ idx, events_map_for_month twice_served 2024 1 = Ok idx
    ∧ ¬ ids_pairwise_distinct idx.
Proof.
  exists (try_except (events_map_for_month twice_served 2024 1) ∅).
  split; [vm_compute; reflexivity |].
  intros H.
  destruct (H "2024-01-15"%string 0%nat
              (Event "ics:0:evt-1@b.example" (Some "Reuniao"%string)
                 (Some "2024-01-15"%string) (Some (9, 30)) SrcIcs
                 (Meta (Some "https://meet.example/r/42"%string)
                    (Some "https://b.example/cal.ics"%string)) SrcIcs)
              "2024-01-16"%string 0%nat
              (Event "ics:0:evt-1@b.example" (Some "Reuniao (nova data)"%string)
                 (Some "2024-01-16"%string) (Some (9, 30)) SrcIcs
                 (Meta None (Some "https://b.example/cal.ics"%string)) SrcIcs))
    as [Hds _].
  - eexists. split; vm_compute; reflexivity.
  - eexists. split; vm_compute; reflexivity.
  - reflexivity.
  - discriminate Hds.
Qed.

(** * Properties of the rest of the program *)

Example split_on_examples :
  split_on ":" "07:30" = ["07"; "30"]%string
  ∧ split_on ":" "7:30:00" = ["7"; "30"; "00"]%string
  ∧ split_on ":" "" = [""]%string
  ∧ split_on "," "a,,b," = ["a"; ""; "b"; ""]%string.
Proof. repeat split; reflexivity. Qed.

Example py_int_examples :
  py_int 4300 " 12 " = Ok 12 ∧ py_int 4300 "-0" = Ok 0
  ∧ py_int 4300 "+7" = Ok 7 ∧ py_int 4300 "1_0" = Ok 10
  ∧ py_int 4300 "007" = Ok 7
  ∧ py_int 4300 "" = Raise ValueError ∧ py_int 4300 "1__0" = Raise ValueError
  ∧ py_int 4300 "_1" = Raise ValueError ∧ py_int 4300 "1_" = Raise ValueError
  ∧ py_int 4300 "1 2" = Raise ValueError ∧ py_int 4300 "+ 1" = Raise ValueError
  ∧ py_int 4300 "7h" = Raise ValueError ∧ py_int 4300 "-" = Raise ValueError.
Proof. repeat split; reflexivity. Qed.

Example parse_time_hhmm_examples :
  parse_time_hhmm 4300 (Some "07:30"%string) = Some (7, 30)
  ∧ parse_time_hhmm 4300 (Some " 7 : 5 "%string) = Some (7, 5)
  ∧ parse_time_hhmm 4300 (Some "-0:+5"%string) = Some (0, 5)
  ∧ parse_time_hhmm 4300 (Some "24:00"%string) = None
  ∧ parse_time_hhmm 4300 (Some "7:30:00"%string) = None
  ∧ parse_time_hhmm 4300 (Some "7h30"%string) = None
  ∧ parse_time_hhmm 4300 (Some ""%string) = None
  ∧ parse_time_hhmm 4300 None = None.
Proof. repeat split; reflexivity. Qed.

Example to_time_str_examples :
  to_time_str (Some (7, 5)) = "07:05"%string
  ∧ to_time_str (Some (23, 59)) = "23:59"%string
  ∧ to_time_str None = ""%string.
Proof. repeat split; reflexivity. Qed.

Example parse_weekdays_examples :
  parse_weekdays (Some "todos"%string) = Some [0; 1; 2; 3; 4; 5; 6]
  ∧ parse_weekdays (Some " Sex, seg ,SEG,, dom"%string) = Some [0; 4; 6]
  ∧ parse_weekdays (Some "terça,sábado"%string) = Some [1; 5]
  ∧ parse_weekdays (Some "seg,lua"%string) = None
  ∧ parse_weekdays (Some ""%string) = Some []
  ∧ parse_weekdays None = Some [].
Proof. repeat split; vm_compute; reflexivity. Qed.

(** ** Times of day *)

Lemma split_on_length c s : length (split_on c s) = S (count_char c s).
Proof.
  induction s as [| a r IH]; [done |]. cbn [split_on count_char].
  destruct (decide (a = c)).
  - cbn [length]. by rewrite IH.
  - destruct (split_on c r) as [| piece rest]; cbn [length] in *; lia.
Qed.

Lemma parse_time_hhmm_valid limit s t :
  parse_time_hhmm limit s = Some t → valid_time t.
Proof.
  unfold parse_time_hhmm, valid_time.
  destruct s as [s |]; [| done].
  destruct (negb (Py.truthy s)); [done |].
  destruct (split_on ":" (Py.strip s)) as [| a [| b [| ? ?]]]; try done.
  destruct (py_int limit a) as [h |]; [| done].
  destruct (py_int limit b) as [m |]; [| done].
  destruct ((0 <=? h) && (h <=? 23) && (0 <=? m) && (m <=? 59)) eqn:E; [| done].
  intros [= <-]. cbn [fst snd].
  apply andb_true_iff in E as [E Hm2]. apply andb_true_iff in E as [E Hm1].
  apply andb_true_iff in E as [Hh1 Hh2]. lia.
Qed.

(** X1.  A text that [parse_time_hhmm] accepts holds exactly one colon,
    between surrounding white space or not, and the time returned is a
    time of day: the hour between 0 and 23, the minute between 0 and 59. *)
Theorem parse_time_hhmm_one_colon limit s t :
  parse_time_hhmm limit (Some s) = Some t →
  count_char ":" (Py.strip s) = 1%nat ∧ valid_time t.
Proof.
  intros H. split; [| by eapply parse_time_hhmm_valid].
  unfold parse_time_hhmm in H.
  destruct (negb (Py.truthy s)); [done |].
  pose proof (split_on_length ":" (Py.strip s)) as Hlen.
  destruct (split_on ":" (Py.strip s)) as [| a [| b [| ? ?]]]; try done.
  cbn [length] in Hlen. lia.
Qed.

Lemma parse_time_hhmm_one_colon_witness :
  count_char ":" (Py.strip " 7:05 ") = 1%nat ∧ valid_time (7, 5).
Proof.
  apply (parse_time_hhmm_one_colon 4300 " 7:05 " (7, 5)). reflexivity.
Defined.

Lemma digit_char_plain k :
  0 <= k <= 9 →
  Py.isspace (Py.digit_char k) = false
  ∧ Py.digit_char k ≠ ":"%char.
Proof. intros Hk. small_Z k; split; done. Qed.

Lemma fmt_02d_pad2 n : 0 <= n <= 59 → fmt_02d n = Py.pad2 n.
Proof. intros Hn. small_Z n; reflexivity. Qed.

Lemma py_int_pad2 limit n : 0 <= n <= 59 → py_int limit (Py.pad2 n) = Ok n.
Proof. intros Hn. small_Z n; reflexivity. Qed.

Lemma strip_time_text a b c d :
  Py.isspace a = false → Py.isspace d = false →
  Py.isspace b = false → Py.isspace c = false →
  Py.strip (String a (String b (String ":" (String c (String d EmptyString)))))
  = String a (String b (String ":" (String c (String d EmptyString)))).
Proof.
  intros Ha Hd Hb Hc. unfold Py.strip. cbn [Py.lstrip]. rewrite Ha.
  by rewrite !rstrip_cons_nonspace by done.
Qed.

(** X2.  Reading back what [to_time_str] wrote gives the time: for every
    time of day, [parse_time_hhmm (to_time_str t)] is [t], whatever the
    limit of the interpreter on the digits of an integer. *)
Theorem time_text_round_trip limit h m :
  valid_time (h, m) →
  parse_time_hhmm limit (Some (to_time_str (Some (h, m)))) = Some (h, m).
Proof.
  intros [Hh Hm]. cbn [fst snd] in Hh, Hm.
  unfold to_time_str. rewrite !fmt_02d_pad2 by lia.
  unfold parse_time_hhmm. cbn [Py.truthy negb].
  assert (Hs : Py.strip (Py.pad2 h +:+ ":" +:+ Py.pad2 m)
               = Py.pad2 h +:+ ":" +:+ Py.pad2 m).
  { unfold Py.pad2. cbv [String.append].
    apply strip_time_text; apply digit_char_plain; divlia. }
  rewrite Hs.
  assert (Hsp : split_on ":" (Py.pad2 h +:+ ":" +:+ Py.pad2 m)
                = [Py.pad2 h; Py.pad2 m]).
  { unfold Py.pad2. cbv [String.append]. cbn [split_on].
    destruct (digit_char_plain (h / 10)) as [_ H1]; [divlia |].
    destruct (digit_char_plain (h mod 10)) as [_ H2]; [divlia |].
    destruct (digit_char_plain (m / 10)) as [_ H3]; [divlia |].
    destruct (digit_char_plain (m mod 10)) as [_ H4]; [divlia |].
    repeat (destruct (decide _) as [? | ?]; try done). }
  rewrite Hsp, !py_int_pad2 by lia.
  replace ((0 <=? h) && (h <=? 23) && (0 <=? m) && (m <=? 59)) with true; [done |].
  symmetry. rewrite !andb_true_iff, !Z.leb_le. lia.
Qed.

Lemma time_text_round_trip_witness :
  parse_time_hhmm 4300 (Some (to_time_str (Some (23, 59)))) = Some (23, 59).
Proof.
  apply (time_text_round_trip 4300 23 59). unfold valid_time. simpl. lia.
Defined.

(** ** Names of weekdays *)

Lemma weekday_mapping_range p i :
  weekday_mapping !! p = Some i → 0 <= i <= 6.
Proof.
  intros H. apply elem_of_list_to_map_2 in H.
  repeat (apply elem_of_cons in H as [[= _ ->] | H]; [lia |]).
  by apply elem_of_nil in H.
Qed.

Lemma weekday_indices_some parts : ∀ out res,
  weekday_indices parts out = Some res →
  (NoDup out → NoDup res)
  ∧ (∀ i, i ∈ res ↔ i ∈ out ∨ ∃ p, p ∈ parts ∧ weekday_mapping !! p = Some i).
Proof.
  induction parts as [| p parts IH]; intros out res; cbn [weekday_indices].
  - intros [= <-]. split; [done |]. intros i. split; [by left |].
    intros [? | (p & Hp & _)]; [done | by apply elem_of_nil in Hp].
  - destruct (weekday_mapping !! p) as [idx |] eqn:Ep; [| done].
    intros H. apply IH in H as [Hnd Hin]. split.
    + intros Hout. apply Hnd. case_bool_decide as Hidx; [| done].
      apply NoDup_app. split; [done |]. split; [| apply NoDup_singleton].
      intros x Hx ->%list_elem_of_singleton. done.
    + intros i. rewrite Hin. split.
      * intros [Hi | (q & Hq & Hqi)].
        -- case_bool_decide as Hidx.
           ++ apply elem_of_app in Hi as [Hi | ->%list_elem_of_singleton];
                [by left | right]. exists p. split; [apply list_elem_of_here | done].
           ++ by left.
        -- right. exists q. split; [by apply list_elem_of_further | done].
      * intros [Hi | (q & Hq & Hqi)].
        -- left. case_bool_decide; [apply elem_of_app; by left | done].
        -- apply elem_of_cons in Hq as [-> | Hq].
           ++ left. assert (i = idx) as -> by congruence.
              case_bool_decide as Hidx.
              ** apply elem_of_app. right. apply list_elem_of_here.
              ** done.
           ++ right. by exists q.
Qed.

Lemma weekday_indices_none parts : ∀ out,
  weekday_indices parts out = None ↔
  ∃ p, p ∈ parts ∧ weekday_mapping !! p = None.
Proof.
  induction parts as [| p parts IH]; intros out; cbn [weekday_indices].
  - split; [done | intros (p & Hp & _); by apply elem_of_nil in Hp].
  - destruct (weekday_mapping !! p) as [idx |] eqn:Ep.
    + rewrite IH. split.
      * intros (q & Hq & Hn). exists q. split; [by apply list_elem_of_further | done].
      * intros (q & Hq & Hn). apply elem_of_cons in Hq as [-> | Hq]; [congruence |].
        by exists q.
    + split; [| done]. intros _. exists p. split; [apply list_elem_of_here | done].
Qed.

Lemma StronglySorted_le_lt (l : list Z) :
  NoDup l → StronglySorted Z.le l → StronglySorted Z.lt l.
Proof.
  induction l as [| a l IH]; intros Hnd Hs; [constructor |].
  apply NoDup_cons in Hnd as [Ha Hnd].
  apply StronglySorted_cons in Hs as [Hal Hs].
  apply StronglySorted_cons. split; [| by apply IH].
  apply Forall_forall. intros x Hx.
  assert (a <= x) by (by eapply Forall_forall in Hal).
  assert (a ≠ x) by (intros ->; done). lia.
Qed.

Lemma parse_weekdays_increasing s l :
  parse_weekdays s = Some l →
  StronglySorted Z.lt l ∧ Forall (λ i, 0 <= i <= 6) l.
Proof.
  unfold parse_weekdays.
  destruct (decide _) as [_ | _].
  - intros [= <-]. split.
    + repeat (apply StronglySorted_cons; split;
              [repeat (constructor; [lia |]); constructor |]).
      constructor.
    + repeat (constructor; [lia |]). constructor.
  - destruct (weekday_indices _ []) as [out |] eqn:E; [| done].
    cbn [mbind option_bind]. intros [= <-].
    apply weekday_indices_some in E as [Hnd Hin].
    specialize (Hnd (NoDup_nil_2)).
    split.
    + apply StronglySorted_le_lt.
      * by rewrite merge_sort_Permutation.
      * apply StronglySorted_merge_sort; apply _.
    + apply Forall_forall. intros i Hi.
      rewrite merge_sort_Permutation in Hi.
      apply Hin in Hi as [Hi | (p & _ & Hp)]; [by apply elem_of_nil in Hi |].
      by eapply weekday_mapping_range.
Qed.

(** X3.  What [parse_weekdays] returns, when it returns a list, is a list
    of weekday indices between 0 and 6 in strictly increasing order: no
    day twice, whatever the order and the repetitions of the names. *)
Theorem parse_weekdays_sorted s l :
  parse_weekdays s = Some l →
  StronglySorted Z.lt l ∧ Forall (λ i, 0 <= i <= 6) l.
Proof. apply parse_weekdays_increasing. Qed.

Lemma parse_weekdays_sorted_witness :
  StronglySorted Z.lt [0; 4; 6] ∧ Forall (λ i, 0 <= i <= 6) [0; 4; 6].
Proof.
  apply (parse_weekdays_sorted (Some " Sex, seg ,SEG,, dom"%string)).
  vm_compute. reflexivity.
Defined.

(** X4.  Unless the answer is ["todos"], [parse_weekdays] is all or
    nothing: it returns [None] exactly when one of the names given is not
    a name of a weekday, and otherwise a day is in the list exactly when
    one of the names denotes it. *)
Theorem parse_weekdays_names s :
  ¬ is_todos s →
  (parse_weekdays s = None ↔
   ∃ p, p ∈ weekday_parts s ∧ weekday_mapping !! p = None)
  ∧ (∀ l, parse_weekdays s = Some l →
       ∀ i, i ∈ l ↔ ∃ p, p ∈ weekday_parts s ∧ weekday_mapping !! p = Some i).
Proof.
  intros Ht. unfold parse_weekdays, is_todos in *.
  rewrite decide_False by done. fold (weekday_parts s).
  split.
  - rewrite <- (weekday_indices_none _ []).
    destruct (weekday_indices (weekday_parts s) []); done.
  - intros l.
    destruct (weekday_indices (weekday_parts s) []) as [out |] eqn:E; [| done].
    cbn [mbind option_bind]. intros [= <-] i.
    apply weekday_indices_some in E as [_ Hin].
    rewrite merge_sort_Permutation, Hin. split.
    + intros [Hi | ?]; [by apply elem_of_nil in Hi | done].
    + intros ?. by right.
Qed.

Lemma parse_weekdays_names_witness :
  (parse_weekdays (Some "seg,lua"%string) = None ↔
   ∃ p, p ∈ weekday_parts (Some "seg,lua"%string) ∧ weekday_mapping !! p = None)
  ∧ (∀ l, parse_weekdays (Some "seg,lua"%string) = Some l →
       ∀ i, i ∈ l ↔ ∃ p, p ∈ weekday_parts (Some "seg,lua"%string)
                      ∧ weekday_mapping !! p = Some i).
Proof.
  apply (parse_weekdays_names (Some "seg,lua"%string)).
  unfold is_todos. vm_compute. discriminate.
Defined.

(** ** The wizards *)




Lemma events_for_date_elem self d l e :
  events_for_date self d = Ok l →
  e ∈ month_events self (year d) (month d) →
  ev_date e = Some (to_date_str d) →
  e ∈ l.
Proof.
  unfold events_for_date.
  destruct (events_map_for_month self (year d) (month d)) as [idx |] eqn:E;
    [| done].
  cbn [mbind result_bind]. intros [= <-] Hin Hds.
  destruct (occurrence_at_intro self _ _ idx e _ E Hin Hds) as (i & l' & Hl' & Hi).
  rewrite Hl'. cbn [default]. by eapply list_elem_of_lookup_2.
Qed.

(** X6.  An event that [add_user_event_wizard] stores for a date not
    before the year 1000 is shown on its date: whenever [events_for_date]
    of the answered date returns, the list holds the new record, with its
    id made of the clock, its trimmed title and the user source. *)
Theorem wizard_event_is_shown limit now_ms self a title ds d ts l :
  ea_title a = Some title → blank title = false →
  ea_date a = Some ds → from_date_str (Some ds) = Ok d → 1000 <= year d →
  ea_time a = Some ts →
  events_for_date (add_user_event_wizard limit now_ms self a).1 d = Ok l →
  ∃ e, e ∈ l
    ∧ ev_id e = ("user:" +:+ pretty now_ms)%string
    ∧ ev_title e = Some (Py.strip title)
    ∧ ev_date e = Some (to_date_str d)
    ∧ ev_source e = SrcUser.
Proof.
  intros Ht Hb Hds Hd Hy Hts. unfold add_user_event_wizard.
  rewrite Ht, Hb, Hds, Hd, Hts. cbn [fst].
  set (ev := user_event _ _ _ _). intros Hl.
  exists ev. split; [| done].
  apply (events_for_date_elem _ d l ev Hl); [| done].
  unfold month_events. cbn [user_events]. apply elem_of_app. left.
  apply list_elem_of_filter. split.
  - unfold event_in_month. cbn [ev user_event ev_date].
    rewrite from_date_str_to_date_str
      by (done || by eapply from_date_str_valid).
    by rewrite !Z.eqb_refl.
  - apply elem_of_app. right. apply list_elem_of_here.
Qed.

Lemma wizard_event_is_shown_witness :
  ∃ e, e ∈ try_except
             (events_for_date
                (add_user_event_wizard 4300 1710000000009 scenario_app
                   (EventAnswers (Some " Dentista ") (Some "2024-3-7")
                      (Some "9:15"))).1
                (Date 2024 3 7)) []
    ∧ ev_id e = ("user:" +:+ pretty 1710000000009)%string
    ∧ ev_title e = Some (Py.strip " Dentista ")
    ∧ ev_date e = Some (to_date_str (Date 2024 3 7))
    ∧ ev_source e = SrcUser.
Proof.
  apply (wizard_event_is_shown 4300 1710000000009 scenario_app
           (EventAnswers (Some " Dentista ") (Some "2024-3-7") (Some "9:15"))
           " Dentista " "2024-3-7" (Date 2024 3 7) "9:15").
  - reflexivity.
  - reflexivity.
  - reflexivity.
  - reflexivity.
  - simpl. lia.
  - reflexivity.
  - vm_compute. reflexivity.
Defined.

(** X28.  An event that [add_user_event_wizard] stores for a date before
    the year 1000 is lost to the calendar: the wizard shows no message
    and appends the record, with the date that [to_date_str] writes
    without the leading zeros of the year; [from_date_str] refuses that
    text, and the record is in no entry of the index of any month. *)
Theorem wizard_event_before_1000_is_never_listed
    limit now_ms self a title ds d ts :
  ea_title a = Some title → blank title = false →
  ea_date a = Some ds → from_date_str (Some ds) = Ok d → year d < 1000 →
  ea_time a = Some ts →
  ∃ ev,
    add_user_event_wizard limit now_ms self a
    = (App (user_events self ++ [ev]) (ics_events_cache self) (routines self),
       None)
    ∧ ev_date ev = Some (to_date_str d)
    ∧ ev_source ev = SrcUser
    ∧ from_date_str (ev_date ev) = Raise ValueError
    ∧ ∀ y m idx ks i,
        events_map_for_month (add_user_event_wizard limit now_ms self a).1 y m
        = Ok idx →
        ¬ occurrence_at idx ks i ev.
Proof.
  intros Ht Hb Hds Hd Hy Hts. unfold add_user_event_wizard.
  rewrite Ht, Hb, Hds, Hd, Hts. cbn [fst].
  set (ev := user_event _ _ _ _).
  assert (Hbad : from_date_str (ev_date ev) = Raise ValueError).
  { cbn [ev user_event ev_date]. apply from_date_str_to_date_str_below; [| done].
    by eapply from_date_str_valid. }
  exists ev. split_and!; try done.
  intros y m idx ks i Hidx Hocc.
  pose proof Hidx as [Hv _]%events_map_for_month_ok.
  apply (occurrence_at_inv _ y m idx ks i ev Hidx) in Hocc as [Hin _].
  apply elem_of_month_events in Hin as [[_ Hin] | (r & _ & Hin)].
  - unfold event_in_month in Hin. by rewrite Hbad in Hin.
  - by apply routine_part_days in Hin as (d' & _ & ?).
Qed.

Lemma wizard_event_before_1000_is_never_listed_witness :
  ∃ ev,
    add_user_event_wizard 4300 1710000000011 scenario_app
      (EventAnswers (Some "Feira") (Some "0999-01-07") (Some ""))
    = (App (user_events scenario_app ++ [ev]) (ics_events_cache scenario_app)
         (routines scenario_app),
       None)
    ∧ ev_date ev = Some (to_date_str (Date 999 1 7))
    ∧ ev_source ev = SrcUser
    ∧ from_date_str (ev_date ev) = Raise ValueError
    ∧ ∀ y m idx ks i,
        events_map_for_month
          (add_user_event_wizard 4300 1710000000011 scenario_app
             (EventAnswers (Some "Feira") (Some "0999-01-07") (Some ""))).1 y m
        = Ok idx →
        ¬ occurrence_at idx ks i ev.
Proof.
  apply (wizard_event_before_1000_is_never_listed 4300 1710000000011
           scenario_app
           (EventAnswers (Some "Feira") (Some "0999-01-07") (Some ""))
           "Feira" "0999-01-07" (Date 999 1 7) "").
  - reflexivity.
  - reflexivity.
  - reflexivity.
  - reflexivity.
  - simpl. lia.
  - reflexivity.
Defined.

Example wizard_writes_the_year_without_zeros :
  ev_date <$> user_events
    (add_user_event_wizard 4300 1710000000011 scenario_app
       (EventAnswers (Some "Feira") (Some "0999-01-07") (Some ""))).1
  = [Some "2024-03-10"; Some "2024-03-10"; Some "999-01-07"]%string.
Proof. vm_compute. reflexivity. Qed.

(** X7.  A time that is not blank and that [parse_time_hhmm] refuses does
    not stop [add_user_event_wizard]: no message is shown and the event is
    stored without a time, as an all-day event. *)
Theorem unparsable_time_is_all_day limit now_ms self a title ds d ts :
  ea_title a = Some title → blank title = false →
  ea_date a = Some ds → from_date_str (Some ds) = Ok d →
  ea_time a = Some ts → parse_time_hhmm limit (Some ts) = None →
  add_user_event_wizard limit now_ms self a
  = (App (user_events self
            ++ [user_event ("user:" +:+ pretty now_ms) (Py.strip title)
                  (to_date_str d) None])
         (ics_events_cache self) (routines self),
     None).
Proof.
  intros Ht Hb Hds Hd Hts Hp. unfold add_user_event_wizard.
  rewrite Ht, Hb, Hds, Hd, Hts, Hp. by destruct (negb (blank ts)).
Qed.

Lemma unparsable_time_is_all_day_witness :
  add_user_event_wizard 4300 1710000000009 scenario_app
    (EventAnswers (Some "Jantar") (Some "2024-03-07") (Some "25:00"))
  = (App (user_events scenario_app
            ++ [user_event ("user:" +:+ pretty 1710000000009) (Py.strip "Jantar")
                  (to_date_str (Date 2024 3 7)) None])
         (ics_events_cache scenario_app) (routines scenario_app),
     None).
Proof.
  apply (unparsable_time_is_all_day 4300 1710000000009 scenario_app
           (EventAnswers (Some "Jantar") (Some "2024-03-07") (Some "25:00"))
           "Jantar" "2024-03-07" (Date 2024 3 7) "25:00"); reflexivity.
Defined.






(** A routine that the wizard stores with an end date before the year
    1000 stops the month index: the end date is stored without its
    leading zeros, and every month raises when it reads it. *)
Example wizard_routine_before_1000 :
  let after := (add_routine_wizard 4300 1710000000012 scenario_app
                  (RoutineAnswers (Some "Missa") (Some "dom") (Some "08:00")
                     (Some "0998-01-01") (Some "0999-12-31"))).1 in
  (r_start_date <$> routines after) = [Some "998-01-01"%string]
  ∧ (r_end_date <$> routines after) = [Some "999-12-31"%string]
  ∧ is_ok (events_map_for_month after 2024 3) = true
  ∧ events_map_for_month
      (add_routine_wizard 4300 1710000000012 scenario_app
         (RoutineAnswers (Some "Missa") (Some "dom") (Some "08:00")
            (Some "2024-01-01") (Some "0999-12-31"))).1 2024 3
    = Raise ValueError.
Proof. vm_compute. done. Qed.

Lemma routine_window_ok r :
  is_ok (routine_window r) = true ↔ ¬ end_does_not_parse r.
Proof.
  unfold routine_window, routine_end, end_does_not_parse.
  destruct (decide (r_type r = Some "weekly"%string)) as [Ht | Ht].
  - rewrite bool_decide_eq_false_2 by (intros ?; done).
    destruct (from_date_str (r_start_date r)) as [start |];
      [| split; [intros _ (_ & ? & _); done | done]].
    destruct (r_end_date r) as [s |];
      [| split; [intros _ (_ & _ & s & ? & _); done | done]].
    destruct s as [| c s];
      [split; [intros _ (_ & _ & s & [= <-] & ? & _); done | done] |].
    cbn [Py.truthy].
    destruct (from_date_str (Some (String c s))) as [e |] eqn:E;
      cbn [mbind result_bind is_ok].
    + split; [| done]. intros _ (_ & _ & s' & [= <-] & _ & H).
      rewrite E in H. done.
    + split; [done |]. intros H. exfalso. apply H.
      split_and!; [done | done |]. exists (String c s). by rewrite E.
  - rewrite bool_decide_eq_true_2 by done.
    split; [intros _ (? & _); done | done].
Qed.

Lemma expand_routines_from_built y m rs : ∀ acc occs,
  valid_month y m →
  expand_routines_from (Date y m 1) (Date y m (days_in_month y m)) rs acc
    = Ok occs →
  Forall (λ r, is_ok (routine_window r) = true) rs.
Proof.
  induction rs as [| r rs IH]; intros acc occs Hv; cbn [expand_routines_from];
    [constructor |].
  rewrite expand_routine_spec by done.
  destruct (routine_window r) as [[[start end_] |] |] eqn:Hw;
    cbn [mbind result_bind]; [| | done].
  - destruct (decide (last_month y m)); [done |]. cbn [mbind result_bind].
    intros H. constructor; [by rewrite Hw | by eapply IH].
  - intros H. constructor; [by rewrite Hw | by eapply IH].
Qed.

(** X9.  When the month index is built.  For a month of [datetime.date]
    other than December 9999 the index is built exactly when no stored
    routine is weekly with a start date that parses and an end date that
    is a text, not empty, that does not parse.  This holds for all stored
    records of the record types of the model: in an event a date that is
    absent or any text, a time that is absent or a pair of integers, a
    title that is absent or a text; in a routine dates that are absent or
    any text and weekdays that are a list of integers. *)
Theorem month_index_is_built_iff self y m :
  valid_month y m → ¬ last_month y m →
  (∃ idx, events_map_for_month self y m = Ok idx)
  ↔ ∀ r, r ∈ routines self → ¬ end_does_not_parse r.
Proof.
  intros Hv Hl. split.
  - intros [idx Hidx] r Hr. apply routine_window_ok.
    unfold events_map_for_month in Hidx.
    destruct (expand_routines_for_month (routines self) y m) as [occs |] eqn:Ex;
      [| done].
    unfold expand_routines_for_month, monthrange_days in Ex.
    pose proof (days_in_month_bounds y m).
    rewrite !date_new_valid in Ex
      by (split; [done | cbn [day year month]; lia]).
    cbn [mbind result_bind] in Ex.
    apply expand_routines_from_built in Ex; [| done].
    by eapply Forall_forall in Ex.
  - intros Hall. apply events_map_for_month_total; [done | done |].
    apply Forall_forall. intros r Hr. by apply routine_window_ok, Hall.
Qed.

Lemma month_index_is_built_iff_witness :
  (∃ idx,
     events_map_for_month
       (add_routine_wizard 4300 1710000000010 untidy_app
          (RoutineAnswers (Some "Corrida") (Some "ter, qui") (Some "06:30")
             (Some "2024-03-01") (Some "2024-03-31"))).1
       2024 3
     = Ok idx)
  ↔ ∀ r, r ∈ routines
             (add_routine_wizard 4300 1710000000010 untidy_app
                (RoutineAnswers (Some "Corrida") (Some "ter, qui")
                   (Some "06:30") (Some "2024-03-01") (Some "2024-03-31"))).1 →
         ¬ end_does_not_parse r.
Proof.
  apply (month_index_is_built_iff
           (add_routine_wizard 4300 1710000000010 untidy_app
              (RoutineAnswers (Some "Corrida") (Some "ter, qui") (Some "06:30")
                 (Some "2024-03-01") (Some "2024-03-31"))).1
           2024 3).
  - unfold valid_month, MINYEAR, MAXYEAR. lia.
  - unfold last_month, MAXYEAR. lia.
Defined.

(** One stored routine with an end date that does not parse stops the
    index of every month, whatever else is stored. *)
Example malformed_end_stops_the_index :
  let r := {| r_id := Some "routine:1"%string; r_title := None;
              r_type := Some "weekly"%string; r_days_of_week := [0];
              r_time := None; r_start_date := Some "2024-01-01"%string;
              r_end_date := Some "31/12/2024"%string |} in
  events_map_for_month (App [afternoon_B] [] [gym; r]) 2024 3 = Raise ValueError
  ∧ events_map_for_month (App [afternoon_B] [] [gym; r]) 2030 7 = Raise ValueError
  ∧ is_ok (events_map_for_month (App [afternoon_B] [] [gym]) 2024 3) = true.
Proof. vm_compute. done. Qed.

Lemma date_leb_trans a b c :
  date_leb a b = true → date_leb b c = true → date_leb a c = true.
Proof.
  unfold date_leb.
  rewrite !orb_true_iff, !andb_true_iff, !orb_true_iff, !andb_true_iff,
    !Z.ltb_lt, !Z.eqb_eq, !Z.leb_le.
  lia.
Qed.

(** X10.  A routine whose end date is before its start date has no
    occurrence in any month: its expansion, whenever it returns, is
    empty.  (The wizard stores such a routine without a message.) *)
Theorem routine_ending_before_start_never_occurs r start e y m occs :
  routine_window r = Ok (Some (start, Some e)) →
  date_leb start e = false →
  expand_routines_for_month [r] y m = Ok occs →
  occs = [].
Proof.
  intros Hw Hlt Hex.
  apply expand_routines_for_month_ok in Hex as [_ ->].
  rewrite bind_cons.
  change (@nil routine ≫= routine_part y m) with (@nil event).
  rewrite app_nil_r.
  unfold routine_part. rewrite Hw. unfold selected.
  replace (filter _ (month_days y m)) with (@nil date); [done |].
  symmetry. induction (month_days y m) as [| d ds IH]; [done |].
  rewrite filter_cons, IH. rewrite decide_False; [done |].
  unfold occurs_on. intros Hq.
  apply andb_true_iff in Hq as [_ [H1 H2]%andb_true_iff].
  pose proof (date_leb_trans _ _ _ H1 H2). congruence.
Qed.

Lemma routine_ending_before_start_never_occurs_witness :
  try_except
    (expand_routines_for_month
       (routines
          (add_routine_wizard 4300 1710000000011 (App [] [] [])
             (RoutineAnswers (Some "Curso") (Some "todos") (Some "19:00")
                (Some "2024-03-01") (Some "2024-02-01"))).1)
       2024 3)
    [all_day_A]
  = [].
Proof.
  apply (routine_ending_before_start_never_occurs
           {| r_id := Some ("routine:" +:+ pretty 1710000000011)%string;
              r_title := Some (Py.strip "Curso");
              r_type := Some "weekly"%string;
              r_days_of_week := [0; 1; 2; 3; 4; 5; 6];
              r_time := Some (19, 0);
              r_start_date := Some (to_date_str (Date 2024 3 1));
              r_end_date := Some (to_date_str (Date 2024 2 1)) |}
           (Date 2024 3 1) (Date 2024 2 1) 2024 3).
  - reflexivity.
  - reflexivity.
  - vm_compute. reflexivity.
Defined.

(** ** The selection *)

Lemma clamp_bounds n lo hi : lo <= hi → lo <= clamp n lo hi <= hi.
Proof. unfold clamp. lia. Qed.

Lemma selection_kept_pageup w :
  selection_in_range w → selection_in_range (key_pageup w).
Proof.
  unfold selection_in_range, key_pageup, last_index, with_index.
  cbn [selected_event_index events_for_selected]. lia.
Qed.

Lemma selection_kept_pagedown w :
  selection_in_range w → selection_in_range (key_pagedown w).
Proof.
  unfold selection_in_range, key_pagedown, last_index, with_index.
  cbn [selected_event_index events_for_selected]. lia.
Qed.

Lemma selection_kept_wheel w :
  selection_in_range w →
  selection_in_range (wheel_up w) ∧ selection_in_range (wheel_down w).
Proof.
  unfold selection_in_range, wheel_up, wheel_down, last_index, with_index.
  cbn [selected_event_index events_for_selected]. lia.
Qed.

Lemma selection_kept_click w hit :
  selection_in_range w → selection_in_range (click_panel w hit).
Proof.
  unfold click_panel. destruct hit as [idx |]; [| done].
  destruct ((0 <=? idx) && _) eqn:E; [| done].
  apply andb_true_iff in E as [H1%Z.leb_le H2%Z.ltb_lt].
  unfold selection_in_range, last_index, with_index.
  cbn [selected_event_index events_for_selected]. lia.
Qed.

Lemma selection_set_by_refresh w w' :
  refresh_selection w = Done w' → selection_in_range w'.
Proof.
  unfold refresh_selection.
  destruct (events_for_date _ _) as [l |]; [| done].
  intros [= <-]. unfold selection_in_range, last_index.
  cbn [selected_event_index events_for_selected].
  apply clamp_bounds. lia.
Qed.

(** X11.  The index of the selected event stays within the list of the
    selected date (or at 0 when the list is empty): PageUp, PageDown, the
    wheel and a click in the panel keep it there, and the end of the
    drawing puts it there whatever it was. *)
Theorem selection_stays_in_range w :
  selection_in_range w →
  selection_in_range (key_pageup w)
  ∧ selection_in_range (key_pagedown w)
  ∧ selection_in_range (wheel_up w)
  ∧ selection_in_range (wheel_down w)
  ∧ (∀ hit, selection_in_range (click_panel w hit))
  ∧ (∀ w0 w', refresh_selection w0 = Done w' → selection_in_range w').
Proof.
  intros H. split; [by apply selection_kept_pageup |].
  split; [by apply selection_kept_pagedown |].
  split; [by apply selection_kept_wheel |].
  split; [by apply selection_kept_wheel |].
  split; [intros hit; by apply selection_kept_click |].
  intros w0 w'. apply selection_set_by_refresh.
Qed.

Lemma getitem_in_range {A} (l : list A) i :
  0 <= i < Z.of_nat (length l) → ∃ x, getitem l i = Done x ∧ x ∈ l.
Proof.
  intros Hi. unfold getitem.
  replace (i <? 0) with false by (symmetry; apply Z.ltb_ge; lia).
  replace ((0 <=? i) && (i <? Z.of_nat (length l))) with true
    by (symmetry; apply andb_true_iff; split; [apply Z.leb_le | apply Z.ltb_lt]; lia).
  destruct (l !! Z.to_nat i) as [x |] eqn:E.
  - exists x. split; [done |]. by eapply list_elem_of_lookup_2.
  - apply lookup_ge_None in E. lia.
Qed.

Lemma selected_event_exists w :
  selection_in_range w → events_for_selected w ≠ [] →
  ∃ ev, getitem (events_for_selected w) (selected_event_index w) = Done ev
        ∧ ev ∈ events_for_selected w.
Proof.
  unfold selection_in_range, last_index. intros Hr Hne.
  apply getitem_in_range.
  destruct (events_for_selected w); [done |]. cbn [length] in *. lia.
Qed.

(** X12.  With the index of the selection within the list, Delete and
    Enter never raise [IndexError]: [delete_selected_if_user_event] and
    [open_selected_link] return. *)
Theorem selection_in_range_is_safe w :
  selection_in_range w →
  (∃ r, delete_selected_if_user_event w = Done r)
  ∧ (∃ r, open_selected_link w = Done r).
Proof.
  intros Hr. unfold delete_selected_if_user_event, open_selected_link.
  destruct (events_for_selected w) as [| e l] eqn:El.
  - split; by eexists.
  - destruct (selected_event_exists w Hr) as (ev & Hev & _);
      [by rewrite El |].
    rewrite El in Hev. rewrite Hev. split.
    + destruct (bool_decide _); by eexists.
    + destruct (link (ev_meta ev)); by eexists.
Qed.

Lemma selection_stays_in_range_witness :
  selection_in_range (key_pageup scenario_window)
  ∧ selection_in_range (key_pagedown scenario_window)
  ∧ selection_in_range (wheel_up scenario_window)
  ∧ selection_in_range (wheel_down scenario_window)
  ∧ (∀ hit, selection_in_range (click_panel scenario_window hit))
  ∧ (∀ w0 w', refresh_selection w0 = Done w' → selection_in_range w').
Proof.
  apply (selection_stays_in_range scenario_window).
  unfold selection_in_range, last_index. simpl. lia.
Defined.

Lemma selection_in_range_is_safe_witness :
  (∃ r, delete_selected_if_user_event scenario_window = Done r)
  ∧ (∃ r, open_selected_link scenario_window = Done r).
Proof.
  apply (selection_in_range_is_safe scenario_window).
  unfold selection_in_range, last_index. simpl. lia.
Defined.

Example index_out_of_range_raises :
  delete_selected_if_user_event (with_index scenario_window 2) = Fail IndexError
  ∧ open_selected_link (with_index scenario_window 2) = Fail IndexError.
Proof. split; reflexivity. Qed.

(** What Delete does to the window. *)
Lemma delete_selected_spec w ev w' msg :
  events_for_selected w ≠ [] →
  getitem (events_for_selected w) (selected_event_index w) = Done ev →
  delete_selected_if_user_event w = Done (w', msg) →
  (ev_source ev ≠ SrcUser → w' = w)
  ∧ (ev_source ev = SrcUser →
     (∀ e, e ∈ user_events (data w') ↔
           e ∈ user_events (data w) ∧ ev_id e ≠ ev_id ev)
     ∧ user_events (data w') `sublist_of` user_events (data w))
  ∧ routines (data w') = routines (data w)
  ∧ ics_events_cache (data w') = ics_events_cache (data w)
  ∧ events_for_selected w' = events_for_selected w
  ∧ selected_event_index w' = selected_event_index w.
Proof.
  intros Hne Hget. unfold delete_selected_if_user_event.
  destruct (events_for_selected w) as [| e0 l0] eqn:El; [done |].
  rewrite Hget. case_bool_decide as Hsrc.
  - intros [= <- <-]. rewrite El.
    split; [done |]. split; [intros ?; done | done].
  - intros [= <- <-].
    cbn [data user_events routines ics_events_cache events_for_selected
         selected_event_index].
    split; [done |]. split; [| done].
    intros _. split.
    + intros e. rewrite list_elem_of_filter. tauto.
    + apply sublist_filter.
Qed.

(** X13.  Delete changes the stores only when the selected record has the
    user source.  Then it removes from the user events every record with
    the id of the selected one and no other, keeps the order of the rest,
    and leaves the routines and the feed cache as they are, also where
    they hold a record with that id; for a routine or feed record it only
    shows a message. *)
Theorem delete_removes_by_id w ev w' msg :
  events_for_selected w ≠ [] →
  getitem (events_for_selected w) (selected_event_index w) = Done ev →
  delete_selected_if_user_event w = Done (w', msg) →
  (ev_source ev ≠ SrcUser → w' = w)
  ∧ (ev_source ev = SrcUser →
     (∀ e, e ∈ user_events (data w') ↔
           e ∈ user_events (data w) ∧ ev_id e ≠ ev_id ev)
     ∧ user_events (data w') `sublist_of` user_events (data w))
  ∧ routines (data w') = routines (data w)
  ∧ ics_events_cache (data w') = ics_events_cache (data w)
  ∧ events_for_selected w' = events_for_selected w
  ∧ selected_event_index w' = selected_event_index w.
Proof. apply delete_selected_spec. Qed.

Lemma delete_removes_by_id_witness :
  let w := scenario_window in
  let w' := Window (App [afternoon_B] [] []) 2024 3 (Date 2024 3 10)
              [afternoon_B; all_day_A] 1 in
  (ev_source all_day_A ≠ SrcUser → w' = w)
  ∧ (ev_source all_day_A = SrcUser →
     (∀ e, e ∈ user_events (data w') ↔
           e ∈ user_events (data w) ∧ ev_id e ≠ ev_id all_day_A)
     ∧ user_events (data w') `sublist_of` user_events (data w))
  ∧ routines (data w') = routines (data w)
  ∧ ics_events_cache (data w') = ics_events_cache (data w)
  ∧ events_for_selected w' = events_for_selected w
  ∧ selected_event_index w' = selected_event_index w.
Proof.
  apply (delete_removes_by_id scenario_window all_day_A
           (Window (App [afternoon_B] [] []) 2024 3 (Date 2024 3 10)
              [afternoon_B; all_day_A] 1)
           (Some "Evento excluído."%string)).
  - discriminate.
  - reflexivity.
  - vm_compute. reflexivity.
Defined.

Lemma month_events_origin self y m e :
  e ∈ month_events self y m →
  e ∈ user_events self ∨ e ∈ ics_events_cache self
  ∨ ∃ r, r ∈ routines self ∧ e ∈ routine_part y m r.
Proof.
  unfold month_events. rewrite !elem_of_app.
  intros [[_ H]%list_elem_of_filter
         | [[_ H]%list_elem_of_filter | (r & He & Hr)%list_elem_of_bind]].
  - by left.
  - right. by left.
  - right. right. by exists r.
Qed.

(** X14.  After Delete of a user event, the list drawn next for the
    selected date holds no stored user event with the id of the deleted
    one: each of its records is a stored user event with another id, a
    record of the feed cache, or an occurrence of a routine. *)
Theorem deleted_event_is_not_drawn w ev w' msg w'' :
  events_for_selected w ≠ [] →
  getitem (events_for_selected w) (selected_event_index w) = Done ev →
  ev_source ev = SrcUser →
  delete_selected_if_user_event w = Done (w', msg) →
  refresh_selection w' = Done w'' →
  ∀ e, e ∈ events_for_selected w'' →
    (e ∈ user_events (data w) ∧ ev_id e ≠ ev_id ev)
    ∨ e ∈ ics_events_cache (data w)
    ∨ ∃ r, r ∈ routines (data w)
           ∧ e ∈ routine_part (year (selected_date w)) (month (selected_date w)) r.
Proof.
  intros Hne Hget Hsrc Hdel Href e He.
  destruct (delete_selected_spec w ev w' msg Hne Hget Hdel)
    as (_ & Huser & Hr & Hc & _ & _).
  destruct (Huser Hsrc) as [Hmem _].
  assert (Hdate : selected_date w' = selected_date w).
  { unfold delete_selected_if_user_event in Hdel.
    destruct (events_for_selected w); [done |]. rewrite Hget in Hdel.
    rewrite bool_decide_eq_false_2 in Hdel by (intros ?; done).
    by injection Hdel as <- _. }
  unfold refresh_selection in Href.
  destruct (events_for_date (data w') (selected_date w')) as [l |] eqn:El;
    [| done].
  injection Href as <-. cbn [events_for_selected] in He.
  unfold events_for_date in El.
  destruct (events_map_for_month (data w') _ _) as [idx |] eqn:Eidx; [| done].
  cbn [mbind result_bind] in El. injection El as <-.
  destruct (idx !! to_date_str (selected_date w')) as [l |] eqn:Hl;
    [| by apply elem_of_nil in He].
  cbn [default] in He.
  apply list_elem_of_lookup_1 in He as [i Hi].
  assert (Hocc : occurrence_at idx (to_date_str (selected_date w')) i e)
    by (by exists l).
  apply (occurrence_at_inv _ _ _ _ _ _ _ Eidx) in Hocc as [Hin _].
  apply month_events_origin in Hin as [Hin | [Hin | (r & Hin & Hp)]].
  - left. by apply Hmem.
  - right. left. by rewrite <- Hc.
  - right. right. exists r. rewrite <- Hr, <- Hdate. done.
Qed.

Lemma deleted_event_is_not_drawn_witness :
  (afternoon_B ∈ user_events (data scenario_window)
   ∧ ev_id afternoon_B ≠ ev_id all_day_A)
  ∨ afternoon_B ∈ ics_events_cache (data scenario_window)
  ∨ ∃ r, r ∈ routines (data scenario_window)
         ∧ afternoon_B ∈ routine_part (year (selected_date scenario_window))
                           (month (selected_date scenario_window)) r.
Proof.
  apply (deleted_event_is_not_drawn scenario_window all_day_A
           (Window (App [afternoon_B] [] []) 2024 3 (Date 2024 3 10)
              [afternoon_B; all_day_A] 1)
           (Some "Evento excluído."%string)
           (Window (App [afternoon_B] [] []) 2024 3 (Date 2024 3 10)
              [afternoon_B] 0)).
  - discriminate.
  - reflexivity.
  - reflexivity.
  - vm_compute. reflexivity.
  - vm_compute. reflexivity.
  - apply (bool_decide_unpack _). vm_compute. exact I.
Defined.

(** ** Navigation between months *)

Example change_month_examples :
  change_month 1 (with_view scenario_window 2024 12)
  = Ok (with_view scenario_window 2025 1)
  ∧ change_month (-1) (with_view scenario_window 2024 1)
    = Ok (with_view scenario_window 2023 12)
  ∧ change_month (-25) (with_view scenario_window 2024 1)
    = Ok (with_view scenario_window 2021 12)
  ∧ change_month 30 (with_view scenario_window 2024 7)
    = Ok (with_view scenario_window 2027 1).
Proof. repeat split; reflexivity. Qed.

Lemma wrap_up_spec fuel : ∀ m y,
  (Z.to_nat (Z.abs m) + 2 ≤ fuel)%nat →
  ∃ m' y', wrap_up fuel m y = Ok (m', y')
    ∧ 1 <= m' ∧ (m < 1 → m' <= 12) ∧ (1 <= m → m' = m ∧ y' = y)
    ∧ 12 * y' + m' = 12 * y + m.
Proof.
  induction fuel as [| fuel IH]; intros m y Hf; [lia |].
  cbn [wrap_up]. destruct (m <? 1) eqn:E.
  - apply Z.ltb_lt in E.
    destruct (decide (m + 12 < 1)) as [Hlow | Hhigh].
    + destruct (IH (m + 12) (y - 1)) as (m' & y' & -> & H1 & H2 & _ & H4); [lia |].
      exists m', y'. split; [done |]. split; [done |].
      split; [intros _; by apply H2 |]. split; [lia | lia].
    + destruct fuel as [| fuel']; [lia |]. cbn [wrap_up].
      replace (m + 12 <? 1) with false by (symmetry; apply Z.ltb_ge; lia).
      exists (m + 12), (y - 1). repeat split; lia.
  - apply Z.ltb_ge in E. exists m, y. repeat split; lia.
Qed.

Lemma wrap_down_spec fuel : ∀ m y,
  1 <= m → (m <= 12 ∧ (1 ≤ fuel)%nat) ∨ (Z.to_nat m ≤ fuel)%nat →
  ∃ m' y', wrap_down fuel m y = Ok (m', y')
    ∧ 1 <= m' <= 12 ∧ 12 * y' + m' = 12 * y + m.
Proof.
  induction fuel as [| fuel IH]; intros m y Hm Hf; [lia |].
  cbn [wrap_down]. destruct (12 <? m) eqn:E.
  - apply Z.ltb_lt in E.
    destruct (IH (m - 12) (y + 1)) as (m' & y' & -> & H1 & H2); [lia | lia |].
    exists m', y'. repeat split; lia.
  - apply Z.ltb_ge in E. exists m, y. repeat split; lia.
Qed.

Lemma change_month_spec delta w :
  ∃ y m, change_month delta w = Ok (with_view w y m)
    ∧ 1 <= m <= 12
    ∧ 12 * y + m = 12 * view_year w + view_month w + delta.
Proof.
  unfold change_month.
  destruct (wrap_up_spec (Z.to_nat (Z.abs (view_month w + delta)) + 2)
              (view_month w + delta) (view_year w))
    as (m1 & y1 & -> & H1 & H2 & H3 & H4); [lia |].
  cbn [mbind result_bind].
  destruct (wrap_down_spec (Z.to_nat (Z.abs (view_month w + delta)) + 2) m1 y1)
    as (m2 & y2 & -> & H5 & H6); [done | |].
  - destruct (decide (view_month w + delta < 1)).
    + left. split; [by apply H2 | lia].
    + right. destruct H3 as [-> _]; lia.
  - cbn [mbind result_bind]. exists y2, m2. repeat split; lia.
Qed.

(** X15.  [change_month] always returns, with the month between 1 and 12
    whatever the step and the month it started from, the year moved by
    the number of times the month wrapped: the count of months
    [12 * year + month] has moved by the step, and nothing else of the
    window has changed. *)
Theorem change_month_wraps delta w :
  ∃ w', change_month delta w = Ok w'
    ∧ 1 <= view_month w' <= 12
    ∧ 12 * view_year w' + view_month w'
      = 12 * view_year w + view_month w + delta
    ∧ data w' = data w
    ∧ selected_date w' = selected_date w
    ∧ events_for_selected w' = events_for_selected w
    ∧ selected_event_index w' = selected_event_index w.
Proof.
  destruct (change_month_spec delta w) as (y & m & -> & Hm & Hc).
  exists (with_view w y m). repeat split; try done; apply Hm.
Qed.

(** X16.  Going one month forward and then one month back, or back and
    then forward, returns to the window one started from, when its month
    is a month of the year. *)
Theorem change_month_there_and_back w :
  1 <= view_month w <= 12 →
  (change_month 1 w ≫= change_month (-1)) = Ok w
  ∧ (change_month (-1) w ≫= change_month 1) = Ok w.
Proof.
  intros Hm.
  assert (Hback : ∀ a b, a + b = 0 → (change_month a w ≫= change_month b) = Ok w).
  { intros a b Hab.
    destruct (change_month_spec a w) as (y1 & m1 & -> & Hm1 & Hc1).
    cbn [mbind result_bind].
    destruct (change_month_spec b (with_view w y1 m1)) as (y2 & m2 & -> & Hm2 & Hc2).
    cbn [with_view view_year view_month] in Hc2.
    assert (y2 = view_year w ∧ m2 = view_month w) as [-> ->] by lia.
    by destruct w. }
  split; apply Hback; lia.
Qed.

Lemma change_month_there_and_back_witness :
  (change_month 1 (with_view scenario_window 2024 12) ≫= change_month (-1))
  = Ok (with_view scenario_window 2024 12)
  ∧ (change_month (-1) (with_view scenario_window 2024 12) ≫= change_month 1)
    = Ok (with_view scenario_window 2024 12).
Proof.
  apply (change_month_there_and_back (with_view scenario_window 2024 12)).
  simpl. lia.
Defined.

(** ** What the month index raises *)

Lemma re_digit_range {A} lo hi (k : Z → string → option A) s r :
  0 <= lo → hi <= 9 →
  re_digit lo hi k s = Some r →
  ∃ v rest, lo <= v <= hi ∧ k v rest = Some r.
Proof.
  intros Hlo Hhi. unfold re_digit, digit_in.
  destruct s as [| c rest]; [done |].
  destruct (Py.digit_val c) as [v |]; [| done].
  destruct ((lo <=? v) && (v <=? hi)) eqn:E; [| done].
  apply andb_true_iff in E as [?%Z.leb_le ?%Z.leb_le].
  intros Hk. exists v, rest. split; [lia | done].
Qed.

(** The year that the format reads has four digits. *)
Lemma strptime_match_year s y m d rest :
  strptime_match s = Some (y, m, d, rest) →
  0 <= y <= 9999 ∧ 0 <= m <= 99 ∧ 0 <= d <= 99.
Proof.
  unfold strptime_match, re_Y. intros H.
  repeat match type of H with
         | re_digit _ _ _ _ = Some _ =>
             apply re_digit_range in H as (? & ? & ? & H); [| lia | lia]
         end.
  unfold re_char in H. destruct x6 as [| c r]; [done |].
  destruct (decide (c = "-"%char)); [| done].
  unfold re_m, re_d, orelse, re_char in H.
  repeat match type of H with
         | match ?x with _ => _ end = Some _ => destruct x eqn:?; simplify_eq
         | (if ?x then _ else _) = Some _ => destruct x; simplify_eq
         end;
  repeat match goal with
         | H' : re_digit _ _ _ _ = Some _ |- _ =>
             apply re_digit_range in H' as (? & ? & ? & H'); [| lia | lia]
         | H' : match ?x with _ => _ end = Some _ |- _ =>
             destruct x eqn:?; simplify_eq
         | H' : (if ?x then _ else _) = Some _ |- _ => destruct x; simplify_eq
         end; simplify_eq; lia.
Qed.

Lemma from_date_str_raises s e :
  from_date_str (Some s) = Raise e → e = ValueError.
Proof.
  simpl. unfold strptime_ymd.
  destruct (strptime_match s) as [[[[y m] d] [| ? ?]] |] eqn:E;
    [| by intros [= <-] | by intros [= <-]].
  apply strptime_match_year in E. intros H%date_new_raise.
  replace (c_int y && c_int m && c_int d) with true in H; [done |].
  symmetry. rewrite !andb_true_iff, !c_int_spec. lia.
Qed.

Lemma routine_window_raises r e :
  routine_window r = Raise e → e = ValueError.
Proof.
  unfold routine_window, routine_end.
  destruct (bool_decide _); [done |].
  destruct (from_date_str (r_start_date r)); [| done].
  destruct (r_end_date r) as [s |]; [| done].
  destruct (Py.truthy s); [| done].
  destruct (from_date_str (Some s)) eqn:E; [done |].
  cbn [mbind result_bind]. intros [= <-]. by eapply from_date_str_raises.
Qed.

Lemma expand_routines_from_raises y m rs : ∀ acc e,
  valid_month y m →
  expand_routines_from (Date y m 1) (Date y m (days_in_month y m)) rs acc
    = Raise e →
  (e = ValueError ∧ ∃ r, r ∈ rs ∧ routine_window r = Raise ValueError)
  ∨ (e = OverflowError ∧ last_month y m).
Proof.
  induction rs as [| r rs IH]; intros acc e Hv; cbn [expand_routines_from];
    [done |].
  rewrite expand_routine_spec by done.
  destruct (routine_window r) as [[[start end_] |] | e'] eqn:Hw;
    cbn [mbind result_bind].
  - destruct (decide (last_month y m)) as [Hl | Hl]; cbn [mbind result_bind].
    + intros [= <-]. by right.
    + intros H. apply IH in H as [(-> & r' & Hr' & Hw') | H]; [| by right | done].
      left. split; [done |]. exists r'. split; [by apply list_elem_of_further | done].
  - intros H. apply IH in H as [(-> & r' & Hr' & Hw') | H]; [| by right | done].
    left. split; [done |]. exists r'. split; [by apply list_elem_of_further | done].
  - intros [= <-]. pose proof (routine_window_raises r e' Hw) as ->.
    left. split; [done |]. exists r. split; [apply list_elem_of_here | done].
Qed.

Lemma expand_routines_for_month_invalid rs y m :
  ¬ valid_month y m →
  expand_routines_for_month rs y m = Raise (month_exn y m).
Proof.
  intros Hv. unfold expand_routines_for_month, month_exn.
  rewrite (date_new_invalid y m 1) by (intros [? _]; done).
  replace (c_int 1) with true by done. by rewrite andb_true_r.
Qed.

Lemma expand_routines_for_month_raises rs y m e :
  expand_routines_for_month rs y m = Raise e →
  (¬ valid_month y m ∧ e = month_exn y m)
  ∨ (valid_month y m ∧ e = ValueError
     ∧ ∃ r, r ∈ rs ∧ routine_window r = Raise ValueError)
  ∨ (last_month y m ∧ e = OverflowError).
Proof.
  destruct (decide (valid_month y m)) as [Hv | Hv].
  - unfold expand_routines_for_month, monthrange_days.
    pose proof (days_in_month_bounds y m).
    rewrite !date_new_valid by (split; [done | cbn [day year month]; lia]).
    cbn [mbind result_bind]. intros Hex.
    apply expand_routines_from_raises in Hex as [(-> & Hr) | [-> Hl]];
      [| by right; right | done].
    right. by left.
  - rewrite expand_routines_for_month_invalid by done.
    intros [= <-]. by left.
Qed.

(** X17.  What [events_map_for_month] raises, for stored records of the
    record types of the model (in an event a date that is absent or any
    text, a time that is absent or a pair of integers, a title that is
    absent or a text; in a routine dates that are absent or any text and
    weekdays that are a list of integers).  For a year or month outside [datetime.date] it raises what
    [dt.date(year, month, 1)] raises, whatever is stored: [ValueError]
    when both fit the [int] of C, [OverflowError] otherwise (the year
    keys move the view without a bound).  For a month of [datetime.date]
    it raises [ValueError] only for a stored routine whose end date does
    not parse, and [OverflowError] only in December 9999; it raises no
    other exception, and none for the date of a user event or of a feed
    occurrence. *)
Theorem month_index_errors self y m :
  (¬ valid_month y m →
   events_map_for_month self y m
   = Raise (if c_int y && c_int m then ValueError else OverflowError))
  ∧ (∀ e, events_map_for_month self y m = Raise e →
       (¬ valid_month y m
        ∧ e = if c_int y && c_int m then ValueError else OverflowError)
       ∨ (valid_month y m ∧ e = ValueError
          ∧ ∃ r, r ∈ routines self ∧ routine_window r = Raise ValueError)
       ∨ (last_month y m ∧ e = OverflowError)).
Proof.
  unfold events_map_for_month. split.
  - intros Hv. by rewrite expand_routines_for_month_invalid.
  - intros e.
    destruct (expand_routines_for_month (routines self) y m) as [occs | e']
      eqn:Ex; cbn [mbind result_bind]; [done |].
    intros [= <-]. by apply expand_routines_for_month_raises.
Qed.

Example year_beyond_c_int_overflows :
  events_map_for_month scenario_app (2 ^ 31) 1 = Raise OverflowError
  ∧ events_map_for_month scenario_app (2 ^ 31 - 1) 1 = Raise ValueError
  ∧ events_map_for_month scenario_app 2024 13 = Raise ValueError
  ∧ events_map_for_month scenario_app 2024 (- 2 ^ 31 - 1) = Raise OverflowError.
Proof. vm_compute. done. Qed.

Example year_zero_raises :
  events_map_for_month (data (change_year (-1) (with_view scenario_window 1 3)))
    (view_year (change_year (-1) (with_view scenario_window 1 3)))
    (view_month (change_year (-1) (with_view scenario_window 1 3)))
  = Raise ValueError.
Proof. reflexivity. Qed.

(** ** The grid of the month *)

Example itermonthdates_lengths :
  length <$> [try_except (itermonthdates 2024 1) [];
              try_except (itermonthdates 2026 11) [];
              try_except (itermonthdates 2026 2) [];
              try_except (itermonthdates 1 1) []]
  = [35; 42; 35; 35]%nat
  ∧ itermonthdates 9999 12 = Raise ValueError
  ∧ itermonthdates 0 5 = Raise ValueError
  ∧ itermonthdates 2024 13 = Raise ValueError
  ∧ head (try_except (itermonthdates 2026 11) []) = Some (Date 2026 10 26)
  ∧ last (try_except (itermonthdates 2026 11) []) = Some (Date 2026 12 6).
Proof. vm_compute. repeat split; reflexivity. Qed.

Example calendar_grid_january_2024 :
  calendar_grid (with_view scenario_window 2024 1) (Rect 0 0 840 800)
  = Fail IndexError.
Proof. vm_compute. reflexivity. Qed.

Lemma dates_of_valid ts :
  Forall (λ t, valid_date (Date t.1.1 t.1.2 t.2)) ts →
  dates_of ts = Ok ((λ t, Date t.1.1 t.1.2 t.2) <$> ts).
Proof.
  induction 1 as [| [[y m] d] ts H _ IH]; [done |].
  cbn [dates_of]. cbn in H. rewrite (date_new_valid _ _ _ H). cbn.
  by rewrite IH.
Qed.

Lemma dates_of_inv ts : ∀ ds,
  dates_of ts = Ok ds →
  Forall (λ t, valid_date (Date t.1.1 t.1.2 t.2)) ts.
Proof.
  induction ts as [| [[y m] d] ts IH]; intros ds H; [constructor |].
  cbn [dates_of] in H.
  destruct (date_new y m d) as [x |] eqn:E; [| done]. cbn in H.
  apply date_new_inv in E as [-> Hv].
  destruct (dates_of ts) as [xs | e] eqn:E'; [| done].
  constructor; [done | by eapply IH].
Qed.

Lemma days_from_seqZ y m n : ∀ k,
  days_from y m k n = Date y m <$> seqZ k (Z.of_nat n).
Proof.
  induction n as [| n IH]; intros k; [done |].
  cbn [days_from]. rewrite seqZ_cons by lia. cbn [fmap list_fmap].
  rewrite IH. do 3 f_equal; lia.
Qed.

Lemma month_days_seqZ y m :
  month_days y m = Date y m <$> seqZ 1 (days_in_month y m).
Proof.
  unfold month_days. rewrite days_from_seqZ, Z2Nat.id; [done |].
  pose proof (days_in_month_bounds y m). lia.
Qed.

Lemma weekday_range d : 0 <= weekday d < 7.
Proof. unfold weekday. apply Z.mod_pos_bound. lia. Qed.

Lemma calendar_weekday_valid y m d :
  MINYEAR <= y <= MAXYEAR → calendar_weekday y m d = weekday (Date y m d).
Proof.
  intros Hy. unfold calendar_weekday.
  replace ((MINYEAR <=? y) && (y <=? MAXYEAR)) with true; [done |].
  symmetry. apply andb_true_iff. split; apply Z.leb_le; lia.
Qed.

Lemma filter_none {A} (P : A → Prop) `{∀ x, Decision (P x)} (l : list A) :
  Forall (λ x, ¬ P x) l → filter P l = [].
Proof.
  induction 1 as [| x l Hx _ IH]; [done |].
  by rewrite filter_cons, decide_False.
Qed.

Lemma filter_all {A} (P : A → Prop) `{∀ x, Decision (P x)} (l : list A) :
  Forall P l → filter P l = l.
Proof.
  induction 1 as [| x l Hx _ IH]; [done |].
  by rewrite filter_cons, decide_True, IH.
Qed.

(** The dates of the weeks of a month: the last days of the month before,
    as many as the weekday of the first; the month; the first days of
    the month after, up to the end of the week. *)
Lemma itermonthdates_spec y m :
  valid_month y m → ¬ last_month y m →
  ∃ before after,
    itermonthdates y m = Ok (before ++ month_days y m ++ after)
    ∧ Z.of_nat (length before) = weekday (Date y m 1)
    ∧ Z.of_nat (length after)
      = (0 - weekday (Date y m 1) - days_in_month y m) mod 7
    ∧ Forall (λ d, month d ≠ m) before
    ∧ Forall (λ d, month d ≠ m) after.
Proof.
  intros [Hy Hm] Hlast. unfold MINYEAR, MAXYEAR in Hy.
  unfold itermonthdates.
  replace ((1 <=? m) && (m <=? 12)) with true
    by (symmetry; apply andb_true_iff; split; apply Z.leb_le; lia).
  unfold itermonthdays3, days_before, days_after.
  rewrite calendar_weekday_valid by done.
  pose proof (weekday_range (Date y m 1)) as Hw.
  pose proof (days_in_month_bounds y m) as Hn.
  rewrite Z.sub_0_r, (Z.mod_small (weekday _)) by done.
  set (wd := weekday (Date y m 1)) in *.
  set (da := (0 - wd - days_in_month y m) mod 7).
  assert (0 <= da < 7) as Hda by (apply Z.mod_pos_bound; lia).
  destruct (prevmonth y m) as [py pm] eqn:Ep.
  destruct (nextmonth y m) as [ny nm] eqn:En.
  pose proof (days_in_month_bounds py pm) as Hpn.
  assert (pm ≠ m ∧ (wd ≠ 0 → valid_month py pm)) as [Hpm Hpv].
  { unfold prevmonth in Ep. destruct (Z.eqb_spec m 1) as [-> | Hne].
    - injection Ep as <- <-. split; [done |]. intros Hwd.
      split; [| lia]. unfold MINYEAR, MAXYEAR.
      destruct (decide (y = 1)) as [-> |]; [| lia].
      by vm_compute in Hwd.
    - injection Ep as <- <-. split; [lia |]. intros _.
      split; unfold MINYEAR, MAXYEAR; lia. }
  assert (nm ≠ m ∧ valid_month ny nm) as [Hnm Hnv].
  { unfold nextmonth in En. destruct (Z.eqb_spec m 12) as [-> | Hne].
    - injection En as <- <-. split; [done |].
      split; unfold MINYEAR, MAXYEAR; [| lia].
      unfold last_month, MAXYEAR in Hlast. lia.
    - injection En as <- <-. split; [lia |].
      split; unfold MINYEAR, MAXYEAR; lia. }
  rewrite dates_of_valid.
  2:{ rewrite !Forall_app, !Forall_fmap. repeat split.
      - apply Forall_forall. intros d Hd%elem_of_seqZ. cbn.
        split; cbn; [apply Hpv |]; lia.
      - apply Forall_forall. intros d Hd%elem_of_seqZ. cbn.
        split; cbn; [split; unfold MINYEAR, MAXYEAR |]; lia.
      - apply Forall_forall. intros d Hd%elem_of_seqZ. cbn.
        pose proof (days_in_month_bounds ny nm).
        split; cbn; [done | lia]. }
  rewrite !fmap_app, <- !list_fmap_compose.
  eexists _, _. split; [| repeat split].
  - f_equal. f_equal. f_equal. by rewrite month_days_seqZ.
  - rewrite length_fmap, length_seqZ. lia.
  - rewrite length_fmap, length_seqZ. lia.
  - apply Forall_fmap, Forall_forall. by intros d _.
  - apply Forall_fmap, Forall_forall. by intros d _.
Qed.

(** When the dates are listed, the month is of the calendar and is not
    December 9999, whose last week leaves the calendar. *)
Lemma itermonthdates_inv y m ds :
  itermonthdates y m = Ok ds → valid_month y m ∧ ¬ last_month y m.
Proof.
  unfold itermonthdates. intros H.
  destruct ((1 <=? m) && (m <=? 12)) eqn:Em; [| done].
  pose proof (dates_of_inv _ _ H) as Hall.
  assert (valid_month y m) as Hv.
  { unfold itermonthdays3 in Hall.
    destruct (prevmonth y m) as [py pm], (nextmonth y m) as [ny nm].
    rewrite !Forall_app, !Forall_fmap in Hall.
    destruct Hall as (_ & Hmid & _).
    rewrite Forall_forall in Hmid.
    pose proof (days_in_month_bounds y m).
    destruct (Hmid 1) as [Hvm _]; [apply elem_of_seqZ; lia | done]. }
  split; [done |]. intros [-> ->]. by vm_compute in H.
Qed.

Lemma getitem_done {A} (l : list A) i x :
  0 <= i → getitem l i = Done x ↔ l !! Z.to_nat i = Some x.
Proof.
  intros Hi. unfold getitem.
  replace (i <? 0) with false by (symmetry; apply Z.ltb_ge; lia).
  destruct (Z.leb_spec 0 i); [| lia]. cbn [andb].
  destruct (Z.ltb_spec i (Z.of_nat (length l))) as [Hlt | Hge].
  - destruct (l !! Z.to_nat i) as [y |] eqn:E; [split; congruence |].
    apply lookup_ge_None in E. lia.
  - split; [done |]. intros E. apply lookup_lt_Some in E. lia.
Qed.

Lemma getitem_fail {A} (l : list A) i f :
  getitem l i = Fail f → f = IndexError.
Proof.
  unfold getitem.
  destruct (_ && _); [| congruence].
  destruct (l !! _); congruence.
Qed.

Lemma getitem_out {A} (l : list A) i :
  Z.of_nat (length l) <= i → getitem l i = Fail IndexError.
Proof.
  intros Hi. unfold getitem.
  replace (i <? 0) with false by (symmetry; apply Z.ltb_ge; lia).
  replace (i <? Z.of_nat (length l)) with false
    by (symmetry; apply Z.ltb_ge; lia).
  by rewrite andb_false_r.
Qed.

(** What the cell of a position is, when the loop gets to build it. *)
Lemma grid_cell_done area dw dh sm ds r c x :
  0 <= 7 * r + c →
  grid_cell area dw dh sm ds r c = Done x ↔
  ∃ d, ds !! Z.to_nat (7 * r + c) = Some d
       ∧ x = Cell (Rect (rx area + 20 + c * dw) (ry area + 100 + (r + 1) * dh)
                     (dw - 6) (dh - 6))
               (r, c) (if month d =? sm then Some d else None).
Proof.
  intros Hi. unfold grid_cell. cbv zeta.
  destruct (getitem ds (7 * r + c)) as [d | f] eqn:E.
  - apply getitem_done in E; [| done]. split.
    + intros [= <-]. by exists d.
    + intros (d' & Hd' & ->). rewrite E in Hd'. by injection Hd' as ->.
  - split; [done |]. intros (d & Hd & _).
    apply getitem_done in Hd; [congruence | done].
Qed.

Lemma grid_cells_fail area dw dh sm ds ps f :
  grid_cells area dw dh sm ds ps = Fail f → f = IndexError.
Proof.
  induction ps as [| [r c] ps IH]; [done |]. cbn [grid_cells].
  unfold grid_cell. cbv zeta.
  destruct (getitem ds (7 * r + c)) eqn:E.
  - destruct (grid_cells _ _ _ _ _ ps); [done |]. intros [= <-]. by apply IH.
  - intros [= <-]. by apply getitem_fail in E.
Qed.

Lemma grid_cells_out area dw dh sm ds ps r c :
  (r, c) ∈ ps → Z.of_nat (length ds) <= 7 * r + c →
  grid_cells area dw dh sm ds ps = Fail IndexError.
Proof.
  intros Hin Hout.
  destruct (grid_cells area dw dh sm ds ps) as [cells | f] eqn:E.
  - exfalso. revert cells E.
    induction ps as [| [r' c'] ps IH]; intros cells E;
      [by apply elem_of_nil in Hin |].
    cbn [grid_cells] in E.
    destruct (grid_cell area dw dh sm ds r' c') as [x |] eqn:Ex; [| done].
    destruct (grid_cells area dw dh sm ds ps) as [xs |] eqn:Exs; [| done].
    apply elem_of_cons in Hin as [[= <- <-] | Hin]; [| by eapply IH].
    unfold grid_cell in Ex. cbv zeta in Ex.
    by rewrite getitem_out in Ex.
  - f_equal. by eapply grid_cells_fail.
Qed.

Lemma grid_cells_done area dw dh sm ds ps :
  Forall (λ p, 0 <= 7 * p.1 + p.2) ps → ∀ cells,
  grid_cells area dw dh sm ds ps = Done cells →
  Forall2 (λ p x, grid_cell area dw dh sm ds p.1 p.2 = Done x) ps cells.
Proof.
  induction 1 as [| [r c] ps Hp _ IH]; intros cells E; cbn [grid_cells] in E.
  - injection E as <-. constructor.
  - destruct (grid_cell area dw dh sm ds r c) as [x |] eqn:Ex; [| done].
    destruct (grid_cells area dw dh sm ds ps) as [xs |] eqn:Exs; [| done].
    injection E as <-. constructor; [done | by apply IH].
Qed.

Lemma grid_cells_in area dw dh sm ds ps :
  Forall (λ p, 0 <= 7 * p.1 + p.2 < Z.of_nat (length ds)) ps →
  ∃ cells, grid_cells area dw dh sm ds ps = Done cells.
Proof.
  induction 1 as [| [r c] ps Hp _ [xs IH]]; [by eexists |].
  cbn [grid_cells]. cbn in Hp.
  destruct (getitem_in_range ds (7 * r + c) Hp) as (d & Hd & _).
  unfold grid_cell. cbv zeta. rewrite Hd, IH. by eexists.
Qed.

Lemma grid_positions_nonneg :
  Forall (λ p : Z * Z, 0 <= 7 * p.1 + p.2) grid_positions.
Proof. apply (bool_decide_unpack _). by vm_compute. Qed.

Lemma grid_positions_range :
  Forall (λ p : Z * Z, 0 <= 7 * p.1 + p.2 < 42 ∧ 0 <= p.2 < 7) grid_positions.
Proof. apply (bool_decide_unpack _). by vm_compute. Qed.

(** The dates of the cells are the dates of the month among the 42 that
    the positions index. *)
Lemma grid_cells_dates area dw dh sm ds ps cells :
  Forall2 (λ p x, grid_cell area dw dh sm ds p.1 p.2 = Done x) ps cells →
  Forall (λ p : Z * Z, 0 <= 7 * p.1 + p.2) ps →
  omap cell_date cells
  = filter (λ d, month d = sm)
      (omap (λ p : Z * Z, ds !! Z.to_nat (7 * p.1 + p.2)) ps)
  ∧ cell_pos <$> cells = ps.
Proof.
  induction 1 as [| [r c] x ps cells Hx _ IH]; intros Hps; [done |].
  apply Forall_cons in Hps as [Hp Hps]. cbn in Hp, Hx.
  apply grid_cell_done in Hx as (d & Hd & ->); [| done].
  destruct (IH Hps) as [IH1 IH2].
  cbn [omap list_omap fmap list_fmap cell_date cell_pos fst snd].
  rewrite Hd, filter_cons, IH2. split; [| done].
  destruct (Z.eqb_spec (month d) sm) as [E | E].
  - by rewrite decide_True, IH1.
  - by rewrite decide_False, IH1.
Qed.

Lemma grid_positions_index {A} (ds : list A) :
  length ds = 42%nat →
  omap (λ p : Z * Z, ds !! Z.to_nat (7 * p.1 + p.2)) grid_positions = ds.
Proof.
  intros Hlen.
  do 42 (destruct ds as [| ? ds]; [done |]).
  destruct ds; [reflexivity | done].
Qed.

(** The number of dates of the weeks of a month: 42 exactly when the
    weeks are six. *)
Lemma weeks_length y m before after :
  Z.of_nat (length before) = weekday (Date y m 1) →
  Z.of_nat (length after)
  = (0 - weekday (Date y m 1) - days_in_month y m) mod 7 →
  let n := Z.of_nat (length (before ++ month_days y m ++ after)) in
  (six_weeks y m → n = 42) ∧ (¬ six_weeks y m → n <= 35).
Proof.
  intros Hb Ha. cbv zeta. unfold six_weeks.
  rewrite !length_app, month_days_seqZ, length_fmap, length_seqZ.
  pose proof (weekday_range (Date y m 1)).
  pose proof (days_in_month_bounds y m).
  split; intros; divlia.
Qed.

(** The grid of a month of the calendar other than December 9999. *)
Lemma calendar_grid_spec w area :
  valid_month (view_year w) (view_month w) →
  ¬ last_month (view_year w) (view_month w) →
  (six_weeks (view_year w) (view_month w) →
   ∃ h dw dh cells,
     calendar_grid w area = Done (h, dw, dh, cells)
     ∧ omap cell_date cells = month_days (view_year w) (view_month w)
     ∧ cell_pos <$> cells = grid_positions)
  ∧ (¬ six_weeks (view_year w) (view_month w) →
     calendar_grid w area = Fail IndexError).
Proof.
  intros Hv Hl.
  destruct (itermonthdates_spec _ _ Hv Hl)
    as (before & after & Hds & Hb & Ha & Hfb & Hfa).
  destruct (weeks_length _ _ _ _ Hb Ha) as [Hsix Hnot].
  unfold calendar_grid. cbv zeta. rewrite Hds.
  set (ds := before ++ month_days (view_year w) (view_month w) ++ after) in *.
  split.
  - intros H6. specialize (Hsix H6).
    destruct (grid_cells_in area ((rw area - 20 * 2) / 7)
                ((rh area - 100 - 20 * 2) / 7) (view_month w) ds
                grid_positions) as [cells Hcells].
    { eapply Forall_impl; [apply grid_positions_range |].
      intros p [? _]. cbn. lia. }
    rewrite Hcells. eexists _, _, _, _. split; [done |].
    apply grid_cells_done in Hcells; [| apply grid_positions_nonneg].
    apply grid_cells_dates in Hcells as [Hd Hp];
      [| apply grid_positions_nonneg].
    split; [| done].
    rewrite Hd, grid_positions_index by lia.
    unfold ds. rewrite !filter_app.
    rewrite (filter_none _ before), (filter_none _ after) by done.
    rewrite filter_all; [by rewrite app_nil_r |].
    apply Forall_forall. intros d Hd'.
    by apply elem_of_month_days in Hd' as (_ & _ & ?).
  - intros H6. specialize (Hnot H6).
    rewrite (grid_cells_out _ _ _ _ _ _ 5 0); [done | |lia].
    apply (bool_decide_unpack _). by vm_compute.
Qed.

(** X18. [calendar_grid] indexes 42 dates, and [itermonthdates] lists only
    the weeks a month needs: for a month of the calendar (December 9999
    apart) the grid is built when the month spans six weeks that begin on
    Monday, and the call ends in [IndexError] for every other month. *)
Theorem calendar_grid_needs_six_weeks w area :
  valid_month (view_year w) (view_month w) →
  ¬ last_month (view_year w) (view_month w) →
  (six_weeks (view_year w) (view_month w) →
   ∃ grid, calendar_grid w area = Done grid)
  ∧ (¬ six_weeks (view_year w) (view_month w) →
     calendar_grid w area = Fail IndexError).
Proof.
  intros Hv Hl. destruct (calendar_grid_spec w area Hv Hl) as [H6 Hn].
  split; [| done]. intros H. destruct (H6 H) as (h & dw & dh & cells & E & _).
  by eexists.
Qed.

Lemma calendar_grid_needs_six_weeks_witness :
  (six_weeks 2024 1 →
   ∃ grid, calendar_grid (with_view scenario_window 2024 1)
             (Rect 0 0 840 800) = Done grid)
  ∧ (¬ six_weeks 2024 1 →
     calendar_grid (with_view scenario_window 2024 1) (Rect 0 0 840 800)
     = Fail IndexError).
Proof.
  apply (calendar_grid_needs_six_weeks (with_view scenario_window 2024 1)).
  - vm_compute. repeat split; discriminate.
  - vm_compute. intros [H _]. discriminate H.
Defined.

(** What a built grid is. *)
Lemma calendar_grid_done w area h dw dh cells :
  calendar_grid w area = Done (h, dw, dh, cells) →
  valid_month (view_year w) (view_month w)
  ∧ omap cell_date cells = month_days (view_year w) (view_month w)
  ∧ cell_pos <$> cells = grid_positions
  ∧ dw = (rw area - 20 * 2) / 7 ∧ dh = (rh area - 100 - 20 * 2) / 7
  ∧ Forall (λ x,
       cell_rect x
       = Rect (rx area + 20 + (cell_pos x).2 * dw)
           (ry area + 100 + ((cell_pos x).1 + 1) * dh) (dw - 6) (dh - 6))
      cells.
Proof.
  intros E.
  assert (valid_month (view_year w) (view_month w)
          ∧ ¬ last_month (view_year w) (view_month w)) as [Hv Hl].
  { unfold calendar_grid in E. cbv zeta in E.
    destruct (itermonthdates (view_year w) (view_month w)) eqn:Ed; [| done].
    by eapply itermonthdates_inv. }
  destruct (calendar_grid_spec w area Hv Hl) as [H6 Hn].
  destruct (Z_lt_dec 35 (weekday (Date (view_year w) (view_month w) 1)
                         + days_in_month (view_year w) (view_month w)))
    as [Hs | Hs];
    [| rewrite (Hn Hs) in E; done].
  destruct (H6 Hs) as (h' & dw' & dh' & cells' & E' & Hd & Hp).
  rewrite E in E'. injection E' as <- <- <- <-.
  split; [done |]. split; [done |]. split; [done |].
  unfold calendar_grid in E. cbv zeta in E.
  destruct (itermonthdates (view_year w) (view_month w)) as [ds |]; [| done].
  destruct (grid_cells _ _ _ _ ds grid_positions) as [xs |] eqn:Ex; [| done].
  injection E as <- <- <- <-. split; [done |]. split; [done |].
  apply grid_cells_done in Ex; [| apply grid_positions_nonneg].
  assert (Forall (λ p : Z * Z, 0 <= 7 * p.1 + p.2) grid_positions)
    as Hnn by apply grid_positions_nonneg.
  revert Hnn. clear -Ex. induction Ex as [| [r c] x ps xs Hx _ IH];
    intros Hnn; [constructor |].
  apply Forall_cons in Hnn as [Hp Hnn]. cbn in Hp, Hx.
  apply grid_cell_done in Hx as (d & _ & ->); [| done].
  constructor; [done | by apply IH].
Qed.

(** X19. Whenever [calendar_grid] returns, it returns 42 cells in the
    order of the rows and columns, and the cells that carry a date carry
    exactly the days of the month shown, each once and in order: the days
    of the neighbouring months are blank cells. *)
Theorem built_grid_shows_the_month w area h dw dh cells :
  calendar_grid w area = Done (h, dw, dh, cells) →
  length cells = 42%nat
  ∧ cell_pos <$> cells = grid_positions
  ∧ omap cell_date cells = month_days (view_year w) (view_month w).
Proof.
  intros E. apply calendar_grid_done in E as (_ & Hd & Hp & _).
  split; [| done].
  rewrite <- (length_fmap cell_pos), Hp. reflexivity.
Qed.

Lemma built_grid_shows_the_month_witness :
  length (grid_cells_of (calendar_grid november_window calendar_area)) = 42%nat
  ∧ cell_pos <$> grid_cells_of (calendar_grid november_window calendar_area)
    = grid_positions
  ∧ omap cell_date (grid_cells_of (calendar_grid november_window calendar_area))
    = month_days 2026 11.
Proof.
  apply (built_grid_shows_the_month november_window calendar_area
           (Rect 20 20 800 80) 114 94).
  vm_compute. reflexivity.
Defined.

Lemma first_day_at_some cells sm p n :
  first_day_at cells sm p = Some n →
  ∃ x d, x ∈ cells ∧ cell_date x = Some d
         ∧ collidepoint (cell_rect x) p = true ∧ month d = sm ∧ n = day d.
Proof.
  induction cells as [| x cells IH]; [done |]. cbn [first_day_at].
  destruct (cell_date x) as [d |] eqn:Ed.
  - destruct (collidepoint (cell_rect x) p) eqn:Ec; cbn [andb].
    + destruct (Z.eqb_spec (month d) sm) as [Em | Em].
      * intros [= <-]. exists x, d. by rewrite elem_of_cons; auto.
      * intros (x' & d' & ? & ?)%IH. exists x', d'.
        by rewrite elem_of_cons; auto.
    + intros (x' & d' & ? & ?)%IH. exists x', d'.
      by rewrite elem_of_cons; auto.
  - intros (x' & d' & ? & ?)%IH. exists x', d'.
    by rewrite elem_of_cons; auto.
Qed.

Lemma first_day_at_unique cells sm p x d :
  (∀ x', x' ∈ cells → collidepoint (cell_rect x') p = true → x' = x) →
  x ∈ cells → cell_date x = Some d → month d = sm →
  collidepoint (cell_rect x) p = true →
  first_day_at cells sm p = Some (day d).
Proof.
  intros Huniq Hin Hd Hm Hc.
  induction cells as [| x0 cells IH]; [by apply elem_of_nil in Hin |].
  cbn [first_day_at].
  assert (x0 ≠ x → first_day_at cells sm p = Some (day d)) as Hrest.
  { intros Hne. apply IH.
    - intros x' Hx'. apply Huniq. by apply elem_of_cons; right.
    - apply elem_of_cons in Hin as [-> | Hin]; done. }
  destruct (decide (x0 = x)) as [-> | Hne].
  - rewrite Hd, Hc. cbn [andb]. by apply Z.eqb_eq in Hm as ->.
  - destruct (cell_date x0) as [d0 |]; [| by apply Hrest].
    destruct (collidepoint (cell_rect x0) p) eqn:Ec0; [| by apply Hrest].
    exfalso. apply Hne, Huniq; [by apply elem_of_cons; left | done].
Qed.

Lemma NoDup_fmap_inj_on {A B} (f : A → B) (l : list A) x y :
  NoDup (f <$> l) → x ∈ l → y ∈ l → f x = f y → x = y.
Proof.
  induction l as [| a l IH]; [by intros _ ?%elem_of_nil |].
  rewrite fmap_cons, NoDup_cons, !elem_of_cons.
  intros [Ha Hnd] [-> | Hx] [-> | Hy] E; auto.
  - exfalso. apply Ha. rewrite E. by apply list_elem_of_fmap_2.
  - exfalso. apply Ha. rewrite <- E. by apply list_elem_of_fmap_2.
Qed.

Lemma NoDup_grid_positions : NoDup grid_positions.
Proof. apply (bool_decide_unpack _). by vm_compute. Qed.

(** The rectangles of two columns, or of two rows, share no point. *)
Lemma strip_unique (o s a b t : Z) :
  o + a * s <= t < o + a * s + (s - 6) →
  o + b * s <= t < o + b * s + (s - 6) → a = b.
Proof. intros Ha Hb. nia. Qed.

Lemma grid_cell_unique w area h dw dh cells p x x' :
  calendar_grid w area = Done (h, dw, dh, cells) →
  x ∈ cells → x' ∈ cells →
  collidepoint (cell_rect x) p = true →
  collidepoint (cell_rect x') p = true → x' = x.
Proof.
  intros E Hx Hx' Hc Hc'.
  apply calendar_grid_done in E as (_ & _ & Hp & _ & _ & Hr).
  rewrite Forall_forall in Hr.
  apply (NoDup_fmap_inj_on cell_pos cells); [| done | done |].
  { rewrite Hp. apply NoDup_grid_positions. }
  unfold collidepoint in Hc, Hc'.
  rewrite (Hr x Hx) in Hc. rewrite (Hr x' Hx') in Hc'.
  cbn [rx ry rw rh] in Hc, Hc'.
  rewrite !andb_true_iff, !Z.leb_le, !Z.ltb_lt in Hc, Hc'.
  destruct (cell_pos x) as [r c], (cell_pos x') as [r' c']. cbn in Hc, Hc'.
  f_equal.
  - assert (r' + 1 = r + 1)
      by (apply (strip_unique (ry area + 100) dh _ _ p.2); lia).
    lia.
  - apply (strip_unique (rx area + 20) dw _ _ p.1); lia.
Qed.

Lemma dated_cell_in_month w area h dw dh cells x d :
  calendar_grid w area = Done (h, dw, dh, cells) →
  x ∈ cells → cell_date x = Some d →
  date_in_month (view_year w) (view_month w) d.
Proof.
  intros E Hx Hd.
  apply calendar_grid_done in E as (Hv & Hds & _).
  apply elem_of_month_days; [done |]. rewrite <- Hds.
  apply list_elem_of_omap. by exists x.
Qed.

Lemma date_new_in_month y m d :
  date_in_month y m d → date_new y m (day d) = Ok d ∧ (day d =? 0) = false.
Proof.
  intros (Hv & <- & <-). split.
  - destruct d as [y m n]. by apply date_new_valid.
  - destruct Hv as [_ ?]. apply Z.eqb_neq. lia.
Qed.

Example click_calendar_examples :
  click_calendar november_window (710, 200) calendar_area
  = Done (Window scenario_app 2026 11 (Date 2026 11 1)
            [afternoon_B; all_day_A] 0)
  ∧ click_calendar november_window (30, 200) calendar_area
    = Done november_window
  ∧ click_calendar november_window (703, 200) calendar_area
    = Done november_window
  ∧ click_calendar january_window (710, 200) calendar_area = Fail IndexError.
Proof. vm_compute. repeat split; reflexivity. Qed.

(** A click in the calendar never fails on building the date: it fails
    exactly as [calendar_grid] fails, and otherwise it leaves the window
    as it is or selects a day of the month shown and puts the selection
    on the first event. *)
Lemma click_calendar_outcome w p area :
  match click_calendar w p area with
  | Fail f => calendar_grid w area = Fail f
  | Done w' =>
      w' = w
      ∨ ∃ d, date_in_month (view_year w) (view_month w) d
             ∧ w' = Window (data w) (view_year w) (view_month w) d
                      (events_for_selected w) 0
  end.
Proof.
  unfold click_calendar, day_at_position.
  destruct (calendar_grid w area) as [[[[h dw] dh] cells] | f] eqn:E; [| done].
  destruct (first_day_at cells (view_month w) p) as [n |] eqn:En; [| by left].
  apply first_day_at_some in En as (x & d & Hx & Hd & _ & _ & ->).
  pose proof (dated_cell_in_month _ _ _ _ _ _ _ _ E Hx Hd) as Hin.
  destruct (date_new_in_month _ _ _ Hin) as [-> ->].
  right. by exists d.
Qed.

(** X20. The cells of the grid share no point, so a click inside the
    rectangle of a cell that carries a date selects that very date, with
    the selection on the first event. *)
Theorem click_on_a_day_selects_it w p area h dw dh cells x d :
  calendar_grid w area = Done (h, dw, dh, cells) →
  x ∈ cells → cell_date x = Some d →
  collidepoint (cell_rect x) p = true →
  click_calendar w p area
  = Done (Window (data w) (view_year w) (view_month w) d
            (events_for_selected w) 0).
Proof.
  intros E Hx Hd Hc.
  pose proof (dated_cell_in_month _ _ _ _ _ _ _ _ E Hx Hd) as Hin.
  unfold click_calendar, day_at_position. rewrite E.
  rewrite (first_day_at_unique cells (view_month w) p x d); try done.
  - by destruct (date_new_in_month _ _ _ Hin) as [-> ->].
  - intros x' Hx' Hc'. by eapply grid_cell_unique.
  - by destruct Hin as (_ & _ & ?).
Qed.

Lemma click_on_a_day_selects_it_witness :
  click_calendar november_window (250, 400) calendar_area
  = Done (Window scenario_app 2026 11 (Date 2026 11 11)
            [afternoon_B; all_day_A] 0).
Proof.
  apply (click_on_a_day_selects_it november_window (250, 400) calendar_area
           (Rect 20 20 800 80) 114 94
           (grid_cells_of (calendar_grid november_window calendar_area))
           (Cell (Rect 248 382 108 88) (2, 2) (Some (Date 2026 11 11)))).
  - vm_compute. reflexivity.
  - apply (bool_decide_unpack _). vm_compute. exact I.
  - reflexivity.
  - vm_compute. reflexivity.
Defined.

(** ** The rows of the panel *)

Example handle_click_examples :
  handle_click scenario_window (900, 130) calendar_area panel_area
  = Done (with_index scenario_window 0)
  ∧ handle_click scenario_window (900, 200) calendar_area panel_area
    = Done (with_index scenario_window 1)
  ∧ handle_click scenario_window (900, 184) calendar_area panel_area
    = Done scenario_window
  ∧ handle_click scenario_window (900, 300) calendar_area panel_area
    = Done scenario_window
  ∧ handle_click scenario_window (1300, 300) calendar_area panel_area
    = Done scenario_window
  ∧ handle_click scenario_window (30, 200) calendar_area panel_area
    = Fail IndexError.
Proof. vm_compute. repeat split; reflexivity. Qed.

(** The row drawn at a position of the list. *)
Lemma drawn_rows_lookup lr evs : ∀ y2 k row,
  drawn_rows lr y2 evs !! k = Some row →
  row = Rect (rx lr + 10) (y2 + 78 * Z.of_nat k) (rw lr - 20) 70
  ∧ (k < length evs)%nat.
Proof.
  induction evs as [| e evs IH]; intros y2 k row; [done |].
  cbn [drawn_rows]. cbv zeta. cbn [rh]. destruct k as [| k]; cbn [lookup list_lookup].
  - intros [= <-]. split; [| cbn; lia]. f_equal; lia.
  - destruct (_ <? _); [done |]. intros [-> Hk]%IH.
    split; [| cbn; lia]. f_equal; lia.
Qed.

Lemma row_unique lr y2 k k' p :
  collidepoint (Rect (rx lr + 10) (y2 + 78 * Z.of_nat k) (rw lr - 20) 70) p
  = true →
  collidepoint (Rect (rx lr + 10) (y2 + 78 * Z.of_nat k') (rw lr - 20) 70) p
  = true →
  k' = k.
Proof.
  unfold collidepoint. cbn [rx ry rw rh].
  rewrite !andb_true_iff, !Z.leb_le, !Z.ltb_lt. lia.
Qed.

(** The loop of the click and the loop of the drawing walk the same
    rows. *)
Lemma hit_rows_spec lr p evs : ∀ y2 i,
  match hit_rows lr y2 i evs p with
  | Some j =>
      ∃ k row, j = i + Z.of_nat k
               ∧ drawn_rows lr y2 evs !! k = Some row
               ∧ collidepoint row p = true
  | None => Forall (λ row, collidepoint row p = false) (drawn_rows lr y2 evs)
  end.
Proof.
  induction evs as [| e evs IH]; intros y2 i; [constructor |].
  cbn [hit_rows drawn_rows]. cbv zeta. cbn [rh].
  destruct (collidepoint _ p) eqn:Ec.
  - exists 0%nat. eexists. split; [lia |]. by split.
  - destruct (_ <? _).
    + by repeat constructor.
    + specialize (IH (y2 + (70 + 8)) (i + 1)).
      destruct (hit_rows lr (y2 + (70 + 8)) (i + 1) evs p) as [j |].
      * destruct IH as (k & row & -> & Hk & Hc).
        exists (S k), row. split; [lia |]. by split.
      * by constructor.
Qed.

(** X21. The click and the drawing agree on the rows of the panel:
    [event_index_at_position] returns the position of the one row that
    [draw_panel] draws under the point, a position of the list, and
    [None] exactly when no drawn row holds the point. *)
Theorem click_hits_the_drawn_row w p panel :
  match event_index_at_position w p panel with
  | Some i =>
      0 <= i < Z.of_nat (length (events_for_selected w))
      ∧ (∃ row, panel_rows w panel !! Z.to_nat i = Some row
                ∧ collidepoint row p = true)
      ∧ ∀ k row, panel_rows w panel !! k = Some row →
                 collidepoint row p = true → k = Z.to_nat i
  | None => Forall (λ row, collidepoint row p = false) (panel_rows w panel)
  end.
Proof.
  unfold event_index_at_position, panel_rows. cbv zeta.
  set (lr := list_rect panel). set (y2 := ry lr + 10).
  pose proof (hit_rows_spec lr p (events_for_selected w) y2 0) as H.
  destruct (hit_rows lr y2 0 (events_for_selected w) p) as [j |]; [| done].
  destruct H as (k & row & -> & Hk & Hc).
  destruct (drawn_rows_lookup _ _ _ _ _ Hk) as [Hrow Hlt].
  rewrite Z.add_0_l, Nat2Z.id. split; [lia |]. split; [by exists row |].
  intros k' row' Hk' Hc'.
  destruct (drawn_rows_lookup _ _ _ _ _ Hk') as [Hrow' _].
  subst row row'. by eapply row_unique.
Qed.

Lemma selection_in_range_zero w d :
  selection_in_range
    (Window (data w) (view_year w) (view_month w) d (events_for_selected w) 0).
Proof.
  unfold selection_in_range, last_index.
  cbn [selected_event_index events_for_selected]. lia.
Qed.

(** X22. A click changes only the selection.  [handle_click] fails only
    for a click in the calendar, and then as [calendar_grid] fails;
    otherwise the stores, the month shown and the list of the panel are
    as before, the selected date is as before or a day of the month
    shown, and a selection within the list stays within it. *)
Theorem handle_click_changes_only_the_selection w p cal_rect panel_rect :
  match handle_click w p cal_rect panel_rect with
  | Fail f =>
      collidepoint cal_rect p = true ∧ calendar_grid w cal_rect = Fail f
  | Done w' =>
      data w' = data w
      ∧ view_year w' = view_year w ∧ view_month w' = view_month w
      ∧ events_for_selected w' = events_for_selected w
      ∧ (selected_date w' = selected_date w
         ∨ date_in_month (view_year w) (view_month w) (selected_date w'))
      ∧ (selection_in_range w → selection_in_range w')
  end.
Proof.
  unfold handle_click.
  destruct (collidepoint cal_rect p) eqn:Ec.
  - pose proof (click_calendar_outcome w p cal_rect) as H.
    destruct (click_calendar w p cal_rect) as [w' | f]; [| done].
    destruct H as [-> | (d & Hd & ->)].
    + split_and!; auto.
    + cbn [data view_year view_month events_for_selected selected_date].
      split_and!; auto. intros _. apply selection_in_range_zero.
  - destruct (collidepoint panel_rect p); [| split_and!; auto].
    assert (∀ hit, data (click_panel w hit) = data w
                   ∧ view_year (click_panel w hit) = view_year w
                   ∧ view_month (click_panel w hit) = view_month w
                   ∧ events_for_selected (click_panel w hit)
                     = events_for_selected w
                   ∧ selected_date (click_panel w hit) = selected_date w)
      as Hsame.
    { intros [idx |]; cbn [click_panel]; [| done].
      by destruct (_ && _). }
    destruct (Hsame (event_index_at_position w p panel_rect))
      as (? & ? & ? & ? & ?).
    split_and!; auto. intros Hr. by apply selection_kept_click.
Qed.

(** ** More on the feed client *)

(** X23. A source that [add_source] accepts is stored once: after a
    success the trimmed text is in the stored list, every source stored
    before is still there and in its place, a list without repetition
    stays so, the list in memory is the stored one, and accepting the same
    text again changes nothing. *)
Theorem add_source_stores_once self url :
  (add_source self url).1.1 = true →
  let u := Py.strip (Py.or_else url "") in
  let self' := (add_source self url).2 in
  u ∈ load_sources self'
  ∧ load_sources self `prefix_of` load_sources self'
  ∧ (NoDup (load_sources self) → NoDup (load_sources self'))
  ∧ urls self' = load_sources self'
  ∧ (add_source self' url).2 = self'.
Proof.
  cbv zeta. unfold add_source.
  set (u := Py.strip (Py.or_else url "")).
  destruct (Py.startswith (Py.lower u) "http") eqn:Ep; cbn [negb]; [| done].
  intros _. case_bool_decide as Hin.
  - cbn [snd]. unfold load_sources at 1 4 5 6 7 8. cbn [stored_urls default urls].
    rewrite bool_decide_false.
    2:{ intros Hn. apply Hn. apply elem_of_app. right. apply list_elem_of_here. }
    split_and!.
    + apply elem_of_app. right. apply list_elem_of_here.
    + by eexists.
    + intros Hnd. apply NoDup_app. split_and!; [done | | apply NoDup_singleton].
      intros x Hx ->%list_elem_of_singleton. done.
    + done.
    + cbn [stored_urls events status]. done.
  - cbn [snd].
    unfold load_sources at 1 3 5 6 7. cbn [stored_urls].
    fold (load_sources self).
    rewrite bool_decide_false by (intros Hn; by apply Hn).
    split_and!; [done | done | done | done |].
    cbn [stored_urls events status]. done.
Qed.

Lemma add_source_stores_once_witness :
  let self := one_source in
  let url := Some "  https://a.example/cal.ics "%string in
  let u := Py.strip (Py.or_else url "") in
  let self' := (add_source self url).2 in
  u ∈ load_sources self'
  ∧ load_sources self `prefix_of` load_sources self'
  ∧ (NoDup (load_sources self) → NoDup (load_sources self'))
  ∧ urls self' = load_sources self'
  ∧ (add_source self' url).2 = self'.
Proof.
  apply (add_source_stores_once one_source
           (Some "  https://a.example/cal.ics "%string)).
  vm_compute. reflexivity.
Defined.

(** What holds of what was in a cycle and of what a component gives,
    holds of what the cycle has after a feed, and after the feeds. *)
Lemma walk_components_Forall (P : event → Prop) w i url comps : ∀ c,
  (∀ t comp ev, comp ∈ comps →
     component_event w i url t comp = Ok (Some ev) → P ev) →
  Forall P (all_events c) →
  Forall P (all_events (walk_components w i url comps c)).
Proof.
  induction comps as [| comp comps IH]; intros c Hstep Hc;
    cbn [walk_components]; [done |].
  assert (∀ t comp' ev, comp' ∈ comps →
            component_event w i url t comp' = Ok (Some ev) → P ev) as Hrest.
  { intros t comp' ev Hin. apply Hstep. by apply elem_of_cons; right. }
  destruct (component_event w i url (total c) comp) as [[ev |] |] eqn:E.
  - apply IH; [done |]. cbn [all_events]. apply Forall_app. split; [done |].
    apply Forall_singleton. eapply Hstep; [apply list_elem_of_here | done].
  - by apply IH.
  - done.
Qed.

Lemma fetch_from_Forall (P : event → Prop) w urls : ∀ i c,
  (∀ k url t comps comp ev, urls !! k = Some url →
     http_get w (i + k) url = Calendar comps → comp ∈ comps →
     component_event w (i + k) url t comp = Ok (Some ev) → P ev) →
  Forall P (all_events c) →
  Forall P (all_events (fetch_from w i urls c)).
Proof.
  induction urls as [| url urls IH]; intros i c Hstep Hc; cbn [fetch_from];
    [done |].
  apply IH.
  - intros k u t comps comp ev Hk.
    replace (S i + k)%nat with (i + S k)%nat by lia.
    by apply (Hstep (S k) u t comps comp ev).
  - unfold fetch_one. destruct (http_get w i url) as [| | | comps] eqn:Eg;
      try done.
    apply walk_components_Forall; [| done].
    intros t comp ev Hin. specialize (Hstep 0%nat url t comps comp ev).
    rewrite Nat.add_0_r in Hstep. by apply Hstep.
Qed.

Lemma string_append_assoc (a b c : string) :
  ((a +:+ b) +:+ c = a +:+ (b +:+ c))%string.
Proof.
  induction a as [| x a IH]; [done |].
  change (String x a +:+ b)%string with (String x (a +:+ b)).
  change (String x (a +:+ b) +:+ c)%string with (String x ((a +:+ b) +:+ c)).
  by rewrite IH.
Qed.

Lemma prefix_app p s : String.prefix p (p +:+ s) = true.
Proof.
  induction p as [| a p IH]; [by destruct s |].
  cbn [String.prefix]. change (String a p +:+ s)%string with (String a (p +:+ s)).
  cbn [String.prefix]. by destruct (ascii_dec a a).
Qed.

Lemma or_else_truthy x d : Py.truthy d = true → Py.truthy (Py.or_else x d) = true.
Proof.
  intros Hd. unfold Py.or_else. destruct x as [s |]; [| done].
  by destruct (Py.truthy s) eqn:E.
Qed.

(** X24. Where a published feed occurrence comes from.  Every occurrence
    that [fetch_all] publishes carries the feed source and colour, a
    title that is not empty, the address of a stored source as its feed,
    and an id that begins with ["ics:"], the position of that source in
    the stored list and a colon. *)
Theorem fetch_all_occurrence_provenance w self ev :
  ev ∈ events (fetch_all w self) →
  ev_source ev = SrcIcs ∧ ev_color ev = SrcIcs
  ∧ (∃ title, ev_title ev = Some title ∧ Py.truthy title = true)
  ∧ ∃ (i : nat) url,
      load_sources self !! i = Some url
      ∧ feed (ev_meta ev) = Some url
      ∧ String.prefix ("ics:" +:+ pretty i +:+ ":") (ev_id ev) = true.
Proof.
  unfold fetch_all.
  destruct (load_sources self) as [| u0 us] eqn:El; cbn [events];
    [by intros ?%elem_of_nil |].
  revert ev. apply Forall_forall.
  apply fetch_from_Forall; [| constructor].
  intros k url t comps comp ev Hk _ _. cbn [Nat.add].
  unfold component_event.
  destruct (c_dtstart comp) as [p |]; [| done].
  destruct (dtstart_dt p) as [v |]; [| done]. cbn [mbind result_bind].
  destruct (dt_to_local_date_time w v) as [[d tm] |]; [| done].
  cbn [mbind result_bind]. intros [= <-].
  cbn [ev_source ev_color ev_title ev_meta ev_id feed].
  split_and!; [done | done | |].
  - eexists. split; [done |]. by apply or_else_truthy.
  - exists k, url. split_and!; [done | done |].
    match goal with
    | |- String.prefix ?a (_ +:+ _ +:+ _ +:+ ?uid) = true =>
        replace ("ics:" +:+ pretty k +:+ ":" +:+ uid)%string with (a +:+ uid)%string
          by (by rewrite !string_append_assoc)
    end.
    apply prefix_app.
Qed.

Lemma fetch_all_occurrence_provenance_witness :
  ev_source meeting_occurrence = SrcIcs ∧ ev_color meeting_occurrence = SrcIcs
  ∧ (∃ title, ev_title meeting_occurrence = Some title
              ∧ Py.truthy title = true)
  ∧ ∃ (i : nat) url,
      load_sources one_source !! i = Some url
      ∧ feed (ev_meta meeting_occurrence) = Some url
      ∧ String.prefix ("ics:" +:+ pretty i +:+ ":") (ev_id meeting_occurrence)
        = true.
Proof.
  apply (fetch_all_occurrence_provenance
           (serving [meeting] (Date 2024 1 10)) one_source meeting_occurrence).
  apply (bool_decide_unpack _). vm_compute. exact I.
Defined.

(** *** The link found in a description *)

Lemma take_nonspace_spec s :
  ∃ b, s = (take_nonspace s +:+ b)%string
       ∧ (b = EmptyString ∨ ∃ c b', b = String c b' ∧ Py.isspace c = true)
       ∧ no_white_space (take_nonspace s) = true.
Proof.
  induction s as [| c s (b & Hs & Hb & Hn)].
  - exists EmptyString. by split_and!; [| left |].
  - cbn [take_nonspace]. destruct (Py.isspace c) eqn:Ec.
    + exists (String c s). split_and!; [done | | done].
      right. by exists c, s.
    + exists b. split_and!; [| done |].
      * change (String c (take_nonspace s) +:+ b)%string
          with (String c (take_nonspace s +:+ b)).
        by rewrite <- Hs.
      * unfold no_white_space in *. cbn [list_ascii_of_string forallb].
        by rewrite Ec, Hn.
Qed.

Lemma drop_prefix_spec p : ∀ s r,
  drop_prefix p s = Some r → s = (p +:+ r)%string.
Proof.
  induction p as [| a p IH]; intros s r; cbn [drop_prefix].
  - by intros [= ->].
  - destruct s as [| b s]; [done |].
    destruct (decide (a = b)) as [-> |]; [| done].
    intros ->%IH. done.
Qed.

Lemma no_white_space_app a b :
  no_white_space (a +:+ b) = no_white_space a && no_white_space b.
Proof.
  unfold no_white_space. by rewrite list_ascii_of_string_app, forallb_app.
Qed.

Lemma url_after_scheme scheme s l :
  no_white_space scheme = true →
  match drop_prefix scheme s with
  | Some r =>
      if Py.truthy (take_nonspace r) then Some (scheme +:+ take_nonspace r)%string
      else None
  | None => None
  end = Some l →
  String.prefix scheme l = true
  ∧ (String.length scheme < String.length l)%nat
  ∧ no_white_space l = true
  ∧ ∃ b, run_in s EmptyString l b.
Proof.
  intros Hscheme.
  destruct (drop_prefix scheme s) as [r |] eqn:Ed; [| done].
  apply drop_prefix_spec in Ed as ->.
  destruct (Py.truthy (take_nonspace r)) eqn:Et; [| done]. intros [= <-].
  destruct (take_nonspace_spec r) as (b & Hr & Hb & Hn).
  split_and!.
  - apply prefix_app.
  - rewrite string_length_app. destruct (take_nonspace r); [done | cbn; lia].
  - by rewrite no_white_space_app, Hscheme, Hn.
  - exists b. split; [| done].
    change (EmptyString +:+ ?x)%string with x.
    by rewrite string_append_assoc, <- Hr.
Qed.

Lemma url_re_match_spec s l :
  url_re_match s = Some l →
  (String.prefix "http://" l = true ∨ String.prefix "https://" l = true)
  ∧ (7 < String.length l)%nat
  ∧ no_white_space l = true
  ∧ ∃ b, run_in s EmptyString l b.
Proof.
  unfold url_re_match. cbv zeta.
  destruct (match drop_prefix "https://" s with
            | Some r =>
                if Py.truthy (take_nonspace r)
                then Some ("https://" +:+ take_nonspace r)%string
                else None
            | None => None
            end) as [l' |] eqn:E; cbn [orelse].
  - intros [= <-]. apply url_after_scheme in E as (? & ? & ? & ?); [| done].
    cbn in *. split_and!; [by right | lia | done | done].
  - intros E'. apply url_after_scheme in E' as (? & ? & ? & ?); [| done].
    cbn in *. split_and!; [by left | lia | done | done].
Qed.

Lemma url_re_search_spec s : ∀ l,
  url_re_search s = Some l →
  (String.prefix "http://" l = true ∨ String.prefix "https://" l = true)
  ∧ (7 < String.length l)%nat
  ∧ no_white_space l = true
  ∧ ∃ a b, run_in s a l b.
Proof.
  induction s as [| c s IH]; intros l; [done |].
  cbn [url_re_search].
  destruct (url_re_match (String c s)) as [l' |] eqn:E; cbn [orelse].
  - intros [= <-]. apply url_re_match_spec in E as (? & ? & ? & b & ?).
    split_and!; try done. by exists EmptyString, b.
  - intros (? & ? & ? & a & b & Hs & Hb)%IH. split_and!; try done.
    exists (String c a), b. split; [| done].
    change (String c a +:+ ?x)%string with (String c (a +:+ x)).
    by rewrite <- Hs.
Qed.

(** X25. The link of a feed occurrence whose component has no URL
    property is cut out of the description: it begins with ["http://"] or
    ["https://"], has at least one more character, holds no white space,
    and stands in the description where it runs to the end or to the next
    white space. *)
Theorem link_is_cut_from_the_description comp desc l :
  Py.truthy (default ""%string (c_url comp)) = false →
  c_description comp = Some desc →
  component_link comp = Some l →
  (String.prefix "http://" l = true ∨ String.prefix "https://" l = true)
  ∧ (7 < String.length l)%nat
  ∧ no_white_space l = true
  ∧ ∃ a b, run_in desc a l b.
Proof.
  intros Hu Hd. unfold component_link. rewrite Hd.
  assert (match Py.truthy desc with
          | true => url_re_search desc
          | false => None
          end = Some l → url_re_search desc = Some l) as Hs
    by (by destruct (Py.truthy desc)).
  destruct (c_url comp) as [u |].
  - change (Py.truthy u = false) in Hu.
    rewrite Hu. intros H%Hs. by apply url_re_search_spec.
  - intros H%Hs. by apply url_re_search_spec.
Qed.

Lemma link_is_cut_from_the_description_witness :
  (String.prefix "http://" "https://meet.example/r/42" = true
   ∨ String.prefix "https://" "https://meet.example/r/42" = true)
  ∧ (7 < String.length "https://meet.example/r/42")%nat
  ∧ no_white_space "https://meet.example/r/42" = true
  ∧ ∃ a b, run_in "sala: https://meet.example/r/42 (link)" a
             "https://meet.example/r/42" b.
Proof.
  apply (link_is_cut_from_the_description meeting
           "sala: https://meet.example/r/42 (link)"
           "https://meet.example/r/42"); reflexivity.
Defined.

(** ** More on the month index *)

Example short_dated_is_indexed_and_not_listed :
  (try_except (events_map_for_month short_dated_app 2024 3) ∅
     !! "2024-3-10"%string = Some [short_dated])
  ∧ events_for_date short_dated_app (Date 2024 3 10) = Ok [afternoon_B].
Proof. split; vm_compute; reflexivity. Qed.

Lemma event_in_month_intro e ds d :
  ev_date e = Some ds → from_date_str (Some ds) = Ok d →
  event_in_month (year d) (month d) e = true.
Proof.
  intros Hds Hd. unfold event_in_month. rewrite Hds, Hd.
  by rewrite !Z.eqb_refl.
Qed.

Lemma events_for_date_inv self d l e :
  events_for_date self d = Ok l → e ∈ l →
  e ∈ month_events self (year d) (month d)
  ∧ ev_date e = Some (to_date_str d).
Proof.
  unfold events_for_date.
  destruct (events_map_for_month self (year d) (month d)) as [idx |] eqn:E;
    [| done].
  cbn [mbind result_bind]. intros [= <-] Hin.
  destruct (idx !! to_date_str d) as [l |] eqn:El;
    [| by apply elem_of_nil in Hin].
  cbn [default] in Hin. apply list_elem_of_lookup_1 in Hin as [i Hi].
  apply (occurrence_at_inv self _ _ idx _ i e E). by exists l.
Qed.

(** X26. The calendar and the panel look a date up by its text with the
    zeros.  A stored user event whose date parses but is written
    otherwise (["2024-3-10"]) is in the month index, under its own text,
    and [events_for_date] lists it for no date. *)
Theorem short_date_text_is_never_listed self e ds d0 :
  e ∈ user_events self →
  ev_date e = Some ds → from_date_str (Some ds) = Ok d0 →
  ds ≠ to_date_str d0 →
  (∀ idx, events_map_for_month self (year d0) (month d0) = Ok idx →
          ∃ i, occurrence_at idx ds i e)
  ∧ (∀ d l, valid_date d → events_for_date self d = Ok l → e ∉ l).
Proof.
  intros Hin Hds Hd0 Hne. split.
  - intros idx Hidx. eapply occurrence_at_intro; [done | | done].
    unfold month_events. apply elem_of_app. left.
    apply list_elem_of_filter. split; [| done].
    by eapply event_in_month_intro.
  - intros d l Hv Hl Hel.
    apply (events_for_date_inv _ _ _ _ Hl) in Hel as [_ Hds'].
    assert (ds = to_date_str d) as -> by congruence.
    destruct (Z_lt_dec (year d) 1000) as [Hlt | Hge].
    + by rewrite from_date_str_to_date_str_below in Hd0.
    + rewrite from_date_str_to_date_str in Hd0 by (done || lia).
      by injection Hd0 as <-.
Qed.

Lemma short_date_text_is_never_listed_witness :
  (∀ idx, events_map_for_month short_dated_app 2024 3 = Ok idx →
          ∃ i, occurrence_at idx "2024-3-10" i short_dated)
  ∧ (∀ d l, valid_date d → events_for_date short_dated_app d = Ok l →
            short_dated ∉ l).
Proof.
  apply (short_date_text_is_never_listed short_dated_app short_dated
           "2024-3-10" (Date 2024 3 10)).
  - apply (bool_decide_unpack _). vm_compute. exact I.
  - reflexivity.
  - vm_compute. reflexivity.
  - vm_compute. discriminate.
Defined.

(** *** Ties *)

Lemma str_lt_irrefl s : Py.str_lt s s = false.
Proof.
  unfold Py.str_lt, String.ltb.
  pose proof (String.compare_antisym s s) as H.
  by destruct (s ?= s)%string; cbn in H.
Qed.

Lemma key_lt_irrefl k : key_lt k k = false.
Proof. unfold key_lt. by rewrite Z.eqb_refl, str_lt_irrefl. Qed.

(** An insertion goes before the records of the same key. *)
Lemma filter_insert_by_key k x l :
  filter (λ e, sort_key e = k) (insert_by_key x l)
  = filter (λ e, sort_key e = k) (x :: l).
Proof.
  induction l as [| y l IH]; [done |]. cbn [insert_by_key].
  destruct (key_lt (sort_key y) (sort_key x)) eqn:E; [| done].
  rewrite filter_cons, IH, !filter_cons.
  destruct (decide (sort_key y = k)) as [Hy |],
           (decide (sort_key x = k)) as [Hx |]; try done.
  rewrite Hy, Hx, key_lt_irrefl in E. done.
Qed.

(** The sort is stable. *)
Lemma sort_by_key_stable k l :
  filter (λ e, sort_key e = k) (sort_by_key l)
  = filter (λ e, sort_key e = k) l.
Proof.
  induction l as [| x l IH]; [done |].
  unfold sort_by_key in *. cbn [foldr].
  by rewrite filter_insert_by_key, !filter_cons, IH.
Qed.

Example tied_order :
  events_for_date tied_app (Date 2024 3 10)
  = Ok [class_second; class_first; all_day_A].
Proof. vm_compute. reflexivity. Qed.

(** X27. Ties keep the order of the stores.  In an entry of the month
    index, the occurrences with the same time and the same title stand in
    the order of the list the index is built from: stored user events,
    then cached feed occurrences, then routine occurrences, each in their
    own order. *)
Theorem ties_keep_stored_order self y m idx ds l k :
  events_map_for_month self y m = Ok idx → idx !! ds = Some l →
  filter (λ e, sort_key e = k) l
  = filter (λ e, sort_key e = k) (on_date ds (month_events self y m)).
Proof.
  intros [_ Hidx]%events_map_for_month_ok Hl. rewrite Hidx in Hl.
  destruct (on_date ds (month_events self y m)) as [| e evs]; [done |].
  injection Hl as <-. apply (sort_by_key_stable k (e :: evs)).
Qed.

Lemma ties_keep_stored_order_witness :
  filter (λ e, sort_key e = (540, "Aula"%string))
    [class_second; class_first; all_day_A]
  = filter (λ e, sort_key e = (540, "Aula"%string))
      (on_date "2024-03-10" (month_events tied_app 2024 3)).
Proof.
  apply (ties_keep_stored_order tied_app 2024 3
           (try_except (events_map_for_month tied_app 2024 3) ∅)
           "2024-03-10").
  - vm_compute. reflexivity.
  - vm_compute. reflexivity.
Defined.
